(** * Trivia session coordinator: state machine and scoring engine

    A shallow embedding of [server.ts] (the socket.io quiz server) and of
    the types of [src/types.ts], with the properties of its command
    handlers, its phase timer and its scoring pass. *)

From stdpp Require Import gmap strings list fin_maps sorting.
From Stdlib Require Import ZArith.

Local Open Scope Z_scope.

(** ** Data model ([src/types.ts]) *)

(** [GameState]: the six phases.  The answering phase is spelled
    ['QUESTION'] in the code. *)
Inductive GameState :=
| LOBBY | READING | QUESTION | REVEAL | LEADERBOARD | FINAL_RESULTS.

#[global] Instance GameState_eq_dec : EqDecision GameState.
Proof. solve_decision. Defined.

Record Question := mkQuestion {
  q_id : Z;
  text : string;
  options : list string;
  correctAnswer : Z;
}.

(** [Player]: [currentAnswer] and [answerTime] are [number | null],
    [avatar] is optional. *)
Record Player := mkPlayer {
  id : string;
  name : string;
  avatar : option string;
  score : Z;
  lastScoreChange : Z;
  currentAnswer : option Z;
  hasChangedAnswer : bool;
  answerTime : option Z;
  isHost : bool;
}.

Record GameData := mkGameData {
  state : GameState;
  currentQuestionIndex : Z;
  questions : list Question;
  players : list (string * Player);
  timer : Z;
}.

(** ** JavaScript objects used as ordered maps

    [gameState.players] is a plain object keyed by socket id.  [Object.values]
    enumerates string keys in insertion order, and the stable sort of the
    scoring pass makes that order observable, so the object is an
    association list: assigning an existing key keeps its place, assigning a
    new key appends, [delete] removes the entry.  The key of an entry also
    stands for the identity of the [Player] object stored under it. *)
Section JsObject.
Context {V : Type}.

Fixpoint obj_get (k : string) (o : list (string * V)) : option V :=
  match o with
  | [] => None
  | (k', v) :: o' => if decide (k' = k) then Some v else obj_get k o'
  end.

Fixpoint obj_set (k : string) (v : V) (o : list (string * V)) : list (string * V) :=
  match o with
  | [] => [(k, v)]
  | (k', v') :: o' =>
      if decide (k' = k) then (k', v) :: o' else (k', v') :: obj_set k v o'
  end.

Fixpoint obj_delete (k : string) (o : list (string * V)) : list (string * V) :=
  match o with
  | [] => []
  | (k', v') :: o' =>
      if decide (k' = k) then obj_delete k o' else (k', v') :: obj_delete k o'
  end.

(** Mutation of the object stored under [k] (a field assignment through a
    reference to it). *)
Fixpoint obj_alter (f : V → V) (k : string) (o : list (string * V)) : list (string * V) :=
  match o with
  | [] => []
  | (k', v') :: o' =>
      if decide (k' = k) then (k', f v') :: obj_alter f k o'
      else (k', v') :: obj_alter f k o'
  end.

(** [Object.values(o).forEach(p => ...)] where the body only assigns
    fields of [p]. *)
Definition obj_forEach (f : V → V) (o : list (string * V)) : list (string * V) :=
  map (λ e, (e.1, f e.2)) o.
End JsObject.

(** ** [Array.prototype.sort] with a comparator

    The sort is stable (ECMAScript 2019), and a comparator result of [NaN]
    counts as [+0].  For a comparator that is a total preorder the result is
    the unique stable sorted permutation, which insertion from the right
    computes: an element goes in front of the first element that it does not
    exceed, so it stays ahead of the equal elements that followed it. *)
Section ArraySort.
Context {A : Type} (compareFn : A → A → comparison).

Fixpoint sort_insert (x : A) (l : list A) : list A :=
  match l with
  | [] => [x]
  | y :: l' =>
      match compareFn x y with
      | Gt => y :: sort_insert x l'
      | _ => x :: y :: l'
      end
  end.

Fixpoint Array_sort (l : list A) : list A :=
  match l with
  | [] => []
  | x :: l' => sort_insert x (Array_sort l')
  end.
End ArraySort.

(** Numbers extended with [Infinity], for [a.answerTime || Infinity]. *)
Inductive Num := Fin (z : Z) | Infinity.

(** [t || Infinity]: [null] and [0] are falsy. *)
Definition or_Infinity (t : option Z) : Num :=
  match t with
  | Some z => if decide (z = 0) then Infinity else Fin z
  | None => Infinity
  end.

(** The sign of [a - b] as the sort reads it; [Infinity - Infinity] is
    [NaN], read as zero. *)
Definition sub_sign (a b : Num) : comparison :=
  match a, b with
  | Fin x, Fin y => x ?= y
  | Fin _, Infinity => Lt
  | Infinity, Fin _ => Gt
  | Infinity, Infinity => Eq
  end.

(** [(a, b) => (a.answerTime || Infinity) - (b.answerTime || Infinity)] *)
Definition byAnswerTime (a b : Player) : comparison :=
  sub_sign (or_Infinity (answerTime a)) (or_Infinity (answerTime b)).

(** ** The question bank *)

Definition QUESTIONS : list Question := [
  mkQuestion 1 "เจ้าบ่าวและเจ้าสาวเจอกันครั้งแรกที่ไหน?"
    ["มหาวิทยาลัย"; "ที่ทำงาน"; "ร้านกาแฟ"; "งานแต่งเพื่อน"] 0;
  mkQuestion 2 "ใครเป็นคนสารภาพรักก่อน?"
    ["เจ้าบ่าว"; "เจ้าสาว"; "พร้อมกัน"; "ไม่มีใครสารภาพ"] 0;
  mkQuestion 3 "เมนูโปรดที่ทั้งคู่ชอบทานด้วยกันคืออะไร?"
    ["ชาบู"; "ส้มตำ"; "พิซซ่า"; "อาหารญี่ปุ่น"] 1;
  mkQuestion 4 "ทริปแรกที่ไปเที่ยวด้วยกันคือที่ไหน?"
    ["เชียงใหม่"; "ภูเก็ต"; "ญี่ปุ่น"; "เกาหลี"] 2;
  mkQuestion 5 "เจ้าบ่าวกลัวอะไรมากที่สุด?"
    ["แมลงสาบ"; "ความสูง"; "ผี"; "เมีย"] 3 ].

(** [QUESTIONS[i]]: [undefined] outside the array. *)
Definition question_at (i : Z) : option Question :=
  if decide (0 ≤ i) then QUESTIONS !! Z.to_nat i else None.

(** ** Server state and effects *)

(** The [onComplete] closures that [startReadingPhase] hands to
    [startTimer], by the phase they end. *)
Inductive Callback := endReading | endQuestion | endReveal.

(** The module-level variables of [server.ts], and the interval table of
    the runtime: [intervals] maps the handle of every interval that
    [setInterval] created and [clearInterval] has not cleared to the
    [onComplete] its callback closes over; [nextHandle] is the next handle
    that [setInterval] returns.  [timerInterval] is [null] or a handle.
    ([correctAnswersCount] is left out: nothing reads or writes it.) *)
Record Server := mkServer {
  gameState : GameData;
  playerFirstAnswers : gmap string Z;
  timerInterval : option nat;
  intervals : gmap nat Callback;
  nextHandle : nat;
}.

(** What the server sends: [io.emit('gameUpdate', gameState)] to every
    connection, [io.to(room).emit('answerFeedback', ...)] to one room. *)
Inductive Emit :=
| gameUpdate (data : GameData)
| answerFeedback (room : string) (correct : bool) (points : Z) (reason : string).

(** A handler run: [None] is an uncaught exception, otherwise the result,
    the new state and the events sent, oldest first. *)
Definition M (A : Type) : Type := Server → option (A * Server * list Emit).

#[global] Instance M_ret : MRet M := λ A x s, Some (x, s, []).
#[global] Instance M_bind : MBind M := λ A B f m s,
  match m s with
  | Some (x, s', out) =>
      match f x s' with
      | Some (y, s'', out') => Some (y, s'', out ++ out')
      | None => None
      end
  | None => None
  end.

Definition get : M Server := λ s, Some (s, s, []).
Definition modify (f : Server → Server) : M unit := λ s, Some ((), f s, []).
Definition emit (e : Emit) : M unit := λ s, Some ((), s, [e]).
Definition throw {A} : M A := λ _, None.

(** Field assignments. *)
Definition set_state (v : GameState) (g : GameData) : GameData :=
  mkGameData v (currentQuestionIndex g) (questions g) (players g) (timer g).
Definition set_currentQuestionIndex (v : Z) (g : GameData) : GameData :=
  mkGameData (state g) v (questions g) (players g) (timer g).
Definition set_players (v : list (string * Player)) (g : GameData) : GameData :=
  mkGameData (state g) (currentQuestionIndex g) (questions g) v (timer g).
Definition set_timer (v : Z) (g : GameData) : GameData :=
  mkGameData (state g) (currentQuestionIndex g) (questions g) (players g) v.

Definition set_gameState (f : GameData → GameData) (s : Server) : Server :=
  mkServer (f (gameState s)) (playerFirstAnswers s) (timerInterval s)
    (intervals s) (nextHandle s).
Definition set_playerFirstAnswers (v : gmap string Z) (s : Server) : Server :=
  mkServer (gameState s) v (timerInterval s) (intervals s) (nextHandle s).
Definition set_timerInterval (v : option nat) (s : Server) : Server :=
  mkServer (gameState s) (playerFirstAnswers s) v (intervals s) (nextHandle s).

Definition set_score (v : Z) (p : Player) : Player :=
  mkPlayer (id p) (name p) (avatar p) v (lastScoreChange p) (currentAnswer p)
    (hasChangedAnswer p) (answerTime p) (isHost p).
Definition set_lastScoreChange (v : Z) (p : Player) : Player :=
  mkPlayer (id p) (name p) (avatar p) (score p) v (currentAnswer p)
    (hasChangedAnswer p) (answerTime p) (isHost p).
Definition set_currentAnswer (v : option Z) (p : Player) : Player :=
  mkPlayer (id p) (name p) (avatar p) (score p) (lastScoreChange p) v
    (hasChangedAnswer p) (answerTime p) (isHost p).
Definition set_hasChangedAnswer (v : bool) (p : Player) : Player :=
  mkPlayer (id p) (name p) (avatar p) (score p) (lastScoreChange p) (currentAnswer p)
    v (answerTime p) (isHost p).
Definition set_answerTime (v : option Z) (p : Player) : Player :=
  mkPlayer (id p) (name p) (avatar p) (score p) (lastScoreChange p) (currentAnswer p)
    (hasChangedAnswer p) v (isHost p).

(** ** [server.ts] *)

Definition initialState : Server :=
  mkServer (mkGameData LOBBY 0 QUESTIONS [] 0) ∅ None ∅ 0.

(** [setInterval(() => ..., 1000)] for the callback of [startTimer] that
    closes over [cb]; returns the new handle. *)
Definition setInterval (cb : Callback) : M nat := λ s,
  let h := nextHandle s in
  Some (h,
        mkServer (gameState s) (playerFirstAnswers s) (timerInterval s)
          (<[h := cb]> (intervals s)) (S h),
        []).

Definition clearInterval (h : nat) : M unit :=
  modify (λ s,
    mkServer (gameState s) (playerFirstAnswers s) (timerInterval s)
      (delete h (intervals s)) (nextHandle s)).

Definition broadcastUpdate : M unit :=
  s ← get; emit (gameUpdate (gameState s)).

(** [if (timerInterval) clearInterval(timerInterval)] *)
Definition clearTimerInterval : M unit :=
  s ← get;
  match timerInterval s with
  | Some h => clearInterval h
  | None => mret ()
  end.

Definition startTimer (duration : Z) (cb : Callback) : M unit :=
  clearTimerInterval;;
  modify (set_gameState (set_timer duration));;
  broadcastUpdate;;
  h ← setInterval cb;
  modify (set_timerInterval (Some h)).

(** The [reason] texts of the feedback event. *)
Definition reason_first5 : string := "5 คนแรกที่ตอบถูกและไม่เปลี่ยนคำตอบ!".
Definition reason_unchanged : string := "ตอบถูกและไม่เปลี่ยนคำตอบ".
Definition reason_changed_late : string := "เปลี่ยนมาตอบถูกในช่วง 3 วินาทีสุดท้าย".
Definition reason_changed : string := "เปลี่ยนมาตอบถูก".
Definition reason_correct : string := "ตอบถูก".
Definition reason_wrong : string := "คำตอบไม่ถูกต้อง".

(** The branches of the [forEach] body of [calculateScores] that choose
    [points] and [reason] and advance [correctCount]. *)
Definition award (currentQuestion : Question) (firstAnswers : gmap string Z)
    (countdown : Z) (correctCount : Z) (player : Player) : Z * string * Z :=
  let isCorrect := bool_decide (currentAnswer player = Some (correctAnswer currentQuestion)) in
  if isCorrect then
    let firstAnswer := firstAnswers !! id player in
    let wasFirstCorrect := bool_decide (firstAnswer = Some (correctAnswer currentQuestion)) in
    if negb (hasChangedAnswer player) && wasFirstCorrect then
      if decide (correctCount < 5)
      then (20, reason_first5, correctCount + 1)
      else (10, reason_unchanged, correctCount + 1)
    else if hasChangedAnswer player then
      if decide (countdown ≤ 3)
      then (5, reason_changed_late, correctCount)
      else (10, reason_changed, correctCount)
    else (10, reason_correct, correctCount)
  else (0, reason_wrong, correctCount).

(** [player.lastScoreChange = points; player.score += points] *)
Definition credit (points : Z) (p : Player) : Player :=
  let p := set_lastScoreChange points p in
  set_score (score p + points) p.

(** One turn of the [forEach] of [calculateScores], for the player object
    stored under [e.1] whose fields read [e.2]; the turn only writes
    [score] and [lastScoreChange], which no turn reads before its own
    write.  Returns the new [correctCount]. *)
Definition scorePlayer (currentQuestion : Question) (correctCount : Z)
    (e : string * Player) : M Z :=
  s ← get;
  let player := e.2 in
  let isCorrect := bool_decide (currentAnswer player = Some (correctAnswer currentQuestion)) in
  let '(points, reason, correctCount') :=
    award currentQuestion (playerFirstAnswers s) (timer (gameState s)) correctCount player in
  modify (set_gameState (λ g, set_players (obj_alter (credit points) e.1 (players g)) g));;
  emit (answerFeedback (id player) isCorrect points reason);;
  mret correctCount'.

(** [players.forEach(player => ...)]; with [currentQuestion] undefined the
    first turn throws a [TypeError] on [currentQuestion.correctAnswer]. *)
Fixpoint scoreLoop (currentQuestion : option Question) (correctCount : Z)
    (l : list (string * Player)) : M unit :=
  match l with
  | [] => mret ()
  | e :: l' =>
      match currentQuestion with
      | None => throw
      | Some q => c ← scorePlayer q correctCount e; scoreLoop currentQuestion c l'
      end
  end.

(** The array that [calculateScores] walks: the non-host players, sorted by
    answer time. *)
Definition scoringOrder (g : GameData) : list (string * Player) :=
  Array_sort (λ a b, byAnswerTime a.2 b.2)
    (filter (λ e, isHost e.2 = false) (players g)).

Definition calculateScores : M unit :=
  s ← get;
  let currentQuestion := question_at (currentQuestionIndex (gameState s)) in
  let players := scoringOrder (gameState s) in
  scoreLoop currentQuestion 0 players.

(** The bodies of the three completion callbacks of [startReadingPhase]. *)
Definition runCallback (cb : Callback) : M unit :=
  match cb with
  | endReading =>
      modify (set_gameState (set_state QUESTION));;
      startTimer 15 endQuestion
  | endQuestion =>
      calculateScores;;
      modify (set_gameState (set_state REVEAL));;
      broadcastUpdate;;
      startTimer 5 endReveal
  | endReveal =>
      modify (set_gameState (set_state LEADERBOARD));;
      broadcastUpdate
  end.

(** One firing of the interval [h], the [setInterval] callback of
    [startTimer]; a cleared interval does not fire. *)
Definition tick (h : nat) : M unit :=
  s ← get;
  match intervals s !! h with
  | Some onComplete =>
      modify (set_gameState (λ g, set_timer (timer g - 1) g));;
      s' ← get;
      if decide (timer (gameState s') ≤ 0)
      then clearTimerInterval;; runCallback onComplete
      else broadcastUpdate
  | None => mret ()
  end.

Definition startReadingPhase : M unit :=
  modify (set_gameState (set_state READING));;
  modify (set_gameState (λ g,
    set_players
      (obj_forEach (λ p,
         set_lastScoreChange 0 (set_hasChangedAnswer false (set_currentAnswer None p)))
         (players g)) g));;
  modify (set_playerFirstAnswers ∅);;
  startTimer 5 endReading.

(** *** Socket event handlers; [sid] is [socket.id] *)

Definition join (sid : string) (name : string) (isHost : bool)
    (avatar : option string) : M unit :=
  modify (set_gameState (λ g,
    set_players
      (obj_set sid (mkPlayer sid name avatar 0 0 None false None isHost) (players g)) g));;
  broadcastUpdate.

(** [answerIndex] is a number, as [ClientToServerEvents] declares it, and
    [now] is the value of [Date.now()]. *)
Definition submitAnswer (sid : string) (answerIndex : Z) (now : Z) : M unit :=
  s ← get;
  match obj_get sid (players (gameState s)) with
  | None => mret ()
  | Some _ =>
      if decide (state (gameState s) ≠ QUESTION) then mret ()
      else
        (match playerFirstAnswers s !! sid with
         | None => modify (λ s, set_playerFirstAnswers (<[sid := answerIndex]> (playerFirstAnswers s)) s)
         | Some _ =>
             modify (set_gameState (λ g,
               set_players (obj_alter (set_hasChangedAnswer true) sid (players g)) g))
         end);;
        modify (set_gameState (λ g,
          set_players (obj_alter (set_currentAnswer (Some answerIndex)) sid (players g)) g));;
        modify (set_gameState (λ g,
          set_players (obj_alter (set_answerTime (Some now)) sid (players g)) g));;
        broadcastUpdate
  end.

(** [!player?.isHost] *)
Definition notHost (player : option Player) : bool :=
  match player with
  | Some p => negb (isHost p)
  | None => true
  end.

Definition hostStartGame (sid : string) : M unit :=
  s ← get;
  if notHost (obj_get sid (players (gameState s))) then mret ()
  else
    modify (set_gameState (set_currentQuestionIndex 0));;
    modify (set_gameState (λ g,
      set_players (obj_forEach (λ p, set_lastScoreChange 0 (set_score 0 p)) (players g)) g));;
    startReadingPhase.

Definition hostNextQuestion (sid : string) : M unit :=
  s ← get;
  if notHost (obj_get sid (players (gameState s))) then mret ()
  else
    if decide (currentQuestionIndex (gameState s) < Z.of_nat (length QUESTIONS) - 1)
    then
      modify (set_gameState (λ g,
        set_currentQuestionIndex (currentQuestionIndex g + 1) g));;
      startReadingPhase
    else
      modify (set_gameState (set_state FINAL_RESULTS));;
      broadcastUpdate.

Definition hostResetGame (sid : string) : M unit :=
  s ← get;
  if notHost (obj_get sid (players (gameState s))) then mret ()
  else
    modify (set_gameState (set_state LOBBY));;
    modify (set_gameState (set_currentQuestionIndex 0));;
    modify (set_gameState (λ g,
      set_players
        (obj_forEach (λ p,
           set_hasChangedAnswer false
             (set_currentAnswer None (set_lastScoreChange 0 (set_score 0 p))))
           (players g)) g));;
    broadcastUpdate.

Definition disconnect (sid : string) : M unit :=
  modify (set_gameState (λ g, set_players (obj_delete sid (players g)) g));;
  modify (λ s, set_playerFirstAnswers (delete sid (playerFirstAnswers s)) s);;
  broadcastUpdate.

(** What the event loop can deliver to the server. *)
Inductive Event :=
| ev_join (sid name : string) (isHost : bool) (avatar : option string)
| ev_submitAnswer (sid : string) (answerIndex now : Z)
| ev_hostStartGame (sid : string)
| ev_hostNextQuestion (sid : string)
| ev_hostResetGame (sid : string)
| ev_disconnect (sid : string)
| ev_tick (h : nat).

Definition handle (e : Event) : M unit :=
  match e with
  | ev_join sid name isHost avatar => join sid name isHost avatar
  | ev_submitAnswer sid answerIndex now => submitAnswer sid answerIndex now
  | ev_hostStartGame sid => hostStartGame sid
  | ev_hostNextQuestion sid => hostNextQuestion sid
  | ev_hostResetGame sid => hostResetGame sid
  | ev_disconnect sid => disconnect sid
  | ev_tick h => tick h
  end.

(** The server after a run of events, and everything it sent. *)
Fixpoint run (es : list Event) : M unit :=
  match es with
  | [] => mret ()
  | e :: es' => handle e;; run es'
  end.

(** *** The host's buttons ([HostControls] of the client)

    The client shows a button, and so sends the command, only in some
    phases; the server handlers above do not look at the phase. *)
Inductive HostCommand := cmd_hostStartGame | cmd_hostNextQuestion | cmd_hostResetGame.

Definition HostControls (g : GameData) : list HostCommand :=
  (if decide (state g = LOBBY) then [cmd_hostStartGame] else [])
  ++ (if decide (state g = LEADERBOARD) then [cmd_hostNextQuestion] else [])
  ++ (if decide (state g = FINAL_RESULTS ∨ state g = LEADERBOARD)
      then [cmd_hostResetGame] else []).

(** ** Sample sessions *)

(** The record that [join] stores. *)
Definition joined (sid name : string) (isHost : bool) (avatar : option string) : Player :=
  mkPlayer sid name avatar 0 0 None false None isHost.

(** A player who answered: score, last delta, answer, changed flag, time. *)
Definition answered (sid : string) (sc delta : Z) (answer : option Z)
    (changed : bool) (time : option Z) : Player :=
  mkPlayer sid sid None sc delta answer changed time false.

(** A host and two players on the leaderboard of question 0, the reveal
    interval (handle 2) cleared. *)
Definition onLeaderboard : Server :=
  mkServer
    (mkGameData LEADERBOARD 0 QUESTIONS
       [("h", joined "h" "Host" true None);
        ("a", answered "a" 20 20 (Some 0) false (Some 1700000000100));
        ("b", answered "b" 5 5 (Some 0) true (Some 1700000000200))] 0)
    {["a" := 0; "b" := 1]} (Some 2%nat) ∅ 3.

(** The same session during the answering phase of question 0, eight
    seconds left, interval 1 running. *)
Definition whileAnswering : Server :=
  mkServer
    (mkGameData QUESTION 0 QUESTIONS
       [("h", joined "h" "Host" true None);
        ("a", answered "a" 0 0 (Some 0) false (Some 1700000000100));
        ("b", answered "b" 0 0 (Some 0) true (Some 1700000000200))] 8)
    {["a" := 0; "b" := 1]} (Some 1%nat) {[1%nat := endQuestion]} 2.

(** The same session when the answering phase of question 0 opens: nobody
    has answered, fifteen seconds left. *)
Definition answeringOpens : Server :=
  mkServer
    (mkGameData QUESTION 0 QUESTIONS
       [("h", joined "h" "Host" true None);
        ("a", joined "a" "a" false None);
        ("b", joined "b" "b" false None)] 15)
    ∅ (Some 1%nat) {[1%nat := endQuestion]} 2.

(** Six players who all gave the right answer of question 0 once, [f]
    first and [a] last, one second before the answering phase ends. *)
Definition sixAnswered : Server :=
  mkServer
    (mkGameData QUESTION 0 QUESTIONS
       [("h", joined "h" "Host" true None);
        ("a", answered "a" 0 0 (Some 0) false (Some 1700000000105));
        ("b", answered "b" 0 0 (Some 0) false (Some 1700000000104));
        ("c", answered "c" 0 0 (Some 0) false (Some 1700000000103));
        ("d", answered "d" 0 0 (Some 0) false (Some 1700000000102));
        ("e", answered "e" 0 0 (Some 0) false (Some 1700000000101));
        ("f", answered "f" 0 0 (Some 0) false (Some 1700000000100))] 1)
    {["a" := 0; "b" := 0; "c" := 0; "d" := 0; "e" := 0; "f" := 0]}
    (Some 1%nat) {[1%nat := endQuestion]} 2.

(** The state that the last tick of the answering phase of [whileAnswering]
    hands to [calculateScores]: countdown 0, interval cleared. *)
Definition atBoundary : Server :=
  mkServer (set_timer 0 (gameState whileAnswering))
    (playerFirstAnswers whileAnswering) (Some 1%nat) ∅ 2.

(** Runs of events that lead to the sample sessions. *)
Definition toLeaderboard : list Event :=
  [ev_join "h" "Host" true None; ev_join "a" "a" false None;
   ev_join "b" "b" false None; ev_hostStartGame "h"]
  ++ replicate 5 (ev_tick 0)
  ++ [ev_submitAnswer "a" 0 1700000000100; ev_submitAnswer "b" 1 1700000000150;
      ev_submitAnswer "b" 0 1700000000200]
  ++ replicate 15 (ev_tick 1) ++ replicate 5 (ev_tick 2).

Definition toAnswering : list Event :=
  [ev_join "h" "Host" true None; ev_join "a" "a" false None;
   ev_join "b" "b" false None; ev_hostStartGame "h"]
  ++ replicate 5 (ev_tick 0)
  ++ [ev_submitAnswer "a" 0 1700000000100; ev_submitAnswer "b" 1 1700000000150;
      ev_submitAnswer "b" 0 1700000000200]
  ++ replicate 7 (ev_tick 1).

Definition toAnsweringOpens : list Event :=
  [ev_join "h" "Host" true None; ev_join "a" "a" false None;
   ev_join "b" "b" false None; ev_hostStartGame "h"]
  ++ replicate 5 (ev_tick 0).

Definition toSixAnswered : list Event :=
  [ev_join "h" "Host" true None;
   ev_join "a" "a" false None; ev_join "b" "b" false None;
   ev_join "c" "c" false None; ev_join "d" "d" false None;
   ev_join "e" "e" false None; ev_join "f" "f" false None;
   ev_hostStartGame "h"]
  ++ replicate 5 (ev_tick 0)
  ++ [ev_submitAnswer "f" 0 1700000000100; ev_submitAnswer "e" 0 1700000000101;
      ev_submitAnswer "d" 0 1700000000102; ev_submitAnswer "c" 0 1700000000103;
      ev_submitAnswer "b" 0 1700000000104; ev_submitAnswer "a" 0 1700000000105]
  ++ replicate 14 (ev_tick 1).

(** ** Notions used by the properties *)

(** At most one interval is running, the one that [timerInterval] holds. *)
Definition one_timer (s : Server) : Prop :=
  ∀ h cb, intervals s !! h = Some cb → timerInterval s = Some h.

(** The keys of the players object are distinct. *)
Definition distinct_keys (s : Server) : Prop :=
  NoDup (players (gameState s)).*1.

(** Every record sits under its own [id], as [join] stores it. *)
Definition own_ids (s : Server) : Prop :=
  Forall (λ e : string * Player, id e.2 = e.1) (players (gameState s)).

(** The question index points into the bank. *)
Definition valid_index (s : Server) : Prop :=
  0 ≤ currentQuestionIndex (gameState s) < Z.of_nat (length QUESTIONS).

(** What holds of the server between any two events. *)
Definition consistent (s : Server) : Prop :=
  distinct_keys s ∧ own_ids s ∧ one_timer s ∧ valid_index s.

(** A computation that runs to the end from a consistent server and
    leaves a consistent server. *)
Definition keeps_consistent {A} (m : M A) : Prop :=
  ∀ s, consistent s → ∃ x s' out, m s = Some (x, s', out) ∧ consistent s'.

(** What [startReadingPhase] leaves of a participant record. *)
Definition cleared_for_question (p : Player) : Player :=
  mkPlayer (id p) (name p) (avatar p) (score p) 0 None false (answerTime p) (isHost p).

(** What [hostStartGame] leaves of a participant record. *)
Definition cleared_for_game (p : Player) : Player :=
  mkPlayer (id p) (name p) (avatar p) 0 0 None false (answerTime p) (isHost p).

(** The index of the last question of the bank. *)
Definition lastIndex : Z := Z.of_nat (length QUESTIONS) - 1.

(** The server that [startReadingPhase] leaves when one timer at most was
    running. *)
Definition readingPlayers (ps : list (string * Player)) : list (string * Player) :=
  obj_forEach (λ p,
    set_lastScoreChange 0 (set_hasChangedAnswer false (set_currentAnswer None p))) ps.

Definition readingState (s : Server) : Server :=
  mkServer
    (mkGameData READING (currentQuestionIndex (gameState s)) (questions (gameState s))
       (readingPlayers (players (gameState s))) 5)
    ∅ (Some (nextHandle s)) {[nextHandle s := endReading]} (S (nextHandle s)).

(** The server that an accepted [submitAnswer] leaves. *)
Definition answerRecorded (sid : string) (answerIndex now : Z) (s : Server) : Server :=
  let ps := players (gameState s) in
  let marked :=
    match playerFirstAnswers s !! sid with
    | None => ps
    | Some _ => obj_alter (set_hasChangedAnswer true) sid ps
    end in
  mkServer
    (set_players
       (obj_alter (set_answerTime (Some now)) sid
          (obj_alter (set_currentAnswer (Some answerIndex)) sid marked))
       (gameState s))
    (match playerFirstAnswers s !! sid with
     | None => <[sid := answerIndex]> (playerFirstAnswers s)
     | Some _ => playerFirstAnswers s
     end)
    (timerInterval s) (intervals s) (nextHandle s).

(** A participant in the tiered branch of the scoring pass: final answer
    correct, changed flag false, recorded first answer correct. *)
Definition qualifies (q : Question) (fa : gmap string Z) (p : Player) : Prop :=
  currentAnswer p = Some (correctAnswer q) ∧
  hasChangedAnswer p = false ∧
  fa !! id p = Some (correctAnswer q).

#[global] Instance qualifies_dec q fa p : Decision (qualifies q fa p).
Proof. unfold qualifies. apply _. Defined.

(** How many entries of [l] are in the tiered branch. *)
Definition tiered (q : Question) (fa : gmap string Z) (l : list (string * Player)) : Z :=
  Z.of_nat (length (filter (λ e, qualifies q fa e.2) l)).

(** The entries of a list with their positions. *)
Fixpoint indexedFrom {A} (n : nat) (l : list A) : list (nat * A) :=
  match l with
  | [] => []
  | x :: l' => (n, x) :: indexedFrom (S n) l'
  end.
Definition indexed {A} (l : list A) : list (nat * A) := indexedFrom 0 l.

(** In a stable sort by [compareFn], [a] goes before [b] when it is
    smaller, or equal and earlier in the input. *)
Definition goes_before {A} (compareFn : A → A → comparison) (a b : nat * A) : Prop :=
  compareFn a.2 b.2 = Lt ∨ (compareFn a.2 b.2 = Eq ∧ (a.1 < b.1)%nat).

#[global] Instance goes_before_dec {A} (compareFn : A → A → comparison) a b :
  Decision (goes_before compareFn a b).
Proof. unfold goes_before. apply _. Defined.

(** The comparator of [calculateScores] on entries of the players object. *)
Definition entryOrder (a b : string * Player) : comparison := byAnswerTime a.2 b.2.

(** Submission order as the specification words it: by answer time, a
    missing time last, and among equal times by position in the players
    object. *)
Definition time_lt (a b : option Z) : Prop :=
  match a, b with
  | Some x, Some y => x < y
  | Some _, None => True
  | None, _ => False
  end.

#[global] Instance time_lt_dec a b : Decision (time_lt a b).
Proof. destruct a, b; simpl; apply _. Defined.

Definition answeredBefore (a b : nat * Player) : Prop :=
  time_lt (answerTime a.2) (answerTime b.2) ∨
  (answerTime a.2 = answerTime b.2 ∧ (a.1 < b.1)%nat).

#[global] Instance answeredBefore_dec a b : Decision (answeredBefore a b).
Proof. unfold answeredBefore. apply _. Defined.

(** The number of non-host participants in the tiered branch whose
    submission precedes that of [p], the participant at position [i]. *)
Definition tieredAhead (q : Question) (fa : gmap string Z)
    (ps : list (string * Player)) (i : nat) (p : Player) : nat :=
  length (filter (λ je : nat * (string * Player),
                    isHost je.2.2 = false ∧ qualifies q fa je.2.2 ∧
                    answeredBefore (je.1, je.2.2) (i, p))
            (indexed ps)).

(** The feedback events that go to room [r]. *)
Definition feedbackRoom (e : Emit) : option string :=
  match e with
  | answerFeedback r _ _ _ => Some r
  | gameUpdate _ => None
  end.
Definition feedbackTo (r : string) (out : list Emit) : list Emit :=
  filter (λ e, feedbackRoom e = Some r) out.

(** The players and the events of the loop of [calculateScores] over [l],
    as functions of the first-answer table, the countdown and the count. *)
Fixpoint loopPlayers (q : Question) (fa : gmap string Z) (t c : Z)
    (l ps : list (string * Player)) : list (string * Player) :=
  match l with
  | [] => ps
  | e :: l' =>
      let r := award q fa t c e.2 in
      loopPlayers q fa t r.2 l' (obj_alter (credit r.1.1) e.1 ps)
  end.

Fixpoint loopEmits (q : Question) (fa : gmap string Z) (t c : Z)
    (l : list (string * Player)) : list Emit :=
  match l with
  | [] => []
  | e :: l' =>
      let r := award q fa t c e.2 in
      answerFeedback (id e.2)
        (bool_decide (currentAnswer e.2 = Some (correctAnswer q))) r.1.1 r.1.2
      :: loopEmits q fa t r.2 l'
  end.


(** ** Notions for the properties of whole runs *)

(** From a server that satisfies [P], [m] runs to the end without an
    exception, returns a value and a server that satisfy [Q], and sends
    only events that satisfy [E]. *)
Definition hoare {A} (P : Server → Prop) (m : M A) (Q : A → Server → Prop)
    (E : Emit → Prop) : Prop :=
  ∀ s, P s → ∃ x s' out, m s = Some (x, s', out) ∧ Q x s' ∧ Forall E out.

(** The points that a scoring pass can give. *)
Definition points_ok (z : Z) : Prop := z = 0 ∨ z = 5 ∨ z = 10 ∨ z = 20.

(** A participant record in order, given the first-answer table: the last
    delta is a possible award and part of the score, a host has no score,
    and an unchanged current answer is the recorded first answer. *)
Definition record_ok (fa : gmap string Z) (p : Player) : Prop :=
  points_ok (lastScoreChange p) ∧
  lastScoreChange p ≤ score p ∧
  (isHost p = true → score p = 0) ∧
  (hasChangedAnswer p = false →
   ∀ a, currentAnswer p = Some a → fa !! id p = Some a).

(** The countdown is 0 exactly when no interval is running, and between 1
    and 15 while one is. *)
Definition timer_ok (s : Server) : Prop :=
  (intervals s = ∅ → timer (gameState s) = 0) ∧
  (∀ h cb, intervals s !! h = Some cb → 1 ≤ timer (gameState s) ≤ 15).

(** What holds of the server between any two events of a run from the
    initial state. *)
Definition sound (s : Server) : Prop :=
  consistent s ∧ timer_ok s ∧
  Forall (λ e : string * Player, record_ok (playerFirstAnswers s) e.2)
    (players (gameState s)).

(** The server when a completion callback starts: sound, no interval. *)
Definition at_completion (s : Server) : Prop := sound s ∧ intervals s = ∅.

(** The feedback events that the reachable branches of [calculateScores]
    send. *)
Definition feedback_ok (e : Emit) : Prop :=
  match e with
  | gameUpdate _ => True
  | answerFeedback _ correct points reason =>
      (correct, points, reason) = (false, 0, reason_wrong) ∨
      (correct, points, reason) = (true, 20, reason_first5) ∨
      (correct, points, reason) = (true, 10, reason_unchanged) ∨
      (correct, points, reason) = (true, 5, reason_changed_late)
  end.

(** The points of a feedback event. *)
Definition feedbackPoints (e : Emit) : option Z :=
  match e with
  | answerFeedback _ _ points _ => Some points
  | gameUpdate _ => None
  end.

(** ** Notions for the countdown *)

(** The server on which the completion callback of a countdown runs. *)
Definition completionState (s : Server) : Server :=
  mkServer (set_timer 0 (gameState s)) (playerFirstAnswers s) (timerInterval s)
    ∅ (nextHandle s).

(** The broadcasts of the firings of a countdown that stands at [t], down
    to the one that shows 1. *)
Definition countdownUpdates (s : Server) : list Emit :=
  (λ i : nat, gameUpdate (set_timer (timer (gameState s) - Z.of_nat i) (gameState s)))
    <$> seq 1 (Z.to_nat (timer (gameState s)) - 1).

(** The broadcasts among the events sent. *)
Definition isGameUpdate (e : Emit) : bool :=
  match e with gameUpdate _ => true | answerFeedback _ _ _ _ => false end.
Definition broadcasts (out : list Emit) : nat :=
  length (filter (λ e, isGameUpdate e = true) out).

(** The firings of the three countdowns of one question, when the first
    interval has handle [h]. *)
Definition questionCycle (h : nat) : list Event :=
  replicate 5 (ev_tick h) ++ replicate 15 (ev_tick (S h))
  ++ replicate 5 (ev_tick (S (S h))).

(** The phase that the completion of a countdown leaves. *)
Definition phaseAfter (cb : Callback) : GameState :=
  match cb with
  | endReading => QUESTION
  | endQuestion => REVEAL
  | endReveal => LEADERBOARD
  end.

(** A feedback event that gives no points. *)
Definition noPoints (e : Emit) : Prop :=
  match e with
  | gameUpdate _ => True
  | answerFeedback _ correct points reason =>
      (correct, points, reason) = (false, 0, reason_wrong)
  end.

(** ** The leaderboard of the client ([LeaderboardView], [FinalResultsView]) *)

(** [(a, b) => b.score - a.score] *)
Definition byScore (a b : Player) : comparison := score b ?= score a.

(** [Object.values(gameState.players).filter(p => !p.isHost)
       .sort((a, b) => b.score - a.score)], the list of [LeaderboardView]
    and [FinalResultsView]. *)
Definition ranking (g : GameData) : list Player :=
  Array_sort byScore (filter (λ p, isHost p = false) (players g).*2).

(** [Array.prototype.findIndex]: the first position that satisfies [f],
    -1 when there is none. *)
Fixpoint findIndexFrom {A} (f : A → bool) (i : Z) (l : list A) : Z :=
  match l with
  | [] => -1
  | x :: l' => if f x then i else findIndexFrom f (i + 1) l'
  end.
Definition findIndex {A} (f : A → bool) (l : list A) : Z := findIndexFrom f 0 l.

(** [players.findIndex(p => p.id === socket.id) + 1] *)
Definition myRank (sid : string) (g : GameData) : Z :=
  findIndex (λ p, bool_decide (id p = sid)) (ranking g) + 1.

(** [players.slice(0, 10)] and [players.slice(0, 3)] *)
Definition top10 (g : GameData) : list Player := take 10 (ranking g).
Definition winners (g : GameData) : list Player := take 3 (ranking g).

(** [a] stands above [b] on the leaderboard: a higher score, or the same
    score and an earlier place in the players object. *)
Definition ranksAbove (a b : nat * Player) : Prop :=
  score b.2 < score a.2 ∨ (score a.2 = score b.2 ∧ (a.1 < b.1)%nat).

#[global] Instance ranksAbove_dec a b : Decision (ranksAbove a b).
Proof. unfold ranksAbove. apply _. Defined.
(** * Properties *)

(** ** Objects as ordered maps *)
Section ObjFacts.
Context {V : Type}.
Implicit Types (o : list (string * V)) (k : string).

Lemma obj_get_alter (f : V → V) k k' o :
  obj_get k (obj_alter f k' o) =
    if decide (k' = k) then f <$> obj_get k o else obj_get k o.
Proof.
  induction o as [|[k0 v0] o IH]; simpl.
  - by case_decide.
  - repeat (case_decide; simplify_eq/=); done.
Qed.

Lemma obj_get_forEach (f : V → V) k o :
  obj_get k (obj_forEach f o) = f <$> obj_get k o.
Proof.
  induction o as [|[k0 v0] o IH]; simpl; [done|]. by case_decide.
Qed.

Lemma obj_get_set v k k' o :
  obj_get k (obj_set k' v o) = if decide (k' = k) then Some v else obj_get k o.
Proof.
  induction o as [|[k0 v0] o IH]; simpl; [done|].
  repeat (case_decide; simplify_eq/=); done.
Qed.

Lemma obj_keys_alter (f : V → V) k o : (obj_alter f k o).*1 = o.*1.
Proof.
  induction o as [|[k0 v0] o IH]; csimpl; [done|].
  case_decide; csimpl; by rewrite IH.
Qed.

Lemma obj_keys_forEach (f : V → V) o : (obj_forEach f o).*1 = o.*1.
Proof. induction o as [|[k0 v0] o IH]; csimpl; [done|]. by rewrite <- IH. Qed.
End ObjFacts.

(** Unfolds a handler into the state it returns and the events it sends. *)
Ltac exec :=
  unfold hostStartGame, hostNextQuestion, hostResetGame, submitAnswer, join,
    disconnect, startReadingPhase, startTimer, clearTimerInterval, clearInterval,
    setInterval, broadcastUpdate, get, modify, emit, throw;
  unfold mbind, mret, M_bind, M_ret; cbn beta iota.

(** ** Host commands *)

(** C6: when the caller has no participant record, or a record whose host
    flag is false, [hostStartGame], [hostNextQuestion] and [hostResetGame]
    return the server state as it was and send nothing. *)
Theorem host_commands_ignore_non_host (s : Server) (sid : string) :
  obj_get sid (players (gameState s)) = None ∨
    (∃ p, obj_get sid (players (gameState s)) = Some p ∧ isHost p = false) →
  hostStartGame sid s = Some ((), s, []) ∧
  hostNextQuestion sid s = Some ((), s, []) ∧
  hostResetGame sid s = Some ((), s, []).
Proof.
  intros Hcaller.
  assert (notHost (obj_get sid (players (gameState s))) = true) as Hn.
  { destruct Hcaller as [-> | (p & -> & Hp)]; simpl; [done | by rewrite Hp]. }
  exec. by rewrite Hn.
Qed.

Lemma host_commands_ignore_non_host_witness :
  (hostStartGame "a" onLeaderboard = Some ((), onLeaderboard, []) ∧
   hostNextQuestion "a" onLeaderboard = Some ((), onLeaderboard, []) ∧
   hostResetGame "a" onLeaderboard = Some ((), onLeaderboard, [])) ∧
  (hostStartGame "nobody" onLeaderboard = Some ((), onLeaderboard, []) ∧
   hostNextQuestion "nobody" onLeaderboard = Some ((), onLeaderboard, []) ∧
   hostResetGame "nobody" onLeaderboard = Some ((), onLeaderboard, [])).
Proof.
  split.
  - apply (host_commands_ignore_non_host onLeaderboard "a").
    right. eexists. split; reflexivity.
  - apply (host_commands_ignore_non_host onLeaderboard "nobody").
    left. reflexivity.
Defined.

(** The sample sessions are states that the server reaches. *)
Lemma onLeaderboard_reached :
  ∃ out, run toLeaderboard initialState = Some ((), onLeaderboard, out).
Proof. eexists. vm_compute. reflexivity. Qed.

Lemma whileAnswering_reached :
  ∃ out, run toAnswering initialState = Some ((), whileAnswering, out).
Proof. eexists. vm_compute. reflexivity. Qed.

(** ** Entering the reading phase *)

Lemma startTimer_run (s : Server) (d : Z) (cb : Callback) :
  one_timer s →
  startTimer d cb s =
    Some ((),
          mkServer (set_timer d (gameState s)) (playerFirstAnswers s)
            (Some (nextHandle s)) {[nextHandle s := cb]} (S (nextHandle s)),
          [gameUpdate (set_timer d (gameState s))]).
Proof.
  intros Hone. exec.
  assert (match timerInterval s with
          | Some h => delete h (intervals s)
          | None => intervals s
          end = ∅) as Hempty.
  { apply map_eq. intros h. rewrite lookup_empty.
    destruct (timerInterval s) as [h0|] eqn:Ht.
    - rewrite lookup_delete. case_decide; [done|].
      destruct (intervals s !! h) as [cb0|] eqn:Hh; [|done].
      apply Hone in Hh. congruence.
    - destruct (intervals s !! h) as [cb0|] eqn:Hh; [|done].
      apply Hone in Hh. congruence. }
  destruct (timerInterval s) as [h0|]; simpl in *; rewrite Hempty;
    rewrite insert_empty; done.
Qed.

Lemma startReadingPhase_run (s : Server) :
  one_timer s →
  startReadingPhase s =
    Some ((), readingState s, [gameUpdate (gameState (readingState s))]).
Proof.
  intros Hone.
  set (s1 := set_playerFirstAnswers ∅
     (set_gameState (λ g, set_players
        (obj_forEach (λ p, set_lastScoreChange 0
           (set_hasChangedAnswer false (set_currentAnswer None p))) (players g)) g)
        (set_gameState (set_state READING) s))).
  unfold startReadingPhase. unfold mbind at 1 2 3, M_bind, modify. fold s1.
  by rewrite (startTimer_run s1 5 endReading Hone).
Qed.

(** C3 (amended): [startReadingPhase] cancels the running timer, sets every
    participant's current answer to null, changed flag to false and last
    score delta to 0, leaves every other field of the record (the answer
    time among them) as it was, empties the first-answer scratch table,
    sets the countdown to 5 and starts the one interval that ends the
    reading phase, with one broadcast of the new state. *)
Theorem startReadingPhase_resets (s : Server) :
  one_timer s →
  ∃ s', startReadingPhase s = Some ((), s', [gameUpdate (gameState s')]) ∧
    state (gameState s') = READING ∧
    currentQuestionIndex (gameState s') = currentQuestionIndex (gameState s) ∧
    timer (gameState s') = 5 ∧
    playerFirstAnswers s' = ∅ ∧
    timerInterval s' = Some (nextHandle s) ∧
    intervals s' = {[nextHandle s := endReading]} ∧
    (players (gameState s')).*1 = (players (gameState s)).*1 ∧
    ∀ k p, obj_get k (players (gameState s)) = Some p →
      obj_get k (players (gameState s')) = Some (cleared_for_question p).
Proof.
  intros Hone. exists (readingState s).
  split; [by apply startReadingPhase_run|].
  split_and!; try reflexivity.
  - apply obj_keys_forEach.
  - intros k p Hk. simpl. unfold readingPlayers.
    by rewrite obj_get_forEach, Hk.
Qed.

Lemma startReadingPhase_resets_witness :
  ∃ s', startReadingPhase onLeaderboard = Some ((), s', [gameUpdate (gameState s')]) ∧
    state (gameState s') = READING ∧
    currentQuestionIndex (gameState s') = 0 ∧
    timer (gameState s') = 5 ∧
    playerFirstAnswers s' = ∅ ∧
    timerInterval s' = Some 3%nat ∧
    intervals s' = {[3%nat := endReading]} ∧
    (players (gameState s')).*1 = ["h"; "a"; "b"] ∧
    ∀ k p, obj_get k (players (gameState onLeaderboard)) = Some p →
      obj_get k (players (gameState s')) = Some (cleared_for_question p).
Proof.
  apply (startReadingPhase_resets onLeaderboard).
  intros h cb Hh. vm_compute in Hh. discriminate Hh.
Defined.

(** C3, as stated, fails: a participant's answer time survives the entry
    into the reading phase. *)
Lemma startReadingPhase_keeps_answerTime :
  ∃ s' out p',
    startReadingPhase onLeaderboard = Some ((), s', out) ∧
    obj_get "a" (players (gameState s')) = Some p' ∧
    answerTime p' = Some 1700000000100 ∧
    answerTime p' ≠ None.
Proof. do 3 eexists. vm_compute. split_and!; try reflexivity. discriminate. Qed.

(** ** The host's start and advance commands *)

(** C4 (amended): [hostStartGame] has no phase check.  Issued by a host
    in any phase, it sets every participant's score and last score delta to
    0, sets the question index to 0 and enters the reading phase of
    question 0. *)
Theorem hostStartGame_from_any_phase (s : Server) (sid : string) (p : Player) :
  one_timer s →
  obj_get sid (players (gameState s)) = Some p →
  isHost p = true →
  ∃ s', hostStartGame sid s = Some ((), s', [gameUpdate (gameState s')]) ∧
    state (gameState s') = READING ∧
    currentQuestionIndex (gameState s') = 0 ∧
    timer (gameState s') = 5 ∧
    playerFirstAnswers s' = ∅ ∧
    intervals s' = {[nextHandle s := endReading]} ∧
    (players (gameState s')).*1 = (players (gameState s)).*1 ∧
    ∀ k q, obj_get k (players (gameState s)) = Some q →
      obj_get k (players (gameState s')) = Some (cleared_for_game q).
Proof.
  intros Hone Hp Hhost.
  set (s1 := set_gameState (λ g, set_players
        (obj_forEach (λ p, set_lastScoreChange 0 (set_score 0 p)) (players g)) g)
        (set_gameState (set_currentQuestionIndex 0) s)).
  exists (readingState s1). split.
  { unfold hostStartGame, get. unfold mbind at 1, M_bind. cbn beta iota.
    rewrite Hp. simpl. rewrite Hhost. simpl.
    unfold mbind at 1 2, M_bind, modify. fold s1.
    by rewrite (startReadingPhase_run s1 Hone). }
  split_and!; try reflexivity.
  - simpl. unfold readingPlayers. by rewrite !obj_keys_forEach.
  - intros k q Hk. simpl. unfold readingPlayers.
    by rewrite !obj_get_forEach, Hk.
Qed.

Lemma hostStartGame_from_any_phase_witness :
  ∃ s', hostStartGame "h" whileAnswering = Some ((), s', [gameUpdate (gameState s')]) ∧
    state (gameState s') = READING ∧
    currentQuestionIndex (gameState s') = 0 ∧
    timer (gameState s') = 5 ∧
    playerFirstAnswers s' = ∅ ∧
    intervals s' = {[2%nat := endReading]} ∧
    (players (gameState s')).*1 = ["h"; "a"; "b"] ∧
    ∀ k q, obj_get k (players (gameState whileAnswering)) = Some q →
      obj_get k (players (gameState s')) = Some (cleared_for_game q).
Proof.
  apply (hostStartGame_from_any_phase whileAnswering "h" (joined "h" "Host" true None)).
  - intros h cb Hh. unfold whileAnswering in Hh. cbn [intervals] in Hh.
    apply lookup_singleton_Some in Hh as [<- _]. reflexivity.
  - reflexivity.
  - reflexivity.
Defined.

(** C4, as stated, fails: a host's [hostStartGame] on the leaderboard is
    not ignored; it zeroes the scores and enters the reading phase. *)
Lemma hostStartGame_on_leaderboard_restarts :
  state (gameState onLeaderboard) = LEADERBOARD ∧
  ∃ s' out p',
    hostStartGame "h" onLeaderboard = Some ((), s', out) ∧
    state (gameState s') = READING ∧
    obj_get "a" (players (gameState onLeaderboard)) =
      Some (answered "a" 20 20 (Some 0) false (Some 1700000000100)) ∧
    obj_get "a" (players (gameState s')) = Some p' ∧ score p' = 0 ∧
    hostStartGame "h" onLeaderboard ≠ Some ((), onLeaderboard, []).
Proof.
  split; [reflexivity|]. do 3 eexists.
  split_and!; [vm_compute; reflexivity..|].
  intros H.
  apply (f_equal (λ r, match r with
                       | Some (_, s, _) => state (gameState s)
                       | None => LOBBY
                       end)) in H.
  vm_compute in H. discriminate H.
Qed.

(** C5 (amended): [hostNextQuestion] has no phase check.  Issued by a host
    in any phase: when the question index is below the last index of the
    bank, the index goes up by one and the reading phase is entered; else
    the phase becomes FINAL_RESULTS, nothing else changes, and the state is
    broadcast. *)
Theorem hostNextQuestion_from_any_phase (s : Server) (sid : string) (p : Player) :
  one_timer s →
  obj_get sid (players (gameState s)) = Some p →
  isHost p = true →
  (currentQuestionIndex (gameState s) < lastIndex →
   ∃ s', hostNextQuestion sid s = Some ((), s', [gameUpdate (gameState s')]) ∧
     state (gameState s') = READING ∧
     currentQuestionIndex (gameState s') = currentQuestionIndex (gameState s) + 1 ∧
     timer (gameState s') = 5 ∧
     playerFirstAnswers s' = ∅ ∧
     intervals s' = {[nextHandle s := endReading]} ∧
     (players (gameState s')).*1 = (players (gameState s)).*1 ∧
     ∀ k q, obj_get k (players (gameState s)) = Some q →
       obj_get k (players (gameState s')) = Some (cleared_for_question q)) ∧
  (lastIndex ≤ currentQuestionIndex (gameState s) →
   ∃ s', hostNextQuestion sid s = Some ((), s', [gameUpdate (gameState s')]) ∧
     state (gameState s') = FINAL_RESULTS ∧
     currentQuestionIndex (gameState s') = currentQuestionIndex (gameState s) ∧
     players (gameState s') = players (gameState s) ∧
     timer (gameState s') = timer (gameState s) ∧
     questions (gameState s') = questions (gameState s) ∧
     playerFirstAnswers s' = playerFirstAnswers s ∧
     timerInterval s' = timerInterval s ∧
     intervals s' = intervals s ∧
     nextHandle s' = nextHandle s).
Proof.
  intros Hone Hp Hhost. unfold lastIndex. split; intros Hidx.
  - set (s1 := set_gameState (λ g,
        set_currentQuestionIndex (currentQuestionIndex g + 1) g) s).
    exists (readingState s1). split.
    { unfold hostNextQuestion, get. unfold mbind at 1, M_bind. cbn beta iota.
      rewrite Hp. unfold notHost. rewrite Hhost. cbn [negb].
      rewrite decide_True by done.
      unfold mbind at 1, M_bind, modify. fold s1.
      by rewrite (startReadingPhase_run s1 Hone). }
    split_and!; try reflexivity.
    + apply obj_keys_forEach.
    + intros k q Hk. simpl. unfold readingPlayers.
      by rewrite obj_get_forEach, Hk.
  - exists (set_gameState (set_state FINAL_RESULTS) s). split; [|done].
    unfold hostNextQuestion, get. unfold mbind at 1, M_bind. cbn beta iota.
    rewrite Hp. unfold notHost. rewrite Hhost. cbn [negb].
    rewrite decide_False by lia. reflexivity.
Qed.

Lemma hostNextQuestion_from_any_phase_witness :
  ∃ s', hostNextQuestion "h" whileAnswering = Some ((), s', [gameUpdate (gameState s')]) ∧
    state (gameState s') = READING ∧
    currentQuestionIndex (gameState s') = 1 ∧
    timer (gameState s') = 5 ∧
    playerFirstAnswers s' = ∅ ∧
    intervals s' = {[2%nat := endReading]} ∧
    (players (gameState s')).*1 = ["h"; "a"; "b"] ∧
    ∀ k q, obj_get k (players (gameState whileAnswering)) = Some q →
      obj_get k (players (gameState s')) = Some (cleared_for_question q).
Proof.
  refine (proj1 (hostNextQuestion_from_any_phase whileAnswering "h"
                   (joined "h" "Host" true None) _ _ _) _).
  - intros h cb Hh. unfold whileAnswering in Hh. cbn [intervals] in Hh.
    apply lookup_singleton_Some in Hh as [<- _]. reflexivity.
  - reflexivity.
  - reflexivity.
  - reflexivity.
Defined.

(** C5, as stated, fails: a host's [hostNextQuestion] during the answering
    phase is not ignored; it moves to the next question's reading phase. *)
Lemma hostNextQuestion_while_answering_advances :
  state (gameState whileAnswering) = QUESTION ∧
  currentQuestionIndex (gameState whileAnswering) = 0 ∧
  ∃ s' out,
    hostNextQuestion "h" whileAnswering = Some ((), s', out) ∧
    state (gameState s') = READING ∧
    currentQuestionIndex (gameState s') = 1 ∧
    hostNextQuestion "h" whileAnswering ≠ Some ((), whileAnswering, []).
Proof.
  split; [reflexivity|]. split; [reflexivity|]. do 2 eexists.
  split_and!; [vm_compute; reflexivity..|].
  intros H.
  apply (f_equal (λ r, match r with
                       | Some (_, s, _) => state (gameState s)
                       | None => LOBBY
                       end)) in H.
  vm_compute in H. discriminate H.
Qed.

(** The phase rule of the start and advance commands lives in the client:
    its controls offer start in the lobby only and advance on the
    leaderboard only. *)
Lemma HostControls_phases (g : GameData) :
  (cmd_hostStartGame ∈ HostControls g ↔ state g = LOBBY) ∧
  (cmd_hostNextQuestion ∈ HostControls g ↔ state g = LEADERBOARD) ∧
  (cmd_hostResetGame ∈ HostControls g ↔
     state g = FINAL_RESULTS ∨ state g = LEADERBOARD).
Proof.
  unfold HostControls. rewrite !elem_of_app.
  repeat case_decide; rewrite ?elem_of_cons, ?elem_of_nil; intuition congruence.
Qed.

(** ** Answers *)

Lemma submitAnswer_skip (s : Server) (sid : string) (answerIndex now : Z) :
  state (gameState s) ≠ QUESTION ∨ obj_get sid (players (gameState s)) = None →
  submitAnswer sid answerIndex now s = Some ((), s, []).
Proof.
  intros Hskip. exec.
  destruct (obj_get sid (players (gameState s))) as [p|] eqn:Hp; [|done].
  destruct Hskip as [Hphase|]; [|done]. by rewrite decide_True.
Qed.

Lemma submitAnswer_run (s : Server) (sid : string) (answerIndex now : Z) :
  state (gameState s) = QUESTION →
  is_Some (obj_get sid (players (gameState s))) →
  submitAnswer sid answerIndex now s =
    Some ((), answerRecorded sid answerIndex now s,
          [gameUpdate (gameState (answerRecorded sid answerIndex now s))]).
Proof.
  intros Hphase [p Hp]. exec. rewrite Hp.
  rewrite decide_False by (by intros []). unfold answerRecorded.
  by destruct (playerFirstAnswers s !! sid).
Qed.

(** The caller's record after an accepted [submitAnswer]. *)
Lemma answerRecorded_caller (s : Server) (sid : string) (answerIndex now : Z)
    (p : Player) :
  obj_get sid (players (gameState s)) = Some p →
  obj_get sid (players (gameState (answerRecorded sid answerIndex now s)))
  = Some (mkPlayer (id p) (name p) (avatar p) (score p) (lastScoreChange p)
            (Some answerIndex)
            (if playerFirstAnswers s !! sid is Some _ then true else hasChangedAnswer p)
            (Some now) (isHost p)).
Proof.
  intros Hp. unfold answerRecorded. simpl.
  destruct (playerFirstAnswers s !! sid);
    rewrite !obj_get_alter, !decide_True, Hp by done; done.
Qed.

Lemma answerRecorded_others (s : Server) (sid k : string) (answerIndex now : Z) :
  k ≠ sid →
  obj_get k (players (gameState (answerRecorded sid answerIndex now s)))
  = obj_get k (players (gameState s)).
Proof.
  intros Hk. unfold answerRecorded. simpl.
  destruct (playerFirstAnswers s !! sid);
    by rewrite !obj_get_alter, !decide_False.
Qed.

Lemma answerRecorded_first (s : Server) (sid : string) (answerIndex now : Z) :
  playerFirstAnswers (answerRecorded sid answerIndex now s)
  = match playerFirstAnswers s !! sid with
    | None => <[sid := answerIndex]> (playerFirstAnswers s)
    | Some _ => playerFirstAnswers s
    end.
Proof. reflexivity. Qed.

Lemma answerRecorded_keys (s : Server) (sid : string) (answerIndex now : Z) :
  (players (gameState (answerRecorded sid answerIndex now s))).*1
  = (players (gameState s)).*1.
Proof.
  unfold answerRecorded. simpl.
  destruct (playerFirstAnswers s !! sid); by rewrite !obj_keys_alter.
Qed.

(** C7: [submitAnswer] returns the state as it was and sends nothing when
    the phase is not the answering phase or the caller has no participant
    record.  Otherwise it sets the caller's current answer to the given
    index and the answer time to the current time; when no first answer is
    recorded for the caller it records the index as first answer and leaves
    the changed flag, and when one is recorded it keeps it and sets the
    changed flag.  The other participants and the rest of the state are
    untouched, and the new state is broadcast. *)
Theorem submitAnswer_spec (s : Server) (sid : string) (answerIndex now : Z) :
  (state (gameState s) ≠ QUESTION ∨ obj_get sid (players (gameState s)) = None →
   submitAnswer sid answerIndex now s = Some ((), s, [])) ∧
  (∀ p, state (gameState s) = QUESTION →
     obj_get sid (players (gameState s)) = Some p →
     ∃ s' p', submitAnswer sid answerIndex now s
                = Some ((), s', [gameUpdate (gameState s')]) ∧
       obj_get sid (players (gameState s')) = Some p' ∧
       currentAnswer p' = Some answerIndex ∧
       answerTime p' = Some now ∧
       (playerFirstAnswers s !! sid = None →
          playerFirstAnswers s' = <[sid := answerIndex]> (playerFirstAnswers s) ∧
          hasChangedAnswer p' = hasChangedAnswer p) ∧
       (∀ a, playerFirstAnswers s !! sid = Some a →
          playerFirstAnswers s' = playerFirstAnswers s ∧
          hasChangedAnswer p' = true) ∧
       (id p', name p', avatar p', score p', lastScoreChange p', isHost p')
         = (id p, name p, avatar p, score p, lastScoreChange p, isHost p) ∧
       (∀ k, k ≠ sid →
          obj_get k (players (gameState s')) = obj_get k (players (gameState s))) ∧
       (players (gameState s')).*1 = (players (gameState s)).*1 ∧
       (state (gameState s'), currentQuestionIndex (gameState s'),
        questions (gameState s'), timer (gameState s'))
         = (state (gameState s), currentQuestionIndex (gameState s),
            questions (gameState s), timer (gameState s)) ∧
       (timerInterval s', intervals s', nextHandle s')
         = (timerInterval s, intervals s, nextHandle s)).
Proof.
  split; [apply submitAnswer_skip|].
  intros p Hphase Hp. eexists _, _.
  split; [by apply submitAnswer_run|].
  split; [by apply answerRecorded_caller|].
  split_and!; try reflexivity.
  - intros Hnone. by rewrite answerRecorded_first, Hnone.
  - intros a Hsome. by rewrite answerRecorded_first, Hsome.
  - intros k Hk. by apply answerRecorded_others.
  - apply answerRecorded_keys.
Qed.

Lemma submitAnswer_spec_witness :
  submitAnswer "a" 2 1700000000300 onLeaderboard = Some ((), onLeaderboard, []) ∧
  ∃ s' p', submitAnswer "a" 2 1700000000300 whileAnswering
             = Some ((), s', [gameUpdate (gameState s')]) ∧
    obj_get "a" (players (gameState s')) = Some p' ∧
    currentAnswer p' = Some 2 ∧
    answerTime p' = Some 1700000000300 ∧
    playerFirstAnswers s' = playerFirstAnswers whileAnswering ∧
    hasChangedAnswer p' = true.
Proof.
  split.
  - apply (proj1 (submitAnswer_spec onLeaderboard "a" 2 1700000000300)).
    left. discriminate.
  - destruct (proj2 (submitAnswer_spec whileAnswering "a" 2 1700000000300)
                (answered "a" 0 0 (Some 0) false (Some 1700000000100))
                eq_refl eq_refl)
      as (s' & p' & Hrun & Hget & Hans & Htime & _ & Hsecond & _).
    destruct (Hsecond 0 eq_refl) as [Hfirst Hflag].
    exists s', p'. repeat split; assumption.
Defined.

(** C10: [join] stores a new record under the caller's id (score 0, last
    delta 0, no answer, changed flag false, no answer time) and leaves the
    first-answer scratch table as it was; when the table holds a first
    answer for the caller, the caller's next [submitAnswer] in the answering
    phase keeps that entry and sets the changed flag. *)
Theorem join_keeps_first_answer (s : Server) (sid name : string) (isHost : bool)
    (avatar : option string) :
  ∃ s', join sid name isHost avatar s = Some ((), s', [gameUpdate (gameState s')]) ∧
    obj_get sid (players (gameState s'))
      = Some (mkPlayer sid name avatar 0 0 None false None isHost) ∧
    playerFirstAnswers s' = playerFirstAnswers s ∧
    (∀ k, k ≠ sid →
       obj_get k (players (gameState s')) = obj_get k (players (gameState s))) ∧
    ∀ first answerIndex now,
      state (gameState s) = QUESTION →
      playerFirstAnswers s !! sid = Some first →
      ∃ s'' p'', submitAnswer sid answerIndex now s'
                   = Some ((), s'', [gameUpdate (gameState s'')]) ∧
        obj_get sid (players (gameState s'')) = Some p'' ∧
        hasChangedAnswer p'' = true ∧
        currentAnswer p'' = Some answerIndex ∧
        playerFirstAnswers s'' !! sid = Some first.
Proof.
  set (s' := set_gameState (λ g, set_players
     (obj_set sid (mkPlayer sid name avatar 0 0 None false None isHost)
        (players g)) g) s).
  assert (obj_get sid (players (gameState s'))
          = Some (mkPlayer sid name avatar 0 0 None false None isHost)) as Hnew.
  { simpl. by rewrite obj_get_set, decide_True. }
  exists s'. split; [reflexivity|]. split_and!; try done.
  - intros k Hk. simpl. by rewrite obj_get_set, decide_False.
  - intros first answerIndex now Hphase Hfirst. eexists _, _.
    split; [by apply submitAnswer_run|].
    split; [by apply answerRecorded_caller|].
    rewrite answerRecorded_first.
    change (playerFirstAnswers s') with (playerFirstAnswers s).
    by rewrite Hfirst.
Qed.

Lemma join_keeps_first_answer_witness :
  ∃ s', join "a" "again" false None whileAnswering
          = Some ((), s', [gameUpdate (gameState s')]) ∧
    obj_get "a" (players (gameState s'))
      = Some (mkPlayer "a" "again" None 0 0 None false None false) ∧
    playerFirstAnswers s' !! "a" = Some 0 ∧
    ∃ s'' p'', submitAnswer "a" 0 1700000000400 s'
                 = Some ((), s'', [gameUpdate (gameState s'')]) ∧
      obj_get "a" (players (gameState s'')) = Some p'' ∧
      hasChangedAnswer p'' = true.
Proof.
  destruct (join_keeps_first_answer whileAnswering "a" "again" false None)
    as (s' & Hrun & Hget & Hfirst & _ & Hnext).
  destruct (Hnext 0 0 1700000000400 eq_refl eq_refl)
    as (s'' & p'' & Hrun' & Hget' & Hflag & _).
  exists s'. split_and!; [assumption..| by rewrite Hfirst |].
  exists s'', p''. split_and!; assumption.
Defined.
(** ** The scoring pass *)

(** The loop of [calculateScores] as a function. *)
Lemma scoreLoop_run (q : Question) (l : list (string * Player)) (c : Z) (s : Server) :
  scoreLoop (Some q) c l s =
    Some ((),
          set_gameState
            (set_players
               (loopPlayers q (playerFirstAnswers s) (timer (gameState s)) c l
                  (players (gameState s)))) s,
          loopEmits q (playerFirstAnswers s) (timer (gameState s)) c l).
Proof.
  revert c s. induction l as [|e l IH]; intros c s.
  - destruct s as [[]]; reflexivity.
  - cbn [scoreLoop loopPlayers loopEmits].
    unfold mbind at 1, M_bind. unfold scorePlayer, get, modify, emit.
    unfold mbind at 1, M_bind. cbn beta iota.
    destruct (award q (playerFirstAnswers s) (timer (gameState s)) c e.2)
      as [[pts reason] c'] eqn:Haward.
    unfold mbind, mret, M_bind, M_ret. cbn beta iota. 
    rewrite IH. destruct s as [[]]; reflexivity.
Qed.

Section Award.
Context (q : Question) (fa : gmap string Z) (t : Z).
Implicit Types (c : Z) (p : Player) (l ps : list (string * Player)).

Lemma award_tiered c p :
  qualifies q fa p →
  award q fa t c p =
    if decide (c < 5) then (20, reason_first5, c + 1)
    else (10, reason_unchanged, c + 1).
Proof.
  intros (Hans & Hch & Hfirst). unfold award.
  rewrite Hans, Hch, Hfirst, !bool_decide_eq_true_2 by done. done.
Qed.

Lemma award_changed c p :
  currentAnswer p = Some (correctAnswer q) →
  hasChangedAnswer p = true →
  award q fa t c p =
    if decide (t ≤ 3) then (5, reason_changed_late, c)
    else (10, reason_changed, c).
Proof.
  intros Hans Hch. unfold award.
  rewrite Hans, Hch, bool_decide_eq_true_2 by done. done.
Qed.

Lemma award_count c p :
  (award q fa t c p).2 = if decide (qualifies q fa p) then c + 1 else c.
Proof.
  destruct (decide (qualifies q fa p)) as [Hq|Hq].
  - rewrite award_tiered by done. by case_decide.
  - unfold award. unfold qualifies in Hq.
    destruct (hasChangedAnswer p); repeat case_bool_decide; simpl;
      repeat case_decide; simpl; try done; naive_solver.
Qed.

Lemma loopPlayers_keys c l ps : (loopPlayers q fa t c l ps).*1 = ps.*1.
Proof.
  revert c ps. induction l as [|e l IH]; intros c ps; simpl; [done|].
  by rewrite IH, obj_keys_alter.
Qed.

Lemma loopPlayers_other c l ps k :
  k ∉ l.*1 → obj_get k (loopPlayers q fa t c l ps) = obj_get k ps.
Proof.
  revert c ps. induction l as [|e l IH]; intros c ps Hk; simpl; [done|].
  apply not_elem_of_cons in Hk as [Hne Hk].
  rewrite IH by done. rewrite obj_get_alter. by rewrite decide_False.
Qed.

Lemma loopPlayers_app c l1 l2 ps :
  loopPlayers q fa t c (l1 ++ l2) ps =
    loopPlayers q fa t (c + tiered q fa l1) l2 (loopPlayers q fa t c l1 ps).
Proof.
  revert c ps. induction l1 as [|e l1 IH]; intros c ps; simpl.
  - unfold tiered. simpl. by rewrite Z.add_0_r.
  - rewrite IH. f_equal. rewrite award_count. unfold tiered.
    rewrite filter_cons. case_decide; simpl length; lia.
Qed.

(** The player object under [k], scored once at its turn. *)
Lemma loopPlayers_turn c l1 l2 ps k p :
  k ∉ l1.*1 → k ∉ l2.*1 →
  obj_get k (loopPlayers q fa t c (l1 ++ (k, p) :: l2) ps) =
    credit (award q fa t (c + tiered q fa l1) p).1.1 <$> obj_get k ps.
Proof.
  intros H1 H2. rewrite loopPlayers_app. simpl.
  rewrite loopPlayers_other by done.
  rewrite obj_get_alter, decide_True by done.
  by rewrite loopPlayers_other.
Qed.

Lemma loopEmits_app c l1 l2 :
  loopEmits q fa t c (l1 ++ l2) =
    loopEmits q fa t c l1 ++ loopEmits q fa t (c + tiered q fa l1) l2.
Proof.
  revert c. induction l1 as [|e l1 IH]; intros c; simpl.
  - unfold tiered. simpl. by rewrite Z.add_0_r.
  - rewrite IH. do 3 f_equal. rewrite award_count. unfold tiered.
    rewrite filter_cons. case_decide; simpl length; lia.
Qed.
End Award.

(** ** The sort *)

Section SortFacts.
Context {A : Type} (compareFn : A → A → comparison).
Local Open Scope nat_scope.

Lemma sort_insert_perm x l : sort_insert compareFn x l ≡ₚ x :: l.
Proof.
  induction l as [|y l IH]; simpl; [done|].
  destruct (compareFn x y); try done.
  rewrite IH. apply Permutation_swap.
Qed.

Lemma Array_sort_perm l : Array_sort compareFn l ≡ₚ l.
Proof.
  induction l as [|x l IH]; simpl; [done|].
  by rewrite sort_insert_perm, IH.
Qed.

(** Sorting decorated elements by their payload sorts the payloads. *)
Lemma sort_insert_fmap {B} (f : B → A) x l :
  f <$> sort_insert (λ a b, compareFn (f a) (f b)) x l
  = sort_insert compareFn (f x) (f <$> l).
Proof.
  induction l as [|y l IH]; csimpl; [done|].
  destruct (compareFn (f x) (f y)); csimpl; by rewrite ?IH.
Qed.

Lemma Array_sort_fmap {B} (f : B → A) l :
  f <$> Array_sort (λ a b, compareFn (f a) (f b)) l
  = Array_sort compareFn (f <$> l).
Proof.
  induction l as [|x l IH]; csimpl; [done|].
  by rewrite sort_insert_fmap, IH.
Qed.

End SortFacts.

Section SortStable.
Context {A : Type} (compareFn : A → A → comparison).
Local Open Scope nat_scope.

(** The comparator is consistent: a total preorder. *)
Hypothesis compareFn_opp : ∀ x y, compareFn x y = CompOpp (compareFn y x).
Hypothesis compareFn_trans :
  ∀ x y z, compareFn x y ≠ Gt → compareFn y z ≠ Gt → compareFn x z ≠ Gt.

Lemma goes_before_irrefl a : ¬ goes_before compareFn a a.
Proof.
  intros [H|[_ H]]; [|lia].
  pose proof (compareFn_opp a.2 a.2) as Ho. rewrite H in Ho. done.
Qed.

Lemma goes_before_asym a b : goes_before compareFn a b → ¬ goes_before compareFn b a.
Proof.
  intros [H|[H Hi]] [H'|[H' Hi']];
    pose proof (compareFn_opp a.2 b.2) as Ho; rewrite H, H' in Ho;
    try done; lia.
Qed.

Lemma sort_insert_sorted x l :
  StronglySorted (goes_before compareFn) l →
  Forall (λ y, x.1 < y.1) l →
  StronglySorted (goes_before compareFn) (sort_insert (λ a b, compareFn a.2 b.2) x l).
Proof.
  induction 1 as [|y l Hl IH Hy]; intros Hx; simpl.
  - repeat constructor.
  - apply Forall_cons in Hx as [Hxy Hx].
    assert (compareFn x.2 y.2 ≠ Gt →
            StronglySorted (goes_before compareFn) (x :: y :: l)) as Hfront.
    { intros Hle. constructor; [by constructor|].
      assert (∀ z, x.1 < z.1 → compareFn x.2 z.2 ≠ Gt → goes_before compareFn x z) as Hb.
      { intros z Hi Hz. unfold goes_before.
        destruct (compareFn x.2 z.2); [right|left|]; done. }
      constructor; [by apply Hb|].
      rewrite Forall_forall in Hx, Hy |- *. intros z Hz.
      apply Hb; [by apply Hx|].
      apply (compareFn_trans _ y.2); [done|].
      destruct (Hy z Hz) as [->|[-> _]]; done. }
    destruct (compareFn x.2 y.2) eqn:Hc; [by apply Hfront..|].
    constructor; [by apply IH|].
    rewrite sort_insert_perm. constructor; [|done].
    left. by rewrite compareFn_opp, Hc.
Qed.

(** The sort is stable: ties keep the order of the input. *)
Lemma Array_sort_stable (l : list (nat * A)) :
  StronglySorted (λ a b, a.1 < b.1) l →
  StronglySorted (goes_before compareFn) (Array_sort (λ a b, compareFn a.2 b.2) l).
Proof.
  induction 1 as [|x l Hl IH Hx]; simpl; [constructor|].
  apply sort_insert_sorted; [done|]. by rewrite Array_sort_perm.
Qed.

(** In a stably sorted list, what goes before an element is what stands
    in front of it. *)
Lemma sorted_front (P : nat * A → Prop) `{!∀ x, Decision (P x)} l1 e l2 :
  StronglySorted (goes_before compareFn) (l1 ++ e :: l2) →
  filter (λ x, P x ∧ goes_before compareFn x e) (l1 ++ e :: l2) = filter P l1.
Proof.
  intros Hs. apply StronglySorted_app in Hs as (H12 & _ & H2).
  apply StronglySorted_cons in H2 as [He _].
  rewrite filter_app, filter_cons_False by (intros [_ ?%goes_before_irrefl]; done).
  assert (filter (λ x, P x ∧ goes_before compareFn x e) l2 = []) as ->.
  { rewrite Forall_forall in He. clear H12.
    induction l2 as [|z l2 IH]; [done|].
    rewrite filter_cons_False, IH; [done| |].
    - intros y Hy. apply He. by right.
    - intros [_ Hb]. eapply goes_before_asym; [|exact Hb]. apply He. by left. }
  rewrite app_nil_r.
  induction l1 as [|z l1 IH]; [done|].
  rewrite !filter_cons. 
  assert (goes_before compareFn z e) by (apply H12; by left).
  rewrite IH by (intros x1 x2 Hx1 Hx2; apply H12; [by right|done]).
  destruct (decide (P z)) as [Hz|Hz];
    [rewrite decide_True by done|rewrite decide_False by (by intros [? _])];
    done.
Qed.
End SortStable.

Section Indexed.
Context {A : Type}.
Implicit Types (l : list A).

Lemma indexedFrom_lookup n l i :
  indexedFrom n l !! i = (λ x, ((n + i)%nat, x)) <$> l !! i.
Proof.
  revert n i. induction l as [|x l IH]; intros n [|i]; simpl; try done.
  - by rewrite Nat.add_0_r.
  - rewrite IH. by replace (S n + i)%nat with (n + S i)%nat by lia.
Qed.

Lemma elem_of_indexed l i x : (i, x) ∈ indexed l ↔ l !! i = Some x.
Proof.
  unfold indexed. rewrite list_elem_of_lookup. split.
  - intros [j Hj]. rewrite indexedFrom_lookup in Hj.
    destruct (l !! j) eqn:E; simplify_eq/=. done.
  - intros Hi. exists i. by rewrite indexedFrom_lookup, Hi.
Qed.

Lemma indexedFrom_snd n l : (indexedFrom n l).*2 = l.
Proof. revert n. induction l as [|x l IH]; intros n; csimpl; by rewrite ?IH. Qed.

Lemma indexedFrom_sorted n l :
  StronglySorted (λ a b : nat * A, (a.1 < b.1)%nat) (indexedFrom n l).
Proof.
  revert n. induction l as [|x l IH]; intros n; simpl; constructor; [done|].
  apply Forall_forall. intros [j y] [i Hi]%list_elem_of_lookup.
  rewrite indexedFrom_lookup in Hi. destruct (l !! i); simplify_eq/=. lia.
Qed.

Lemma filter_snd (P : A → Prop) (HP : ∀ x, Decision (P x)) (dl : list (nat * A)) :
  (filter (λ e, P e.2) dl).*2 = filter P (dl.*2).
Proof.
  induction dl as [|[j x] dl IH]; [done|]. csimpl.
  rewrite !filter_cons. simpl. case_decide; csimpl; by rewrite IH.
Qed.

Lemma StronglySorted_filter (R : relation A) (P : A → Prop)
    `{!∀ x, Decision (P x)} l :
  StronglySorted R l → StronglySorted R (filter P l).
Proof.
  induction 1 as [|x l Hl IH Hx]; [constructor|].
  rewrite filter_cons. case_decide; [|done].
  constructor; [done|]. rewrite Forall_forall in Hx |- *.
  intros y [_ Hy]%list_elem_of_filter. by apply Hx.
Qed.
End Indexed.

(** *** The comparator of the scoring pass *)

(** A time other than 0 is read as it is; 0 and a missing time read as
    [Infinity]. *)
Lemma or_Infinity_nonzero (z : Z) : z ≠ 0 → or_Infinity (Some z) = Fin z.
Proof. intros Hz. unfold or_Infinity. by rewrite decide_False. Qed.

Lemma byAnswerTime_opp (a b : Player) :
  byAnswerTime a b = CompOpp (byAnswerTime b a).
Proof.
  unfold byAnswerTime, sub_sign.
  destruct (or_Infinity (answerTime a)), (or_Infinity (answerTime b)); try done.
  apply Z.compare_antisym.
Qed.

Lemma byAnswerTime_trans (a b c : Player) :
  byAnswerTime a b ≠ Gt → byAnswerTime b c ≠ Gt → byAnswerTime a c ≠ Gt.
Proof.
  unfold byAnswerTime, sub_sign.
  destruct (or_Infinity (answerTime a)), (or_Infinity (answerTime b)),
    (or_Infinity (answerTime c)); try done.
  rewrite !Z.compare_gt_iff. lia.
Qed.

Lemma goes_before_answeredBefore (i j : nat) (e e' : string * Player) :
  answerTime e.2 ≠ Some 0 → answerTime e'.2 ≠ Some 0 →
  goes_before entryOrder (i, e) (j, e')
  ↔ answeredBefore (i, e.2) (j, e'.2).
Proof.
  intros Ha Hb. unfold goes_before, entryOrder, answeredBefore, byAnswerTime, sub_sign, or_Infinity.
  simpl.
  destruct (answerTime e.2) as [x|], (answerTime e'.2) as [y|]; simpl;
    repeat case_decide; simplify_eq; simpl;
    rewrite ?Z.compare_lt_iff, ?Z.compare_eq_iff;
    intuition (try (congruence || lia)).
Qed.

Lemma scoringOrder_keys (g : GameData) :
  NoDup (players g).*1 → NoDup (scoringOrder g).*1.
Proof.
  intros Hnd. unfold scoringOrder. rewrite Array_sort_perm.
  eapply sublist_NoDup; [exact Hnd|]. apply fmap_sublist, sublist_filter.
Qed.

(** The turn of a non-host participant in the scoring pass: it is scored
    once, after the non-host participants that go before it. *)
Lemma scoringOrder_turn (g : GameData) (i : nat) (k : string) (p : Player) :
  NoDup (players g).*1 →
  players g !! i = Some (k, p) →
  isHost p = false →
  ∃ l1 l2, scoringOrder g = l1 ++ (k, p) :: l2 ∧ (k ∉ l1.*1) ∧ (k ∉ l2.*1) ∧
    ∀ (P : string * Player → Prop) (HP : ∀ x, Decision (P x)),
      length (filter P l1) =
      length (filter (λ je, (P je.2 ∧ goes_before entryOrder je (i, (k, p))) ∧
                            isHost je.2.2 = false)
                (indexed (players g))).
Proof.
  intros Hnd Hi Hhost.
  set (nh := filter (λ je : nat * (string * Player), isHost je.2.2 = false)
               (indexed (players g))).
  set (DL := Array_sort (λ a b : nat * (string * Player), entryOrder a.2 b.2) nh).
  assert (scoringOrder g = DL.*2) as HL.
  { unfold DL, nh, scoringOrder, indexed.
    rewrite (Array_sort_fmap entryOrder snd). f_equal.
    rewrite <- (indexedFrom_snd 0 (players g)) at 1.
    symmetry.
    exact (filter_snd (λ e : string * Player, isHost e.2 = false)
             (λ e, decide_rel (=) (isHost e.2) false) (indexedFrom 0 (players g))). }
  assert ((i, (k, p)) ∈ DL) as Hin.
  { unfold DL. rewrite Array_sort_perm. apply list_elem_of_filter.
    split; [done|]. by apply elem_of_indexed. }
  apply list_elem_of_split in Hin as (d1 & d2 & Hsplit).
  assert (StronglySorted (goes_before entryOrder) DL) as Hsorted.
  { apply Array_sort_stable.
    - intros x y. apply byAnswerTime_opp.
    - intros x y z. apply byAnswerTime_trans.
    - apply StronglySorted_filter, indexedFrom_sorted. }
  pose proof (scoringOrder_keys g Hnd) as HndL.
  rewrite HL, Hsplit, !fmap_app, !fmap_cons in HndL. simpl in HndL.
  apply NoDup_app in HndL as (_ & Hk1 & Hk2).
  apply NoDup_cons in Hk2 as [Hk2 _].
  exists (d1.*2), (d2.*2). split_and!.
  - by rewrite HL, Hsplit, fmap_app.
  - intros Hk. apply (Hk1 k); [done|]. by left.
  - done.
  - intros P HP.
    etrans; [symmetry; apply (f_equal length (filter_snd P HP d1))|].
    rewrite length_fmap.
    rewrite <- (sorted_front entryOrder (λ x y, byAnswerTime_opp x.2 y.2)
                 (λ x : nat * _, P x.2) d1 (i, (k, p)) d2)
      by (by rewrite <- Hsplit).
    rewrite <- Hsplit. unfold DL. rewrite Array_sort_perm. unfold nh.
    by rewrite list_filter_filter.
Qed.

(** *** One pass of [calculateScores] *)

Lemma calculateScores_run (s : Server) (q : Question) :
  question_at (currentQuestionIndex (gameState s)) = Some q →
  calculateScores s =
    Some ((),
          set_gameState
            (set_players
               (loopPlayers q (playerFirstAnswers s) (timer (gameState s)) 0
                  (scoringOrder (gameState s)) (players (gameState s)))) s,
          loopEmits q (playerFirstAnswers s) (timer (gameState s)) 0
            (scoringOrder (gameState s))).
Proof.
  intros Hq. unfold calculateScores, get. unfold mbind at 1, M_bind.
  cbn beta iota. rewrite Hq, scoreLoop_run. done.
Qed.

Lemma obj_get_lookup {V} (o : list (string * V)) k v :
  obj_get k o = Some v → ∃ i, o !! i = Some (k, v).
Proof.
  induction o as [|[k0 v0] o IH]; simpl; [done|].
  case_decide; simplify_eq.
  - intros [= ->]. by exists 0%nat.
  - intros [i Hi]%IH. by exists (S i).
Qed.

Lemma obj_get_elem_of {V} (o : list (string * V)) k v :
  NoDup o.*1 → (k, v) ∈ o → obj_get k o = Some v.
Proof.
  induction o as [|[k0 v0] o IH]; csimpl; [by intros _ ?%not_elem_of_nil|].
  intros [Hk0 Hnd]%NoDup_cons [[= -> ->]|Hin]%elem_of_cons.
  - by rewrite decide_True.
  - rewrite decide_False; [by apply IH|].
    intros ->. apply Hk0. apply list_elem_of_fmap. by exists (k, v).
Qed.

(** The turn of the non-host participant at position [i]: the count that
    its award reads, its record afterwards, and its feedback event. *)
Lemma calculateScores_turn (s : Server) (q : Question) (i : nat) (k : string)
    (p : Player) :
  distinct_keys s →
  players (gameState s) !! i = Some (k, p) →
  isHost p = false →
  let g := gameState s in
  let fa := playerFirstAnswers s in
  ∃ l1 l2 c,
    scoringOrder g = l1 ++ (k, p) :: l2 ∧ (k ∉ l1.*1) ∧ (k ∉ l2.*1) ∧
    c = Z.of_nat (length (filter (λ je : nat * (string * Player),
                            (qualifies q fa je.2.2 ∧
                             goes_before entryOrder je (i, (k, p))) ∧
                            isHost je.2.2 = false) (indexed (players g)))) ∧
    obj_get k (loopPlayers q fa (timer g) 0 (scoringOrder g) (players g))
      = Some (credit (award q fa (timer g) c p).1.1 p) ∧
    loopEmits q fa (timer g) 0 (scoringOrder g)
      = loopEmits q fa (timer g) 0 l1
        ++ answerFeedback (id p)
             (bool_decide (currentAnswer p = Some (correctAnswer q)))
             (award q fa (timer g) c p).1.1 (award q fa (timer g) c p).1.2
           :: loopEmits q fa (timer g) (award q fa (timer g) c p).2 l2.
Proof.
  intros Hnd Hi Hhost g fa.
  destruct (scoringOrder_turn g i k p Hnd Hi Hhost)
    as (l1 & l2 & Hsplit & Hk1 & Hk2 & Hcount).
  exists l1, l2, (tiered q fa l1). split_and!; try done.
  - unfold tiered. f_equal.
    apply (Hcount (λ e, qualifies q fa e.2) (λ e, qualifies_dec q fa e.2)).
  - rewrite Hsplit, loopPlayers_turn by done. simpl.
    erewrite obj_get_elem_of; [done|exact Hnd|].
    apply list_elem_of_lookup. by exists i.
  - rewrite Hsplit, loopEmits_app. simpl. by rewrite Z.add_0_l.
Qed.

(** The award of a non-host participant in one pass, for the count [c]
    that its turn reads. *)
Lemma calculateScores_award (s : Server) (q : Question) (k : string) (p : Player) :
  distinct_keys s →
  question_at (currentQuestionIndex (gameState s)) = Some q →
  obj_get k (players (gameState s)) = Some p →
  isHost p = false →
  ∃ s' out c,
    calculateScores s = Some ((), s', out) ∧
    obj_get k (players (gameState s'))
      = Some (credit (award q (playerFirstAnswers s) (timer (gameState s)) c p).1.1 p) ∧
    answerFeedback (id p)
      (bool_decide (currentAnswer p = Some (correctAnswer q)))
      (award q (playerFirstAnswers s) (timer (gameState s)) c p).1.1
      (award q (playerFirstAnswers s) (timer (gameState s)) c p).1.2 ∈ out.
Proof.
  intros Hnd Hq Hget Hhost.
  destruct (obj_get_lookup _ _ _ Hget) as [i Hi].
  destruct (calculateScores_turn s q i k p Hnd Hi Hhost)
    as (l1 & l2 & c & _ & _ & _ & _ & Hp' & Hout).
  eexists _, _, c. split; [by apply calculateScores_run|].
  split; [exact Hp'|]. rewrite Hout. apply elem_of_app. right. by left.
Qed.


Lemma list_filter_iff_in {A} (P1 P2 : A → Prop)
    (H1 : ∀ x, Decision (P1 x)) (H2 : ∀ x, Decision (P2 x)) (l : list A) :
  (∀ x, x ∈ l → P1 x ↔ P2 x) → filter P1 l = filter P2 l.
Proof.
  induction l as [|x l IH]; intros Hiff; [done|].
  rewrite !filter_cons, IH by (intros y Hy; apply Hiff; by right).
  destruct (decide (P1 x)) as [Hx|Hx].
  - rewrite decide_True; [done|]. apply Hiff; [by left|done].
  - rewrite decide_False; [done|]. intros Hx'. apply Hx, Hiff; [by left|done].
Qed.

(** C2: in one scoring pass, a non-host participant whose changed flag is
    false and whose recorded first answer and final answer are the correct
    option gets 20 points when fewer than 5 such participants submitted
    before them, and 10 points otherwise; submissions are ordered by answer
    time, a missing time last, equal times by position in the players
    object. *)
Theorem tiered_award (s : Server) (q : Question) (i : nat) (k : string)
    (p : Player) :
  distinct_keys s →
  Forall (λ e : string * Player, answerTime e.2 ≠ Some 0) (players (gameState s)) →
  question_at (currentQuestionIndex (gameState s)) = Some q →
  players (gameState s) !! i = Some (k, p) →
  isHost p = false →
  qualifies q (playerFirstAnswers s) p →
  ∃ s' out p',
    calculateScores s = Some ((), s', out) ∧
    obj_get k (players (gameState s')) = Some p' ∧
    let ahead := tieredAhead q (playerFirstAnswers s) (players (gameState s)) i p in
    ((ahead < 5)%nat →
       lastScoreChange p' = 20 ∧ score p' = score p + 20 ∧
       answerFeedback (id p) true 20 reason_first5 ∈ out) ∧
    ((5 ≤ ahead)%nat →
       lastScoreChange p' = 10 ∧ score p' = score p + 10 ∧
       answerFeedback (id p) true 10 reason_unchanged ∈ out).
Proof.
  intros Hnd Htimes Hq Hi Hhost Hqual.
  destruct (calculateScores_turn s q i k p Hnd Hi Hhost)
    as (l1 & l2 & c & _ & _ & _ & Hc & Hp' & Hout).
  assert (c = Z.of_nat (tieredAhead q (playerFirstAnswers s)
                          (players (gameState s)) i p)) as ->.
  { rewrite Hc. unfold tieredAhead. do 2 f_equal.
    apply list_filter_iff_in. intros [j [k' p0]] Hin. simpl.
    apply elem_of_indexed in Hin.
    rewrite Forall_forall in Htimes.
    rewrite (goes_before_answeredBefore j i (k', p0) (k, p)).
    - simpl. tauto.
    - apply (Htimes (k', p0)), list_elem_of_lookup. by exists j.
    - apply (Htimes (k, p)), list_elem_of_lookup. by exists i. }
  rewrite (award_tiered q _ _ _ p Hqual) in Hp', Hout.
  rewrite bool_decide_eq_true_2 in Hout by apply Hqual.
  eexists _, _, _. split; [by apply calculateScores_run|].
  split; [exact Hp'|]. rewrite Hout.
  split; intros Ht; [rewrite decide_True by lia|rewrite decide_False by lia];
    simpl; (split_and!; [done..|]);
    apply elem_of_app; right; by left.
Qed.

(** Six first-try correct answers: the sixth by answer time gets 10. *)
Lemma tiered_award_witness :
  tieredAhead
    (mkQuestion 1 "เจ้าบ่าวและเจ้าสาวเจอกันครั้งแรกที่ไหน?"
       ["มหาวิทยาลัย"; "ที่ทำงาน"; "ร้านกาแฟ"; "งานแต่งเพื่อน"] 0)
    (playerFirstAnswers sixAnswered) (players (gameState sixAnswered)) 1
    (answered "a" 0 0 (Some 0) false (Some 1700000000105)) = 5%nat ∧
  ∃ s' out p',
    calculateScores sixAnswered = Some ((), s', out) ∧
    obj_get "a" (players (gameState s')) = Some p' ∧
    lastScoreChange p' = 10 ∧ score p' = 10 ∧
    answerFeedback "a" true 10 reason_unchanged ∈ out.
Proof.
  split; [reflexivity|].
  destruct (tiered_award sixAnswered
              (mkQuestion 1 "เจ้าบ่าวและเจ้าสาวเจอกันครั้งแรกที่ไหน?"
                 ["มหาวิทยาลัย"; "ที่ทำงาน"; "ร้านกาแฟ"; "งานแต่งเพื่อน"] 0)
              1 "a" (answered "a" 0 0 (Some 0) false (Some 1700000000105)))
    as (s' & out & p' & Hrun & Hget & _ & Hlate).
  - by apply (bool_decide_unpack _).
  - repeat constructor; discriminate.
  - reflexivity.
  - reflexivity.
  - reflexivity.
  - by apply (bool_decide_unpack _).
  - destruct Hlate as (Hdelta & Hscore & Hev); [by apply (bool_decide_unpack _)|].
    exists s', out, p'. split_and!; assumption.
Defined.

(** The whole pass on the six: the five earliest get 20, the sixth 10, the
    host nothing. *)
Lemma six_first_try_scores :
  ∃ s' out,
    calculateScores sixAnswered = Some ((), s', out) ∧
    (λ e : string * Player, (e.1, score e.2, lastScoreChange e.2))
      <$> players (gameState s')
    = [("h", 0, 0); ("a", 10, 10); ("b", 20, 20); ("c", 20, 20);
       ("d", 20, 20); ("e", 20, 20); ("f", 20, 20)] ∧
    out = [answerFeedback "f" true 20 reason_first5;
           answerFeedback "e" true 20 reason_first5;
           answerFeedback "d" true 20 reason_first5;
           answerFeedback "c" true 20 reason_first5;
           answerFeedback "b" true 20 reason_first5;
           answerFeedback "a" true 10 reason_unchanged].
Proof. eexists _, _. split_and!; [vm_compute; reflexivity|reflexivity..]. Qed.

Lemma sixAnswered_reached :
  ∃ out, run toSixAnswered initialState = Some ((), sixAnswered, out).
Proof. eexists. vm_compute. reflexivity. Qed.

(** *** Hosts and feedback *)

Lemma scoringOrder_elem_of (g : GameData) (e : string * Player) :
  e ∈ scoringOrder g ↔ isHost e.2 = false ∧ e ∈ players g.
Proof.
  unfold scoringOrder. rewrite Array_sort_perm. by rewrite list_elem_of_filter.
Qed.

Lemma host_not_scored (s : Server) (k : string) (p : Player) :
  distinct_keys s →
  obj_get k (players (gameState s)) = Some p →
  isHost p = true →
  k ∉ (scoringOrder (gameState s)).*1.
Proof.
  intros Hnd Hget Hhost [[k' p'] [-> Hin]]%list_elem_of_fmap.
  apply scoringOrder_elem_of in Hin as [Hnh Hin]. simpl in *.
  rewrite (obj_get_elem_of _ _ _ Hnd Hin) in Hget. congruence.
Qed.

Lemma loopEmits_feedback (q : Question) (fa : gmap string Z) (t c : Z)
    (l : list (string * Player)) (ev : Emit) :
  ev ∈ loopEmits q fa t c l →
  ∃ e correct points reason,
    e ∈ l ∧ ev = answerFeedback (id e.2) correct points reason.
Proof.
  revert c. induction l as [|e l IH]; intros c; simpl.
  - by intros ?%not_elem_of_nil.
  - intros [->|Hin]%elem_of_cons.
    + eexists e, _, _, _. split; [by left|done].
    + destruct (IH _ Hin) as (e' & co & pts & r & He' & ->).
      eexists e', _, _, _. split; [by right|done].
Qed.

Lemma feedbackTo_none (q : Question) (fa : gmap string Z) (t c : Z)
    (l : list (string * Player)) (k : string) :
  (∀ e, e ∈ l → id e.2 ≠ k) →
  feedbackTo k (loopEmits q fa t c l) = [].
Proof.
  revert c. induction l as [|e l IH]; intros c Hne; [done|].
  simpl. unfold feedbackTo. rewrite filter_cons_False.
  - apply IH. intros e' He'. apply Hne. by right.
  - simpl. intros [= Heq]. by apply (Hne e); [left|].
Qed.

Lemma feedbackTo_app (k : string) (out1 out2 : list Emit) :
  feedbackTo k (out1 ++ out2) = feedbackTo k out1 ++ feedbackTo k out2.
Proof. apply filter_app. Qed.

Lemma feedbackTo_own (k : string) correct points reason (out : list Emit) :
  feedbackTo k (answerFeedback k correct points reason :: out)
  = answerFeedback k correct points reason :: feedbackTo k out.
Proof. unfold feedbackTo. by rewrite filter_cons_True. Qed.

(** C8: the scoring pass leaves the record of every host as it was and
    sends no feedback to a host's room; a non-host participant gets its
    points added and exactly one feedback event in its own room; the pass
    broadcasts nothing. *)
Theorem scoring_spares_hosts (s : Server) (q : Question) :
  distinct_keys s →
  own_ids s →
  question_at (currentQuestionIndex (gameState s)) = Some q →
  ∃ s' out,
    calculateScores s = Some ((), s', out) ∧
    (∀ ev, ev ∈ out → ∃ r correct points reason,
       ev = answerFeedback r correct points reason) ∧
    (∀ k p, obj_get k (players (gameState s)) = Some p → isHost p = true →
       obj_get k (players (gameState s')) = Some p ∧ feedbackTo k out = []) ∧
    (∀ k p, obj_get k (players (gameState s)) = Some p → isHost p = false →
       ∃ correct points reason,
         feedbackTo k out = [answerFeedback k correct points reason] ∧
         obj_get k (players (gameState s')) = Some (credit points p)).
Proof.
  intros Hnd Hids Hq. unfold own_ids in Hids. rewrite Forall_forall in Hids.
  eexists _, _. split; [by apply calculateScores_run|]. simpl.
  assert (∀ e, e ∈ scoringOrder (gameState s) → id e.2 = e.1) as HidsL.
  { intros e [_ He]%scoringOrder_elem_of. by apply Hids. }
  split_and!.
  - intros ev (e & co & pts & r & _ & ->)%loopEmits_feedback. by eexists _, _, _, _.
  - intros k p Hget Hhost.
    pose proof (host_not_scored s k p Hnd Hget Hhost) as Hk.
    split; [by rewrite loopPlayers_other|].
    apply feedbackTo_none. intros e He Heq. apply Hk.
    apply list_elem_of_fmap. exists e. split; [|done].
    by rewrite <- Heq, HidsL.
  - intros k p Hget Hhost.
    destruct (obj_get_lookup _ _ _ Hget) as [i Hi].
    destruct (calculateScores_turn s q i k p Hnd Hi Hhost)
      as (l1 & l2 & c & Hsplit & Hk1 & Hk2 & _ & Hp' & Hout).
    assert (id p = k) as Hid.
    { apply (HidsL (k, p)). rewrite Hsplit. apply elem_of_app. right. by left. }
    assert (∀ l, l ⊆ scoringOrder (gameState s) → k ∉ l.*1 →
              ∀ e, e ∈ l → id e.2 ≠ k) as Hother.
    { intros l Hl Hk e He Heq. apply Hk. apply list_elem_of_fmap.
      exists e. split; [|done]. rewrite <- Heq. by apply HidsL, Hl. }
    eexists _, _, _. split; [|exact Hp'].
    rewrite Hout, Hid, feedbackTo_app, feedbackTo_own.
    rewrite !feedbackTo_none; [done| |].
    + apply Hother; [|done]. rewrite Hsplit. intros e He.
      apply elem_of_app. right. by right.
    + apply Hother; [|done]. rewrite Hsplit. intros e He.
      apply elem_of_app. by left.
Qed.

Lemma scoring_spares_hosts_witness :
  ∃ s' out,
    calculateScores sixAnswered = Some ((), s', out) ∧
    (obj_get "h" (players (gameState s')) = Some (joined "h" "Host" true None) ∧
     feedbackTo "h" out = []) ∧
    ∃ correct points reason,
      feedbackTo "a" out = [answerFeedback "a" correct points reason] ∧
      obj_get "a" (players (gameState s'))
      = Some (credit points (answered "a" 0 0 (Some 0) false (Some 1700000000105))).
Proof.
  destruct (scoring_spares_hosts sixAnswered
              (mkQuestion 1 "เจ้าบ่าวและเจ้าสาวเจอกันครั้งแรกที่ไหน?"
                 ["มหาวิทยาลัย"; "ที่ทำงาน"; "ร้านกาแฟ"; "งานแต่งเพื่อน"] 0))
    as (s' & out & Hrun & _ & Hhosts & Hplayers).
  - by apply (bool_decide_unpack _).
  - repeat constructor.
  - reflexivity.
  - exists s', out. split; [|split].
    + exact Hrun.
    + exact (Hhosts "h" (joined "h" "Host" true None) eq_refl eq_refl).
    + exact (Hplayers "a" (answered "a" 0 0 (Some 0) false (Some 1700000000105))
               eq_refl eq_refl).
Defined.

(** *** Submitting the same option twice *)

(** C9: a participant with no recorded first answer who submits the same
    option twice in the answering phase keeps that option as current answer
    and gets the changed flag set by the second submission.  When the
    option is the correct one, the participant is in the tiered branch
    after the first submission, and after the second the scoring pass
    gives the changed-answer award (10, or 5 when the countdown is 3 or
    less), not the 20 of the tier. *)
Theorem same_option_twice_counts_as_changed (s : Server) (q : Question)
    (sid : string) (p : Player) (a t1 t2 : Z) :
  distinct_keys s →
  state (gameState s) = QUESTION →
  question_at (currentQuestionIndex (gameState s)) = Some q →
  obj_get sid (players (gameState s)) = Some p →
  isHost p = false →
  id p = sid →
  hasChangedAnswer p = false →
  playerFirstAnswers s !! sid = None →
  ∃ s1 out1 p1 s2 out2 p2,
    submitAnswer sid a t1 s = Some ((), s1, out1) ∧
    obj_get sid (players (gameState s1)) = Some p1 ∧
    currentAnswer p1 = Some a ∧ hasChangedAnswer p1 = false ∧
    submitAnswer sid a t2 s1 = Some ((), s2, out2) ∧
    obj_get sid (players (gameState s2)) = Some p2 ∧
    currentAnswer p2 = Some a ∧ hasChangedAnswer p2 = true ∧
    (a = correctAnswer q →
       qualifies q (playerFirstAnswers s1) p1 ∧
       ¬ qualifies q (playerFirstAnswers s2) p2 ∧
       ∃ s3 out3 p3,
         calculateScores s2 = Some ((), s3, out3) ∧
         obj_get sid (players (gameState s3)) = Some p3 ∧
         lastScoreChange p3 = (if decide (timer (gameState s) ≤ 3) then 5 else 10) ∧
         lastScoreChange p3 ≠ 20 ∧
         answerFeedback sid true (lastScoreChange p3)
           (if decide (timer (gameState s) ≤ 3)
            then reason_changed_late else reason_changed) ∈ out3).
Proof.
  intros Hnd Hphase Hq Hget Hhost Hid Hflag Hfirst.
  set (s1 := answerRecorded sid a t1 s).
  set (s2 := answerRecorded sid a t2 s1).
  set (p1 := mkPlayer (id p) (name p) (avatar p) (score p) (lastScoreChange p)
               (Some a) false (Some t1) (isHost p)).
  set (p2 := mkPlayer (id p) (name p) (avatar p) (score p) (lastScoreChange p)
               (Some a) true (Some t2) (isHost p)).
  assert (obj_get sid (players (gameState s1)) = Some p1) as Hget1.
  { unfold s1. by rewrite (answerRecorded_caller s sid a t1 p Hget), Hfirst, Hflag. }
  assert (playerFirstAnswers s1 = <[sid := a]> (playerFirstAnswers s)) as Hfa1.
  { unfold s1. by rewrite answerRecorded_first, Hfirst. }
  assert (playerFirstAnswers s1 !! sid = Some a) as Hfirst1
    by (by rewrite Hfa1, lookup_insert_eq).
  assert (obj_get sid (players (gameState s2)) = Some p2) as Hget2.
  { unfold s2. by rewrite (answerRecorded_caller s1 sid a t2 p1 Hget1), Hfirst1. }
  assert (playerFirstAnswers s2 = playerFirstAnswers s1) as Hfa2.
  { unfold s2. by rewrite answerRecorded_first, Hfirst1. }
  eexists s1, _, p1, s2, _, p2. split_and!.
  - by apply submitAnswer_run.
  - exact Hget1.
  - done.
  - done.
  - by apply submitAnswer_run.
  - exact Hget2.
  - done.
  - done.
  - intros ->. split_and!.
    + split_and!; [done..|]. simpl. by rewrite Hid.
    + intros (_ & Hno & _). done.
    + destruct (calculateScores_award s2 q sid p2)
        as (s3 & out3 & c & Hrun3 & Hget3 & Hev); [..|done|done|].
      { unfold distinct_keys, s2, s1. by rewrite !answerRecorded_keys. }
      { done. }
      rewrite award_changed in Hget3, Hev by done.
      rewrite bool_decide_eq_true_2 in Hev by done.
      simpl in Hev. rewrite Hid in Hev.
      change (timer (gameState s2)) with (timer (gameState s)) in Hget3, Hev.
      eexists _, _, _. split; [exact Hrun3|]. split; [exact Hget3|].
      case_decide; simpl; by split_and!.
Qed.

Lemma same_option_twice_counts_as_changed_witness :
  ∃ s1 out1 s2 out2 p2 s3 out3 p3,
    submitAnswer "a" 0 1700000000100 answeringOpens = Some ((), s1, out1) ∧
    submitAnswer "a" 0 1700000000900 s1 = Some ((), s2, out2) ∧
    obj_get "a" (players (gameState s2)) = Some p2 ∧
    currentAnswer p2 = Some 0 ∧ hasChangedAnswer p2 = true ∧
    calculateScores s2 = Some ((), s3, out3) ∧
    obj_get "a" (players (gameState s3)) = Some p3 ∧
    lastScoreChange p3 = 10.
Proof.
  destruct (same_option_twice_counts_as_changed answeringOpens
              (mkQuestion 1 "เจ้าบ่าวและเจ้าสาวเจอกันครั้งแรกที่ไหน?"
                 ["มหาวิทยาลัย"; "ที่ทำงาน"; "ร้านกาแฟ"; "งานแต่งเพื่อน"] 0)
              "a" (joined "a" "a" false None) 0 1700000000100 1700000000900)
    as (s1 & out1 & p1 & s2 & out2 & p2 & Hrun1 & _ & _ & _ & Hrun2 & Hget2
        & Hans2 & Hflag2 & Hscore);
    [by apply (bool_decide_unpack _)|reflexivity..|].
  destruct (Hscore eq_refl) as (_ & _ & s3 & out3 & p3 & Hrun3 & Hget3 & Hpts & _).
  exists s1, out1, s2, out2, p2, s3, out3, p3. split_and!; assumption.
Defined.

Lemma answeringOpens_reached :
  ∃ out, run toAnsweringOpens initialState = Some ((), answeringOpens, out).
Proof. eexists. vm_compute. reflexivity. Qed.

(** ** Consistency of the server between events *)

Section Consistency.
Implicit Types (s : Server) (ps : list (string * Player)).

Lemma keeps_mret {A} (x : A) : keeps_consistent (mret x).
Proof. intros s Hs. by eexists _, _, _. Qed.

Lemma keeps_get : keeps_consistent get.
Proof. intros s Hs. by eexists _, _, _. Qed.

Lemma keeps_emit (e : Emit) : keeps_consistent (emit e).
Proof. intros s Hs. by eexists _, _, _. Qed.

Lemma keeps_bind {A B} (m : M A) (f : A → M B) :
  keeps_consistent m → (∀ x, keeps_consistent (f x)) →
  keeps_consistent (m ≫= f).
Proof.
  intros Hm Hf s Hs. destruct (Hm s Hs) as (x & s1 & out1 & Hrun1 & Hs1).
  destruct (Hf x s1 Hs1) as (y & s2 & out2 & Hrun2 & Hs2).
  exists y, s2, (out1 ++ out2). split; [|done].
  unfold mbind, M_bind. by rewrite Hrun1, Hrun2.
Qed.

Lemma keeps_modify (f : Server → Server) :
  (∀ s, consistent s → consistent (f s)) → keeps_consistent (modify f).
Proof. intros Hf s Hs. eexists _, _, _. split; [done|]. by apply Hf. Qed.

Lemma keeps_broadcastUpdate : keeps_consistent broadcastUpdate.
Proof. apply keeps_bind; [apply keeps_get|]. intros s. apply keeps_emit. Qed.

(** Writes to the players object that keep its keys and ids in order. *)
Lemma consistent_players (f : list (string * Player) → list (string * Player)) s :
  (∀ ps, NoDup ps.*1 → Forall (λ e : string * Player, id e.2 = e.1) ps →
     NoDup (f ps).*1 ∧ Forall (λ e : string * Player, id e.2 = e.1) (f ps)) →
  consistent s →
  consistent (set_gameState (λ g, set_players (f (players g)) g) s).
Proof.
  intros Hf (Hnd & Hids & Hone & Hidx).
  destruct (Hf _ Hnd Hids) as [Hnd' Hids']. by split_and!.
Qed.

Lemma alter_in_order (f : Player → Player) k ps :
  (∀ p, id (f p) = id p) →
  NoDup ps.*1 → Forall (λ e : string * Player, id e.2 = e.1) ps →
  NoDup (obj_alter f k ps).*1 ∧
  Forall (λ e : string * Player, id e.2 = e.1) (obj_alter f k ps).
Proof.
  intros Hf Hnd Hids. split; [by rewrite obj_keys_alter|].
  induction Hids as [|[k0 p0] ps Hp Hps IH]; simpl; [done|].
  apply NoDup_cons in Hnd as [_ Hnd].
  case_decide; constructor; simpl in *; rewrite ?Hf; auto.
Qed.

Lemma forEach_in_order (f : Player → Player) ps :
  (∀ p, id (f p) = id p) →
  NoDup ps.*1 → Forall (λ e : string * Player, id e.2 = e.1) ps →
  NoDup (obj_forEach f ps).*1 ∧
  Forall (λ e : string * Player, id e.2 = e.1) (obj_forEach f ps).
Proof.
  intros Hf Hnd Hids. split; [by rewrite obj_keys_forEach|].
  unfold obj_forEach. apply Forall_fmap.
  eapply Forall_impl; [exact Hids|]. intros [k p] Hp. simpl in *. by rewrite Hf.
Qed.

Lemma obj_keys_set {V} k (v : V) (o : list (string * V)) :
  (obj_set k v o).*1 = if decide (k ∈ o.*1) then o.*1 else o.*1 ++ [k].
Proof.
  induction o as [|[k0 v0] o IH].
  - destruct (decide (k ∈ ([] : list (string * V)).*1)) as [Hin|Hin]; [|done].
    by apply elem_of_nil in Hin.
  - cbn [obj_set]. rewrite !fmap_cons. cbn [fst].
    destruct (decide (k0 = k)) as [->|Hne].
    + rewrite fmap_cons. cbn [fst]. rewrite decide_True; [done|]. by left.
    + rewrite fmap_cons, IH. cbn [fst].
      destruct (decide (k ∈ o.*1)) as [Hin|Hin].
      * rewrite decide_True; [done|]. by right.
      * rewrite decide_False; [done|].
        intros [?|?]%elem_of_cons; congruence.
Qed.

Lemma set_in_order k (p : Player) ps :
  id p = k →
  NoDup ps.*1 → Forall (λ e : string * Player, id e.2 = e.1) ps →
  NoDup (obj_set k p ps).*1 ∧
  Forall (λ e : string * Player, id e.2 = e.1) (obj_set k p ps).
Proof.
  intros Hp Hnd Hids. split.
  - rewrite obj_keys_set. case_decide; [done|].
    apply NoDup_app. split_and!; [done| |apply NoDup_singleton].
    intros x Hx [->|[]%not_elem_of_nil]%elem_of_cons. done.
  - clear Hnd. induction Hids as [|[k0 p0] ps Hp0 Hps IH]; simpl.
    + by repeat constructor.
    + case_decide; constructor; simpl in *; auto. congruence.
Qed.

Lemma obj_delete_sublist {V} k (o : list (string * V)) :
  obj_delete k o `sublist_of` o.
Proof.
  induction o as [|[k0 v0] o IH]; simpl; [done|].
  case_decide; by constructor.
Qed.

Lemma delete_in_order k ps :
  NoDup ps.*1 → Forall (λ e : string * Player, id e.2 = e.1) ps →
  NoDup (obj_delete k ps).*1 ∧
  Forall (λ e : string * Player, id e.2 = e.1) (obj_delete k ps).
Proof.
  intros Hnd Hids. split.
  - eapply sublist_NoDup; [exact Hnd|]. apply fmap_sublist, obj_delete_sublist.
  - clear Hnd. induction Hids as [|[k0 p0] ps Hp Hps IH]; simpl; [done|].
    case_decide; [done|]. by constructor.
Qed.

Lemma loopPlayers_in_order q fa t c l ps :
  NoDup ps.*1 → Forall (λ e : string * Player, id e.2 = e.1) ps →
  NoDup (loopPlayers q fa t c l ps).*1 ∧
  Forall (λ e : string * Player, id e.2 = e.1) (loopPlayers q fa t c l ps).
Proof.
  revert c ps. induction l as [|e l IH]; intros c ps Hnd Hids; simpl; [done|].
  apply IH; by apply alter_in_order.
Qed.

Lemma keeps_startTimer (d : Z) (cb : Callback) : keeps_consistent (startTimer d cb).
Proof.
  intros s (Hnd & Hids & Hone & Hidx). eexists _, _, _.
  split; [by apply startTimer_run|]. split_and!; try done.
  intros h cb' Hh. cbn [intervals] in Hh.
  by apply lookup_singleton_Some in Hh as [<- _].
Qed.

Lemma keeps_calculateScores : keeps_consistent calculateScores.
Proof.
  intros s (Hnd & Hids & Hone & Hidx).
  destruct (question_at (currentQuestionIndex (gameState s))) as [q|] eqn:Hq.
  - eexists _, _, _. split; [by apply calculateScores_run|].
    destruct (loopPlayers_in_order q (playerFirstAnswers s) (timer (gameState s)) 0
                (scoringOrder (gameState s)) _ Hnd Hids) as [Hnd' Hids'].
    by split_and!.
  - exfalso. unfold question_at, valid_index in *.
    rewrite decide_True in Hq by lia.
    apply lookup_ge_None in Hq. lia.
Qed.

Lemma keeps_clearTimerInterval : keeps_consistent clearTimerInterval.
Proof.
  intros s (Hnd & Hids & Hone & Hidx). unfold clearTimerInterval, get.
  unfold mbind, M_bind. cbn beta iota.
  destruct (timerInterval s) as [h|] eqn:Ht; eexists _, _, _;
    (split; [reflexivity|]); split_and!; try done.
  intros h' cb. simpl. rewrite lookup_delete. case_decide; [done|].
  intros Hh'. apply Hone in Hh'. congruence.
Qed.

(** Splits a handler into its writes, stopping at the parts already
    shown to keep consistency. *)
Ltac keeps_step :=
  lazymatch goal with
  | |- keeps_consistent (startTimer _ _) => apply keeps_startTimer
  | |- keeps_consistent calculateScores => apply keeps_calculateScores
  | |- keeps_consistent broadcastUpdate => apply keeps_broadcastUpdate
  | |- keeps_consistent clearTimerInterval => apply keeps_clearTimerInterval
  | |- keeps_consistent (mret _) => apply keeps_mret
  | |- keeps_consistent get => apply keeps_get
  | |- keeps_consistent (_ ≫= _) =>
      apply keeps_bind; [keeps_step | intros ?; keeps_step]
  | |- keeps_consistent (modify _) => apply keeps_modify; intros ? ?
  | |- _ => idtac
  end.

Lemma consistent_frame s (g : GameData) fa :
  consistent s →
  players g = players (gameState s) →
  0 ≤ currentQuestionIndex g < Z.of_nat (length QUESTIONS) →
  consistent (mkServer g fa (timerInterval s) (intervals s) (nextHandle s)).
Proof. intros (Hnd & Hids & Hone & Hidx) Hps Hi. split_and!; try done;
  unfold distinct_keys, own_ids; simpl; by rewrite Hps. Qed.

Lemma keeps_startReadingPhase : keeps_consistent startReadingPhase.
Proof.
  unfold startReadingPhase. keeps_step.
  - apply consistent_frame; [done..|]. apply H.
  - apply (consistent_players (obj_forEach _)); [|done].
    intros ps. by apply forEach_in_order.
  - apply consistent_frame; [done..|]. apply H.
Qed.

Lemma keeps_runCallback (cb : Callback) : keeps_consistent (runCallback cb).
Proof.
  destruct cb; simpl; keeps_step;
    (apply consistent_frame; [done..|]); apply H.
Qed.

Lemma keeps_hostCommand (sid : string) (m : M unit) :
  keeps_consistent m →
  keeps_consistent
    (s ← get; if notHost (obj_get sid (players (gameState s))) then mret () else m).
Proof.
  intros Hm. apply keeps_bind; [apply keeps_get|]. intros s.
  destruct (notHost _); [apply keeps_mret|done].
Qed.

(** Every handler runs to the end from a consistent server, without an
    exception, and leaves a consistent server. *)
Lemma keeps_handle (e : Event) : keeps_consistent (handle e).
Proof.
  destruct e; simpl.
  - unfold join. keeps_step.
    apply (consistent_players (obj_set _ _)); [|done].
    intros ps. by apply set_in_order.
  - unfold submitAnswer. apply keeps_bind; [apply keeps_get|]. intros s0.
    destruct (obj_get sid (players (gameState s0))); [|apply keeps_mret].
    case_decide; [apply keeps_mret|].
    destruct (playerFirstAnswers s0 !! sid); keeps_step;
      try (apply (consistent_players (obj_alter _ _)); [|done];
           intros ps; by apply alter_in_order).
    apply consistent_frame; [done..|]. apply H0.
  - apply keeps_hostCommand. keeps_step.
    + apply consistent_frame; [done|done|]. simpl. done.
    + apply (consistent_players (obj_forEach _)); [|done].
      intros ps. by apply forEach_in_order.
    + apply keeps_startReadingPhase.
  - unfold hostNextQuestion. intros s Hs.
    unfold get. unfold mbind at 1, M_bind. cbn beta iota.
    destruct (notHost _); [by eexists _, _, _|].
    case_decide as Hlt.
    + destruct (keeps_startReadingPhase (set_gameState (λ g,
                  set_currentQuestionIndex (currentQuestionIndex g + 1) g) s))
        as ([] & s' & out & Hrun & Hs').
      { apply consistent_frame; [done|done|]. simpl.
        destruct Hs as (_ & _ & _ & Hidx). unfold valid_index in Hidx.
        change (Z.of_nat (length QUESTIONS)) with 5 in *. lia. }
      exists (), s', out. split; [|done].
      unfold mbind, M_bind, modify. by rewrite Hrun.
    + revert s Hs Hlt.
      cut (keeps_consistent (modify (set_gameState (set_state FINAL_RESULTS));;
                             broadcastUpdate)).
      { intros Hk s Hs _. apply Hk, Hs. }
      keeps_step. apply consistent_frame; [done..|]. apply H.
  - apply keeps_hostCommand. keeps_step.
    + apply consistent_frame; [done..|]. apply H.
    + apply consistent_frame; [done|done|]. simpl. done.
    + apply (consistent_players (obj_forEach _)); [|done].
      intros ps. by apply forEach_in_order.
  - unfold disconnect. keeps_step.
    + apply (consistent_players (obj_delete _)); [|done].
      intros ps. by apply delete_in_order.
    + apply consistent_frame; [done..|]. apply H.
  - unfold tick. apply keeps_bind; [apply keeps_get|]. intros s0.
    destruct (intervals s0 !! h) as [cb|]; [|apply keeps_mret].
    apply keeps_bind.
    { keeps_step. apply consistent_frame; [done..|]. apply H. }
    intros _. apply keeps_bind; [apply keeps_get|]. intros s1.
    case_decide; keeps_step. apply keeps_runCallback.
Qed.

(** X1: the server is consistent after every run of events, and no run
    ends in an exception. *)
Theorem run_consistent (es : list Event) :
  ∃ s out, run es initialState = Some ((), s, out) ∧ consistent s.
Proof.
  assert (consistent initialState) as Hinit.
  { split_and!; [constructor|constructor|done|done]. }
  assert (∀ es, keeps_consistent (run es)) as Hrun.
  { clear es. intros es. induction es as [|e es IH]; simpl.
    - apply keeps_mret.
    - apply keeps_bind; [apply keeps_handle|done]. }
  destruct (Hrun es initialState Hinit) as ([] & s & out & Hes & Hs).
  by exists s, out.
Qed.
End Consistency.

(** ** The scoring pass inside the timer *)


(** Before the countdown runs out a firing only decrements and broadcasts:
    no scoring happens while time is left. *)
Lemma tick_countdown (s : Server) (h : nat) (cb : Callback) :
  intervals s !! h = Some cb →
  1 < timer (gameState s) →
  tick h s =
    Some ((), set_gameState (λ g, set_timer (timer g - 1) g) s,
          [gameUpdate (set_timer (timer (gameState s) - 1) (gameState s))]).
Proof.
  intros Hh Ht. unfold tick, get. unfold mbind at 1, M_bind. cbn beta iota.
  rewrite Hh. unfold mbind at 1, M_bind, modify. cbn beta iota.
  unfold mbind at 1, M_bind. cbn beta iota.
  rewrite decide_False by (simpl; lia). reflexivity.
Qed.



(** The server of that firing is reached by a run in which [b] changes to
    the correct option with fifteen seconds left. *)
Lemma lastSecond_reached :
  ∃ out, run (toAnswering ++ replicate 7 (ev_tick 1)) initialState
         = Some ((), set_gameState (set_timer 1) whileAnswering, out).
Proof. eexists. vm_compute. reflexivity. Qed.

(** The reading countdown: four firings count down, the fifth opens the
    answering phase with fifteen seconds and a new interval. *)
Lemma reading_countdown (s : Server) :
  ∃ s' out,
    run (replicate 5 (ev_tick (nextHandle s))) (readingState s) = Some ((), s', out) ∧
    state (gameState s') = QUESTION ∧
    timer (gameState s') = 15 ∧
    players (gameState s') = readingPlayers (players (gameState s)) ∧
    playerFirstAnswers s' = ∅ ∧
    intervals s' = {[S (nextHandle s) := endQuestion]} ∧
    length out = 5%nat.
Proof.
  eexists _, _. split.
  - simpl. unfold mbind, M_bind.
    do 4 (rewrite (tick_countdown _ _ endReading);
          [|by (cbn [intervals set_gameState readingState]; apply lookup_singleton_eq)
           |by simpl]).
    unfold tick, get. unfold mbind at 1, M_bind. cbn beta iota.
    cbn [intervals set_gameState readingState].
    rewrite lookup_singleton_eq.
    unfold mbind, mret, M_bind, M_ret, modify, get, clearTimerInterval,
      clearInterval, runCallback, startTimer, broadcastUpdate, emit, setInterval.
    simpl. rewrite delete_singleton_eq, delete_empty, insert_empty. reflexivity.
  - split_and!; reflexivity.
Qed.

(** ** Specifications of computations *)

Section Hoare.
Context {A B : Type}.
Implicit Types (P : Server → Prop) (E : Emit → Prop).

Lemma hoare_ret P (Q : A → Server → Prop) E (x : A) :
  (∀ s, P s → Q x s) → hoare P (mret x) Q E.
Proof. intros HQ s Hs. eexists _, _, _. split; [done|]. split; [by apply HQ|done]. Qed.

Lemma hoare_bind P (R : A → Server → Prop) (Q : B → Server → Prop) E
    (m : M A) (f : A → M B) :
  hoare P m R E → (∀ x, hoare (R x) (f x) Q E) → hoare P (m ≫= f) Q E.
Proof.
  intros Hm Hf s Hs. destruct (Hm s Hs) as (x & s1 & out1 & Hrun1 & Hs1 & HE1).
  destruct (Hf x s1 Hs1) as (y & s2 & out2 & Hrun2 & Hs2 & HE2).
  exists y, s2, (out1 ++ out2). split; [|split; [done|by apply Forall_app]].
  unfold mbind, M_bind. by rewrite Hrun1, Hrun2.
Qed.

Lemma hoare_conseq P P' (Q Q' : A → Server → Prop) E (m : M A) :
  hoare P' m Q' E → (∀ s, P s → P' s) → (∀ x s, Q' x s → Q x s) →
  hoare P m Q E.
Proof.
  intros Hm HP HQ s Hs. destruct (Hm s (HP s Hs)) as (x & s' & out & ? & ? & ?).
  exists x, s', out. split_and!; auto.
Qed.
End Hoare.

Lemma hoare_get (P : Server → Prop) (Q : Server → Server → Prop) E :
  (∀ s, P s → Q s s) → hoare P get Q E.
Proof. intros HQ s Hs. eexists _, _, _. split; [done|]. split; [by apply HQ|done]. Qed.

Lemma hoare_modify (P : Server → Prop) (Q : unit → Server → Prop) E f :
  (∀ s, P s → Q () (f s)) → hoare P (modify f) Q E.
Proof. intros HQ s Hs. eexists _, _, _. split; [done|]. split; [by apply HQ|done]. Qed.

Lemma hoare_broadcastUpdate (P : Server → Prop) (E : Emit → Prop) :
  (∀ g, E (gameUpdate g)) → hoare P broadcastUpdate (λ _, P) E.
Proof.
  intros HE s Hs. eexists _, _, _. split; [done|]. split; [done|].
  simpl. by repeat constructor.
Qed.

(** ** Awards *)

Lemma award_points (q : Question) (fa : gmap string Z) (t c : Z) (p : Player) :
  points_ok (award q fa t c p).1.1.
Proof.
  unfold award, points_ok.
  destruct (hasChangedAnswer p); repeat case_bool_decide; simpl;
    repeat case_decide; simpl; auto.
Qed.

(** With a countdown of 3 or less and an unchanged answer that is the
    recorded first answer, the award is one of four: the plain "correct"
    branch and the 10 points of a changed answer are not taken. *)
Lemma award_feedback_ok (q : Question) (fa : gmap string Z) (t c : Z) (p : Player) :
  t ≤ 3 →
  (hasChangedAnswer p = false →
   ∀ a, currentAnswer p = Some a → fa !! id p = Some a) →
  feedback_ok
    (answerFeedback (id p)
       (bool_decide (currentAnswer p = Some (correctAnswer q)))
       (award q fa t c p).1.1 (award q fa t c p).1.2).
Proof.
  intros Ht Hfirst. unfold award, feedback_ok.
  case_bool_decide as Hcorrect; [|by left].
  destruct (hasChangedAnswer p) eqn:Hch; simpl.
  - rewrite decide_True by done. auto.
  - rewrite (Hfirst eq_refl _ Hcorrect), bool_decide_eq_true_2 by done.
    case_decide; auto.
Qed.

Lemma loopEmits_feedback_ok (q : Question) (fa : gmap string Z) (t c : Z)
    (l : list (string * Player)) :
  t ≤ 3 →
  Forall (λ e : string * Player, record_ok fa e.2) l →
  Forall feedback_ok (loopEmits q fa t c l).
Proof.
  intros Ht Hl. revert c. induction Hl as [|e l He Hl IH]; intros c; simpl.
  - constructor.
  - constructor; [|apply IH]. apply award_feedback_ok; [done|apply He].
Qed.

Lemma Forall_obj_alter {V} (R : string * V → Prop) (f : V → V) k
    (o : list (string * V)) :
  Forall R o → (∀ v, R (k, v) → R (k, f v)) → Forall R (obj_alter f k o).
Proof.
  intros Ho Hf. induction Ho as [|[k0 v0] o Hv Ho IH]; simpl; [done|].
  case_decide; simplify_eq; constructor; auto.
Qed.

Lemma Forall_obj_forEach {V} (R R' : string * V → Prop) (f : V → V)
    (o : list (string * V)) :
  Forall R o → (∀ k v, R (k, v) → R' (k, f v)) → Forall R' (obj_forEach f o).
Proof.
  intros Ho Hf. unfold obj_forEach. apply Forall_fmap.
  eapply Forall_impl; [exact Ho|]. intros [k v] Hv. simpl. by apply Hf.
Qed.

Lemma Forall_obj_set {V} (R : string * V → Prop) k (v : V)
    (o : list (string * V)) :
  Forall R o → R (k, v) → Forall R (obj_set k v o).
Proof.
  intros Ho Hv. induction Ho as [|[k0 v0] o Hv0 Ho IH]; simpl.
  - by repeat constructor.
  - case_decide; simplify_eq; constructor; auto.
Qed.

Lemma Forall_obj_delete {V} (R : string * V → Prop) k (o : list (string * V)) :
  Forall R o → Forall (λ e, R e ∧ e.1 ≠ k) (obj_delete k o).
Proof.
  intros Ho. induction Ho as [|[k0 v0] o Hv0 Ho IH]; simpl; [done|].
  case_decide; [done|]. constructor; auto.
Qed.

Lemma credit_record_ok (fa : gmap string Z) (pts : Z) (p : Player) :
  points_ok pts → isHost p = false → record_ok fa p → record_ok fa (credit pts p).
Proof.
  intros Hpts Hhost (Hd & Hs & _ & Hfirst). unfold record_ok, credit. simpl.
  split_and!; [done| |congruence|done].
  unfold points_ok in *. lia.
Qed.

(** The loop of the scoring pass keeps the records in order. *)
Lemma loopPlayers_record_ok (q : Question) (fa : gmap string Z) (t c : Z)
    (l ps : list (string * Player)) :
  Forall (λ e : string * Player,
            record_ok fa e.2 ∧ (e.1 ∈ l.*1 → isHost e.2 = false)) ps →
  Forall (λ e : string * Player, record_ok fa e.2) (loopPlayers q fa t c l ps).
Proof.
  revert c ps. induction l as [|e l IH]; intros c ps Hps; simpl.
  - eapply Forall_impl; [exact Hps|]. by intros ? [? _].
  - apply IH.
    assert (Forall (λ e0 : string * Player,
              record_ok fa e0.2 ∧ (e0.1 ∈ (e :: l).*1 → isHost e0.2 = false))
              (obj_alter (credit (award q fa t c e.2).1.1) e.1 ps)) as Hstep.
    { apply Forall_obj_alter; [done|]. intros p [Hok Hnh]. simpl in *.
      assert (isHost p = false) as Hp by (apply Hnh; by left).
      split; [|done]. apply credit_record_ok; [apply award_points|done..]. }
    eapply Forall_impl; [exact Hstep|]. intros e0 [Hok Hnh].
    split; [done|]. intros Hin. apply Hnh. rewrite fmap_cons. by right.
Qed.

(** ** Soundness of the server between events *)

Lemma record_ok_nonneg (fa : gmap string Z) (p : Player) :
  record_ok fa p → 0 ≤ lastScoreChange p ≤ score p ∧ lastScoreChange p ≤ 20.
Proof. intros (Hd & Hs & _). unfold points_ok in Hd. lia. Qed.

(** A write to the game state that keeps the players, the countdown and a
    valid index keeps the server sound. *)
Lemma sound_frame (s : Server) (g : GameData) :
  sound s →
  players g = players (gameState s) →
  timer g = timer (gameState s) →
  0 ≤ currentQuestionIndex g < Z.of_nat (length QUESTIONS) →
  sound (mkServer g (playerFirstAnswers s) (timerInterval s) (intervals s)
           (nextHandle s)).
Proof.
  intros (Hc & Htm & Hr) Hps Ht Hi. split; [|split].
  - by apply consistent_frame.
  - unfold timer_ok in *. simpl. by rewrite Ht.
  - simpl. by rewrite Hps.
Qed.

(** A write to the players that keeps keys, ids and records in order. *)
Lemma sound_players (f : list (string * Player) → list (string * Player))
    (s : Server) :
  sound s →
  (∀ ps, NoDup ps.*1 → Forall (λ e : string * Player, id e.2 = e.1) ps →
     NoDup (f ps).*1 ∧ Forall (λ e : string * Player, id e.2 = e.1) (f ps)) →
  Forall (λ e : string * Player, record_ok (playerFirstAnswers s) e.2)
    (f (players (gameState s))) →
  sound (set_gameState (λ g, set_players (f (players g)) g) s).
Proof.
  intros (Hc & Ht & Hr) Hf Hr'. split_and!; [|exact Ht|exact Hr'].
  by apply (consistent_players f).
Qed.

Lemma hoare_startTimer (d : Z) (cb : Callback) :
  1 ≤ d ≤ 15 →
  hoare sound (startTimer d cb) (λ _, sound) feedback_ok.
Proof.
  intros Hd s (Hc & Ht & Hr). eexists _, _, _.
  split; [apply startTimer_run, Hc|]. split; [|by repeat constructor].
  destruct Hc as (Hnd & Hids & Hone & Hidx). split; [|split].
  - split_and!; try done. intros h cb' Hh. cbn [intervals] in Hh.
    by apply lookup_singleton_Some in Hh as [<- _].
  - split; cbn [intervals gameState]; [|by simpl].
    intros Hempty.
    apply (f_equal (λ m : gmap nat Callback, m !! nextHandle s)) in Hempty.
    by rewrite lookup_singleton_eq, lookup_empty in Hempty.
  - done.
Qed.

Lemma sound_scored_keys (s : Server) :
  sound s →
  Forall (λ e : string * Player,
            record_ok (playerFirstAnswers s) e.2 ∧
            (e.1 ∈ (scoringOrder (gameState s)).*1 → isHost e.2 = false))
    (players (gameState s)).
Proof.
  intros ((Hnd & _) & _ & Hr). rewrite Forall_forall in Hr |- *.
  intros [k p] Hin. split; [by apply Hr|]. simpl.
  intros ([k' p'] & -> & [Hnh Hin']%scoringOrder_elem_of)%list_elem_of_fmap.
  simpl in *.
  pose proof (obj_get_elem_of _ _ _ Hnd Hin) as H1.
  pose proof (obj_get_elem_of _ _ _ Hnd Hin') as H2. congruence.
Qed.

(** The scoring pass at a completion: it does not throw, keeps the server
    sound, and sends only the four reachable kinds of feedback. *)
Lemma hoare_calculateScores :
  hoare at_completion calculateScores (λ _, at_completion) feedback_ok.
Proof.
  intros s [Hs Hempty].
  pose proof Hs as (Hc & [Ht0 Ht1] & Hr).
  pose proof Hc as (Hnd & Hids & Hone & Hidx).
  destruct (question_at (currentQuestionIndex (gameState s))) as [q|] eqn:Hq.
  2:{ exfalso. unfold question_at, valid_index in *.
      rewrite decide_True in Hq by lia. apply lookup_ge_None in Hq. lia. }
  eexists _, _, _. split; [by apply calculateScores_run|].
  destruct (loopPlayers_in_order q (playerFirstAnswers s) (timer (gameState s)) 0
              (scoringOrder (gameState s)) _ Hnd Hids) as [Hnd' Hids'].
  split; [split; [|done]|].
  - split_and!; try done. simpl.
    apply loopPlayers_record_ok. by apply sound_scored_keys.
  - apply loopEmits_feedback_ok; [rewrite (Ht0 Hempty); lia|].
    rewrite Forall_forall in Hr |- *.
    intros e [_ He]%scoringOrder_elem_of. by apply Hr.
Qed.

Lemma Forall_obj_alter2 {V} (R R' : string * V → Prop) (f : V → V) k
    (o : list (string * V)) :
  Forall R o →
  (∀ v, R (k, v) → R' (k, f v)) →
  (∀ k' v, k' ≠ k → R (k', v) → R' (k', v)) →
  Forall R' (obj_alter f k o).
Proof.
  intros Ho Hf Hother. induction Ho as [|[k0 v0] o Hv Ho IH]; simpl; [done|].
  case_decide; simplify_eq; constructor; auto.
Qed.

Lemma sound_readingState (s : Server) : sound s → sound (readingState s).
Proof.
  intros ((Hnd & Hids & Hone & Hidx) & Ht & Hr). split; [|split].
  - split_and!; try done.
    + unfold distinct_keys, readingState, readingPlayers. simpl.
      by rewrite obj_keys_forEach.
    + unfold own_ids, readingState, readingPlayers. simpl.
      by apply forEach_in_order.
    + intros h cb' Hh. cbn [intervals readingState] in Hh.
      by apply lookup_singleton_Some in Hh as [<- _].
  - split; cbn [intervals gameState readingState]; [|by simpl].
    intros Hempty.
    apply (f_equal (λ m : gmap nat Callback, m !! nextHandle s)) in Hempty.
    by rewrite lookup_singleton_eq, lookup_empty in Hempty.
  - cbn [playerFirstAnswers gameState readingState players].
    unfold readingPlayers. eapply Forall_obj_forEach; [exact Hr|].
    intros k p Hp. simpl in Hp. pose proof (record_ok_nonneg _ _ Hp) as Hn.
    destruct Hp as (_ & _ & Hhost & _).
    unfold record_ok, points_ok. simpl. split_and!; [auto|lia|done|done].
Qed.

Lemma obj_alter_compose {V} (f g : V → V) k (o : list (string * V)) :
  obj_alter f k (obj_alter g k o) = obj_alter (f ∘ g) k o.
Proof.
  induction o as [|[k0 v0] o IH]; simpl; [done|].
  case_decide; simpl; rewrite ?decide_True, ?decide_False by done; by rewrite IH.
Qed.

Lemma sound_answerRecorded (s : Server) (sid : string) (answerIndex now : Z) :
  sound s → sound (answerRecorded sid answerIndex now s).
Proof.
  intros ((Hnd & Hids & Hone & Hidx) & Ht & Hr).
  assert (Forall (λ e : string * Player,
            id e.2 = e.1 ∧ record_ok (playerFirstAnswers s) e.2)
            (players (gameState s))) as Hboth.
  { apply Forall_and. by split. }
  assert (Forall (λ e : string * Player,
            id e.2 = e.1 ∧
            record_ok (playerFirstAnswers (answerRecorded sid answerIndex now s)) e.2)
            (players (gameState (answerRecorded sid answerIndex now s)))) as Hboth'.
  { rewrite answerRecorded_first. unfold answerRecorded. simpl.
    rewrite !obj_alter_compose.
    destruct (playerFirstAnswers s !! sid) as [first|] eqn:Hfirst.
    - rewrite obj_alter_compose. apply Forall_obj_alter; [exact Hboth|].
      intros p [Hid (Hd & Hs & Hh & Hf)]. unfold compose, set_answerTime, set_currentAnswer, set_hasChangedAnswer;
        simpl in *.
      split; [done|]. by split_and!.
    - eapply Forall_obj_alter2; [exact Hboth|..].
      + intros p [Hid (Hd & Hs & Hh & Hf)]. unfold compose, set_answerTime, set_currentAnswer, set_hasChangedAnswer;
        simpl in *.
        split; [done|]. split_and!; try done.
        intros Hch a [= <-]. by rewrite Hid, lookup_insert_eq.
      + intros k p Hk [Hid (Hd & Hs & Hh & Hf)]. unfold compose, set_answerTime, set_currentAnswer, set_hasChangedAnswer;
        simpl in *.
        split; [done|]. split_and!; try done.
        intros Hch a Ha. rewrite lookup_insert_ne by congruence. by apply Hf. }
  apply Forall_and in Hboth' as [Hids' Hr'].
  split; [|split]; [|exact Ht|exact Hr'].
  split_and!; try done.
  unfold distinct_keys. by rewrite answerRecorded_keys.
Qed.

Lemma sound_disconnected (s : Server) (sid : string) :
  sound s →
  sound (mkServer (set_players (obj_delete sid (players (gameState s))) (gameState s))
           (delete sid (playerFirstAnswers s)) (timerInterval s) (intervals s)
           (nextHandle s)).
Proof.
  intros ((Hnd & Hids & Hone & Hidx) & Ht & Hr).
  destruct (delete_in_order sid _ Hnd Hids) as [Hnd' Hids'].
  split; [|split]; [by split_and!|exact Ht|]. simpl.
  assert (Forall (λ e : string * Player,
            id e.2 = e.1 ∧ record_ok (playerFirstAnswers s) e.2)
            (players (gameState s))) as Hboth.
  { apply Forall_and. by split. }
  apply (Forall_obj_delete _ sid) in Hboth.
  eapply Forall_impl; [exact Hboth|].
  intros [k p] [[Hid (Hd & Hs & Hh & Hf)] Hk]. simpl in *.
  split_and!; try done. intros Hch a Ha.
  rewrite lookup_delete_ne by congruence. by apply Hf.
Qed.

Lemma disconnect_run (s : Server) (sid : string) :
  disconnect sid s =
    Some ((),
          mkServer (set_players (obj_delete sid (players (gameState s))) (gameState s))
            (delete sid (playerFirstAnswers s)) (timerInterval s) (intervals s)
            (nextHandle s),
          [gameUpdate (set_players (obj_delete sid (players (gameState s)))
                         (gameState s))]).
Proof. reflexivity. Qed.

Lemma tick_idle (s : Server) (h : nat) :
  intervals s !! h = None → tick h s = Some ((), s, []).
Proof.
  intros Hh. unfold tick, get. unfold mbind at 1, M_bind. cbn beta iota.
  by rewrite Hh.
Qed.

(** The firing that finds the countdown at 1: it clears the interval and
    runs the completion callback on a server with countdown 0. *)
Lemma tick_complete (s : Server) (h : nat) (cb : Callback) :
  one_timer s →
  intervals s !! h = Some cb →
  timer (gameState s) ≤ 1 →
  tick h s =
    runCallback cb
      (mkServer (set_timer (timer (gameState s) - 1) (gameState s))
         (playerFirstAnswers s) (timerInterval s) ∅ (nextHandle s)).
Proof.
  intros Hone Hh Ht.
  assert (timerInterval s = Some h) as Hvar by (by eapply Hone).
  assert (delete h (intervals s) = ∅) as Hempty.
  { apply map_eq. intros h'. rewrite lookup_empty, lookup_delete.
    case_decide; [done|].
    destruct (intervals s !! h') as [cb'|] eqn:Hh'; [|done].
    apply Hone in Hh'. congruence. }
  set (s0 := mkServer (set_timer (timer (gameState s) - 1) (gameState s))
               (playerFirstAnswers s) (timerInterval s) ∅ (nextHandle s)).
  unfold tick, get. unfold mbind at 1, M_bind. cbn beta iota. rewrite Hh.
  unfold mbind at 1, M_bind, modify. cbn beta iota.
  unfold mbind at 1, M_bind. cbn beta iota.
  rewrite decide_True by (simpl; lia).
  unfold clearTimerInterval, clearInterval, get, modify.
  unfold mbind at 1 2, M_bind. cbn beta iota.
  cbn [timerInterval set_gameState]. rewrite Hvar. cbn beta iota.
  match goal with
  | |- context [runCallback cb ?x] =>
      replace x with s0 by (unfold s0; simpl; by rewrite Hempty, Hvar)
  end.
  destruct (runCallback cb s0) as [[[[] s'] out]|]; reflexivity.
Qed.

Lemma hoare_runCallback (cb : Callback) :
  hoare at_completion (runCallback cb) (λ _, sound) feedback_ok.
Proof.
  assert (∀ v, hoare at_completion (modify (set_gameState (set_state v)))
                 (λ _, sound) feedback_ok) as Hphase.
  { intros v. apply hoare_modify. intros s [Hs _].
    apply (sound_frame s (set_state v (gameState s))); [done..|]. apply Hs. }
  destruct cb; simpl.
  - eapply hoare_bind; [apply Hphase|]. intros ?.
    apply hoare_startTimer. lia.
  - eapply hoare_bind; [apply hoare_calculateScores|]. intros ?.
    eapply hoare_bind; [apply Hphase|]. intros ?.
    eapply hoare_bind; [by apply hoare_broadcastUpdate|]. intros ?.
    apply hoare_startTimer. lia.
  - eapply hoare_bind; [apply Hphase|]. intros ?.
    by apply hoare_broadcastUpdate.
Qed.

Lemma hoare_tick (h : nat) : hoare sound (tick h) (λ _, sound) feedback_ok.
Proof.
  intros s Hs. pose proof Hs as (Hc & [Ht0 Ht1] & Hr).
  destruct (intervals s !! h) as [cb|] eqn:Hh.
  2:{ eexists _, _, _. split; [by apply tick_idle|]. by split. }
  pose proof (Ht1 h cb Hh) as Hrange.
  destruct (decide (1 < timer (gameState s))) as [Hgt|Hle].
  - eexists _, _, _. split; [by eapply tick_countdown|].
    split; [|by repeat constructor].
    destruct Hc as (Hnd & Hids & Hone & Hidx). split; [|split]; try done.
    split; simpl.
    + intros Hempty. by rewrite Hempty, lookup_empty in Hh.
    + intros h' cb' _. lia.
  - rewrite (tick_complete s h cb) by (try apply Hc; try done; lia).
    apply hoare_runCallback.
    destruct Hc as (Hnd & Hids & Hone & Hidx).
    split; [|done]. split; [|split]; [| |exact Hr].
    + split; [exact Hnd|]. split; [exact Hids|]. split; [|exact Hidx].
      intros h' cb'. cbn [intervals]. by rewrite lookup_empty.
    + split; cbn [intervals gameState].
      * intros _. simpl. lia.
      * intros h' cb'. by rewrite lookup_empty.
Qed.

Lemma hoare_modify_sound (f : Server → Server) :
  (∀ s, sound s → sound (f s)) →
  hoare sound (modify f) (λ _, sound) feedback_ok.
Proof. intros Hf. by apply hoare_modify. Qed.

(** Assignments to the phase and to a valid question index. *)
Lemma sound_set_state (v : GameState) (s : Server) :
  sound s → sound (set_gameState (set_state v) s).
Proof.
  intros Hs. apply (sound_frame s (set_state v (gameState s))); [done..|].
  apply Hs.
Qed.

Lemma sound_set_index (i : Z) (s : Server) :
  0 ≤ i < Z.of_nat (length QUESTIONS) →
  sound s → sound (set_gameState (set_currentQuestionIndex i) s).
Proof.
  intros Hi Hs.
  by apply (sound_frame s (set_currentQuestionIndex i (gameState s))).
Qed.

Lemma hoare_startReadingPhase :
  hoare sound startReadingPhase (λ _, sound) feedback_ok.
Proof.
  intros s Hs. eexists _, _, _.
  split; [apply startReadingPhase_run, Hs|].
  split; [by apply sound_readingState|by repeat constructor].
Qed.

Lemma hoare_hostCommand (sid : string) (m : M unit) :
  hoare sound m (λ _, sound) feedback_ok →
  hoare sound
    (s ← get; if notHost (obj_get sid (players (gameState s))) then mret () else m)
    (λ _, sound) feedback_ok.
Proof.
  intros Hm. eapply hoare_bind; [apply hoare_get with (Q := λ _, sound); auto|].
  intros s. destruct (notHost _); [by apply hoare_ret|done].
Qed.

Lemma sound_zeroed (f : Player → Player) (s : Server) :
  (∀ p, id (f p) = id p ∧ isHost (f p) = isHost p ∧
        score (f p) = 0 ∧ lastScoreChange (f p) = 0 ∧
        (currentAnswer (f p) = None ∨
         (currentAnswer (f p) = currentAnswer p ∧
          hasChangedAnswer (f p) = hasChangedAnswer p))) →
  sound s →
  sound (set_gameState (λ g, set_players (obj_forEach f (players g)) g) s).
Proof.
  intros Hf Hs. apply (sound_players (obj_forEach f)); [done| |].
  - intros ps. apply forEach_in_order. intros p. apply Hf.
  - destruct Hs as (_ & _ & Hr). eapply Forall_obj_forEach; [exact Hr|].
    intros k p (Hd & Hsc & Hh & Hfirst). simpl in *.
    destruct (Hf p) as (Hid & _ & Hs0 & Hd0 & Hans).
    unfold record_ok, points_ok. rewrite Hs0, Hd0.
    split_and!; [auto|done|done|].
    destruct Hans as [Hnone|[Hsame Hflag]].
    + intros _ a. by rewrite Hnone.
    + rewrite Hid, Hsame, Hflag. exact Hfirst.
Qed.

(** Every handler keeps the server sound, never throws, and sends only
    broadcasts and the four reachable kinds of feedback. *)
Lemma hoare_handle (e : Event) : hoare sound (handle e) (λ _, sound) feedback_ok.
Proof.
  destruct e; simpl.
  - unfold join. eapply hoare_bind; [|intros ?; by apply hoare_broadcastUpdate].
    apply hoare_modify_sound. intros s Hs.
    apply (sound_players (obj_set _ _)); [done| |].
    + intros ps. by apply set_in_order.
    + apply Forall_obj_set; [apply Hs|].
      unfold record_ok, points_ok. simpl. split_and!; auto; done.
  - intros s Hs.
    destruct (obj_get sid (players (gameState s))) as [p|] eqn:Hp.
    2:{ eexists _, _, _. split; [apply submitAnswer_skip; by right|]. by split. }
    destruct (decide (state (gameState s) = QUESTION)) as [Hq|Hq].
    2:{ eexists _, _, _. split; [apply submitAnswer_skip; by left|]. by split. }
    eexists _, _, _. split; [by apply submitAnswer_run|].
    split; [by apply sound_answerRecorded|by repeat constructor].
  - apply hoare_hostCommand.
    eapply hoare_bind; [|intros ?; eapply hoare_bind;
                          [|intros ?; apply hoare_startReadingPhase]].
    + apply hoare_modify_sound. intros s. by apply sound_set_index.
    + apply hoare_modify_sound. intros s. apply sound_zeroed.
      intros p. simpl. split_and!; auto.
  - intros s Hs. unfold hostNextQuestion, get.
    unfold mbind at 1, M_bind. cbn beta iota.
    destruct (notHost _); [eexists _, _, _; by split|].
    case_decide as Hlt.
    + set (s1 := set_gameState (λ g,
                   set_currentQuestionIndex (currentQuestionIndex g + 1) g) s).
      assert (sound s1) as Hs1.
      { apply sound_set_index with
          (i := currentQuestionIndex (gameState s) + 1); [|done].
        destruct Hs as ((_ & _ & _ & Hidx) & _). unfold valid_index in Hidx.
        change (Z.of_nat (length QUESTIONS)) with 5 in *. lia. }
      eexists _, _, _. split.
      { unfold mbind, M_bind, modify. fold s1.
        rewrite (startReadingPhase_run s1) by apply Hs1. reflexivity. }
      split; [by apply sound_readingState|by repeat constructor].
    + exists (), (set_gameState (set_state FINAL_RESULTS) s),
        [gameUpdate (set_state FINAL_RESULTS (gameState s))].
      split; [reflexivity|]. split; [|by repeat constructor].
      by apply sound_set_state.
  - apply hoare_hostCommand.
    eapply hoare_bind; [|intros ?; eapply hoare_bind;
      [|intros ?; eapply hoare_bind; [|intros ?; by apply hoare_broadcastUpdate]]].
    + apply hoare_modify_sound. intros s. apply sound_set_state.
    + apply hoare_modify_sound. intros s. by apply sound_set_index.
    + apply hoare_modify_sound. intros s. apply sound_zeroed.
      intros p. simpl. split_and!; auto.
  - intros s Hs. eexists _, _, _. split; [apply disconnect_run|].
    split; [by apply sound_disconnected|by repeat constructor].
  - apply hoare_tick.
Qed.

Lemma sound_initialState : sound initialState.
Proof.
  split; [|split].
  - split_and!; [constructor|constructor|done|done].
  - split; [done|]. intros h cb Hh. cbn [intervals initialState] in Hh.
    by rewrite lookup_empty in Hh.
  - constructor.
Qed.

Lemma hoare_run (es : list Event) : hoare sound (run es) (λ _, sound) feedback_ok.
Proof.
  induction es as [|e es IH]; simpl.
  - by apply hoare_ret.
  - eapply hoare_bind; [apply hoare_handle|]. intros ?. exact IH.
Qed.


(** ** What holds after every run of events *)

(** X2: after any run of events from the initial state the countdown is 0
    when no interval is running and between 1 and 15 while one is; it is
    never negative. *)
Theorem run_timer_bounds (es : list Event) :
  ∃ s out, run es initialState = Some ((), s, out) ∧
    0 ≤ timer (gameState s) ≤ 15 ∧
    (timer (gameState s) = 0 ↔ intervals s = ∅) ∧
    (∀ h, is_Some (intervals s !! h) → timerInterval s = Some h).
Proof.
  destruct (hoare_run es initialState sound_initialState)
    as ([] & s & out & Hrun & ((_ & _ & Hone & _) & [Ht0 Ht1] & _) & _).
  exists s, out. split; [done|].
  destruct (decide (intervals s = ∅)) as [Hempty|Hlive].
  - rewrite (Ht0 Hempty). split_and!; try done; try lia.
    intros h [cb Hh]. by rewrite Hempty, lookup_empty in Hh.
  - apply map_choose in Hlive as (h & cb & Hh).
    pose proof (Ht1 h cb Hh). split_and!; try lia.
    + split; [lia|done].
    + intros h' [cb' Hh']. by eapply Hone.
Qed.

(** X3: after any run of events every participant's last score delta is
    0, 5, 10 or 20 and no more than the score, so scores are never
    negative; a host's score is 0. *)
Theorem run_scores (es : list Event) :
  ∃ s out, run es initialState = Some ((), s, out) ∧
    ∀ k p, obj_get k (players (gameState s)) = Some p →
      (lastScoreChange p = 0 ∨ lastScoreChange p = 5 ∨
       lastScoreChange p = 10 ∨ lastScoreChange p = 20) ∧
      0 ≤ lastScoreChange p ≤ score p ∧
      (isHost p = true → score p = 0 ∧ lastScoreChange p = 0).
Proof.
  destruct (hoare_run es initialState sound_initialState)
    as ([] & s & out & Hrun & (_ & _ & Hr) & _).
  exists s, out. split; [done|]. intros k p [i Hi]%obj_get_lookup.
  rewrite Forall_forall in Hr.
  assert (record_ok (playerFirstAnswers s) p) as Hp.
  { apply (Hr (k, p)), list_elem_of_lookup. by exists i. }
  pose proof (record_ok_nonneg _ _ Hp) as Hn.
  destruct Hp as (Hd & Hs & Hh & _). split_and!; [exact Hd|lia..|].
  intros Hhost. specialize (Hh Hhost). lia.
Qed.

(** X4: after any run of events a participant whose changed flag is false
    and who has a current answer has exactly that answer recorded as first
    answer, so in the scoring pass an unchanged correct answer is always a
    first-try correct answer. *)
Theorem run_first_answers (es : list Event) :
  ∃ s out, run es initialState = Some ((), s, out) ∧
    ∀ k p a, obj_get k (players (gameState s)) = Some p →
      hasChangedAnswer p = false →
      currentAnswer p = Some a →
      id p = k ∧ playerFirstAnswers s !! k = Some a.
Proof.
  destruct (hoare_run es initialState sound_initialState)
    as ([] & s & out & Hrun & ((_ & Hids & _) & _ & Hr) & _).
  exists s, out. split; [done|]. intros k p a [i Hi]%obj_get_lookup Hch Ha.
  unfold own_ids in Hids. rewrite Forall_forall in Hr, Hids.
  assert ((k, p) ∈ players (gameState s)) as Hin
    by (apply list_elem_of_lookup; by exists i).
  pose proof (Hids _ Hin) as Hid. simpl in Hid. split; [done|].
  destruct (Hr _ Hin) as (_ & _ & _ & Hf). rewrite <- Hid. by apply Hf.
Qed.

(** X5: in any run of events every feedback event is one of four: wrong
    answer with 0 points, first five with 20, unchanged with 10, or changed
    in the final seconds with 5.  The plain "correct" reason and the 10
    points for a changed answer are never sent. *)
Theorem run_feedback (es : list Event) :
  ∃ s out, run es initialState = Some ((), s, out) ∧
    ∀ room correct points reason,
      answerFeedback room correct points reason ∈ out →
      ((correct, points, reason) = (false, 0, reason_wrong) ∨
       (correct, points, reason) = (true, 20, reason_first5) ∨
       (correct, points, reason) = (true, 10, reason_unchanged) ∨
       (correct, points, reason) = (true, 5, reason_changed_late)) ∧
      reason ≠ reason_correct ∧ reason ≠ reason_changed.
Proof.
  destruct (hoare_run es initialState sound_initialState)
    as ([] & s & out & Hrun & _ & HE).
  exists s, out. split; [done|]. intros room correct points reason Hin.
  rewrite Forall_forall in HE. specialize (HE _ Hin). simpl in HE.
  split; [exact HE|].
  destruct HE as [[= _ _ ->]|[[= _ _ ->]|[[= _ _ ->]|[= _ _ ->]]]];
    split; discriminate.
Qed.


(** ** More on one scoring pass *)

Lemma award_wrong (q : Question) (fa : gmap string Z) (t c : Z) (p : Player) :
  currentAnswer p ≠ Some (correctAnswer q) →
  award q fa t c p = (0, reason_wrong, c).
Proof. intros Hw. unfold award. by rewrite bool_decide_eq_false_2. Qed.

(** X6: a non-host participant whose final answer is not the correct
    option (or who has none) gets 0 points, whatever was submitted before:
    the score stays, the last delta is 0, and the feedback says
    incorrect. *)
Theorem wrong_answer_award (s : Server) (q : Question) (k : string) (p : Player) :
  distinct_keys s →
  question_at (currentQuestionIndex (gameState s)) = Some q →
  obj_get k (players (gameState s)) = Some p →
  isHost p = false →
  currentAnswer p ≠ Some (correctAnswer q) →
  ∃ s' out p',
    calculateScores s = Some ((), s', out) ∧
    obj_get k (players (gameState s')) = Some p' ∧
    lastScoreChange p' = 0 ∧ score p' = score p ∧
    answerFeedback (id p) false 0 reason_wrong ∈ out.
Proof.
  intros Hnd Hq Hget Hhost Hwrong.
  destruct (calculateScores_award s q k p Hnd Hq Hget Hhost)
    as (s' & out & c & Hrun & Hp' & Hev).
  rewrite (award_wrong q _ _ c p Hwrong) in Hp', Hev.
  rewrite bool_decide_eq_false_2 in Hev by done.
  eexists _, _, _. split; [exact Hrun|]. split; [exact Hp'|].
  simpl. split_and!; [done|lia|done].
Qed.

Lemma wrong_answer_award_witness :
  ∃ s' out p',
    calculateScores answeringOpens = Some ((), s', out) ∧
    obj_get "a" (players (gameState s')) = Some p' ∧
    lastScoreChange p' = 0 ∧ score p' = 0 ∧
    answerFeedback "a" false 0 reason_wrong ∈ out.
Proof.
  apply (wrong_answer_award answeringOpens
           (mkQuestion 1 "เจ้าบ่าวและเจ้าสาวเจอกันครั้งแรกที่ไหน?"
              ["มหาวิทยาลัย"; "ที่ทำงาน"; "ร้านกาแฟ"; "งานแต่งเพื่อน"] 0)
           "a" (joined "a" "a" false None)).
  - by apply (bool_decide_unpack _).
  - reflexivity.
  - reflexivity.
  - reflexivity.
  - discriminate.
Defined.

(** X9: with a question index outside the bank, [calculateScores] throws
    as soon as there is a non-host participant (it reads
    [currentQuestion.correctAnswer] of [undefined]), and does nothing when
    there is none. *)
Theorem calculateScores_undefined_question (s : Server) :
  question_at (currentQuestionIndex (gameState s)) = None →
  ((∃ e, e ∈ players (gameState s) ∧ isHost e.2 = false) →
   calculateScores s = None) ∧
  ((∀ e, e ∈ players (gameState s) → isHost e.2 = true) →
   calculateScores s = Some ((), s, [])).
Proof.
  intros Hq.
  assert (calculateScores s = scoreLoop None 0 (scoringOrder (gameState s)) s)
    as ->.
  { unfold calculateScores, get. unfold mbind at 1, M_bind. cbn beta iota.
    rewrite Hq.
    by destruct (scoreLoop None 0 (scoringOrder (gameState s)) s)
      as [[[[] ?] ?]|]. }
  split.
  - intros (e & Hin & Hnh).
    assert (e ∈ scoringOrder (gameState s)) as He
      by (by apply scoringOrder_elem_of).
    destruct (scoringOrder (gameState s)) as [|e0 l]; [|reflexivity].
    by apply elem_of_nil in He.
  - intros Hall.
    destruct (scoringOrder (gameState s)) as [|e0 l] eqn:Hl; [reflexivity|].
    assert (e0 ∈ scoringOrder (gameState s)) as He by (rewrite Hl; by left).
    apply scoringOrder_elem_of in He as [Hnh Hin].
    rewrite (Hall _ Hin) in Hnh. done.
Qed.

Lemma calculateScores_undefined_question_witness :
  calculateScores (set_gameState (set_currentQuestionIndex 5) answeringOpens) = None.
Proof.
  apply (calculateScores_undefined_question
           (set_gameState (set_currentQuestionIndex 5) answeringOpens) eq_refl).
  exists ("a", joined "a" "a" false None). split; [|reflexivity].
  apply list_elem_of_lookup. by exists 1%nat.
Defined.

(** X7: a scoring pass writes scores and last deltas only.  Phase, index,
    countdown, first-answer table and timers are as before, the players
    keep their keys and order, a host's record is untouched, and a
    non-host's last delta is 0, 5, 10 or 20 and is added to the score; no
    other field of a record changes, and no score goes down. *)
Theorem calculateScores_writes_scores_only (s : Server) (q : Question) :
  distinct_keys s →
  question_at (currentQuestionIndex (gameState s)) = Some q →
  ∃ s' out,
    calculateScores s = Some ((), s', out) ∧
    (state (gameState s'), currentQuestionIndex (gameState s'),
     questions (gameState s'), timer (gameState s'))
      = (state (gameState s), currentQuestionIndex (gameState s),
         questions (gameState s), timer (gameState s)) ∧
    (playerFirstAnswers s', timerInterval s', intervals s', nextHandle s')
      = (playerFirstAnswers s, timerInterval s, intervals s, nextHandle s) ∧
    (players (gameState s')).*1 = (players (gameState s)).*1 ∧
    ∀ k p, obj_get k (players (gameState s)) = Some p →
      ∃ p', obj_get k (players (gameState s')) = Some p' ∧
        (id p', name p', avatar p', currentAnswer p', hasChangedAnswer p',
         answerTime p', isHost p')
          = (id p, name p, avatar p, currentAnswer p, hasChangedAnswer p,
             answerTime p, isHost p) ∧
        (isHost p = true → p' = p) ∧
        (isHost p = false →
           (lastScoreChange p' = 0 ∨ lastScoreChange p' = 5 ∨
            lastScoreChange p' = 10 ∨ lastScoreChange p' = 20) ∧
           score p' = score p + lastScoreChange p').
Proof.
  intros Hnd Hq. eexists _, _. split; [by apply calculateScores_run|].
  split_and!; try reflexivity.
  - simpl. apply loopPlayers_keys.
  - intros k p Hget. simpl. destruct (isHost p) eqn:Hhost.
    + exists p. rewrite loopPlayers_other by (by eapply host_not_scored).
      split_and!; try done. by rewrite Hhost.
    + destruct (obj_get_lookup _ _ _ Hget) as [i Hi].
      destruct (calculateScores_turn s q i k p Hnd Hi Hhost)
        as (l1 & l2 & c & _ & _ & _ & _ & Hp' & _).
      eexists. split; [exact Hp'|]. simpl. split_and!; try done.
      * by rewrite Hhost.
      * intros _. split; [apply award_points|done].
Qed.

Lemma calculateScores_writes_scores_only_witness :
  ∃ s' out,
    calculateScores sixAnswered = Some ((), s', out) ∧
    state (gameState s') = QUESTION ∧
    timer (gameState s') = 1 ∧
    playerFirstAnswers s' = playerFirstAnswers sixAnswered ∧
    (players (gameState s')).*1 = ["h"; "a"; "b"; "c"; "d"; "e"; "f"] ∧
    obj_get "h" (players (gameState s')) = Some (joined "h" "Host" true None).
Proof.
  destruct (calculateScores_writes_scores_only sixAnswered
              (mkQuestion 1 "เจ้าบ่าวและเจ้าสาวเจอกันครั้งแรกที่ไหน?"
                 ["มหาวิทยาลัย"; "ที่ทำงาน"; "ร้านกาแฟ"; "งานแต่งเพื่อน"] 0))
    as (s' & out & Hrun & Hg & Hsrv & Hkeys & Hps).
  - by apply (bool_decide_unpack _).
  - reflexivity.
  - destruct (Hps "h" (joined "h" "Host" true None) eq_refl)
      as (p' & Hget & _ & Hsame & _).
    rewrite (Hsame eq_refl) in Hget.
    injection Hg as Hst _ _ Htm. injection Hsrv as Hfa _ _ _.
    exists s', out. split_and!; [exact Hrun| | | | |exact Hget].
    + by rewrite Hst.
    + by rewrite Htm.
    + exact Hfa.
    + by rewrite Hkeys.
Defined.

Lemma award_top (q : Question) (fa : gmap string Z) (t c : Z) (p : Player) :
  (award q fa t c p).1.1 = 20 ↔ qualifies q fa p ∧ c < 5.
Proof.
  destruct (decide (qualifies q fa p)) as [Hq|Hq].
  - rewrite award_tiered by done.
    case_decide as Hc; simpl; split; intros Hx;
      first [done | lia | by destruct Hx].
  - split; [|by intros [? _]]. unfold award, qualifies in *.
    destruct (hasChangedAnswer p); repeat case_bool_decide; simpl;
      repeat case_decide; simpl; try done; intros _; exfalso; apply Hq; done.
Qed.

Lemma loopEmits_top (q : Question) (fa : gmap string Z) (t c : Z)
    (l : list (string * Player)) :
  length (filter (λ e, feedbackPoints e = Some 20) (loopEmits q fa t c l))
  = (Z.to_nat (5 - c) `min`
       length (filter (λ e : string * Player, qualifies q fa e.2) l))%nat.
Proof.
  revert c. induction l as [|e l IH]; intros c; simpl.
  - by rewrite Nat.min_0_r.
  - rewrite !filter_cons. simpl.
    pose proof (award_top q fa t c e.2) as Htop.
    pose proof (award_count q fa t c e.2) as Hcount.
    rewrite Hcount. clear Hcount.
    destruct (decide (qualifies q fa e.2)) as [Hq|Hq].
    + destruct (decide (c < 5)) as [Hc|Hc].
      * rewrite decide_True by (f_equal; by apply Htop).
        simpl. rewrite IH. lia.
      * rewrite decide_False by (intros [= H]; apply Htop in H; lia).
        rewrite IH. simpl. lia.
    + rewrite decide_False by (intros [= H]; apply Htop in H; tauto).
      by rewrite IH.
Qed.

(** X8: one scoring pass sends the 20-point award to the first five
    first-try correct participants only: the number of 20-point feedback
    events is the number of such non-host participants, capped at 5. *)
Theorem top_awards_capped (s : Server) (q : Question) :
  question_at (currentQuestionIndex (gameState s)) = Some q →
  ∃ s' out,
    calculateScores s = Some ((), s', out) ∧
    length (filter (λ e, feedbackPoints e = Some 20) out)
    = (5 `min`
         length (filter (λ e : string * Player,
                           qualifies q (playerFirstAnswers s) e.2 ∧
                           isHost e.2 = false)
                   (players (gameState s))))%nat.
Proof.
  intros Hq. eexists _, _. split; [by apply calculateScores_run|].
  rewrite loopEmits_top. f_equal. unfold scoringOrder.
  rewrite Array_sort_perm. by rewrite list_filter_filter.
Qed.

Lemma top_awards_capped_witness :
  ∃ s' out,
    calculateScores sixAnswered = Some ((), s', out) ∧
    length (filter (λ e, feedbackPoints e = Some 20) out) = 5%nat.
Proof.
  destruct (top_awards_capped sixAnswered
              (mkQuestion 1 "เจ้าบ่าวและเจ้าสาวเจอกันครั้งแรกที่ไหน?"
                 ["มหาวิทยาลัย"; "ที่ทำงาน"; "ร้านกาแฟ"; "งานแต่งเพื่อน"] 0)
              eq_refl) as (s' & out & Hrun & Hcount).
  exists s', out. split; [exact Hrun|]. rewrite Hcount. reflexivity.
Defined.


(** ** Reset, join and disconnect *)

(** X10: [hostResetGame] from a host, in any phase, goes to the lobby
    with question index 0 and zeroes every score and last delta, clears
    every current answer and changed flag, and broadcasts once.  It leaves
    the answer times, the first-answer table, the countdown and the
    running interval as they were. *)
Theorem hostResetGame_host (s : Server) (sid : string) (p : Player) :
  obj_get sid (players (gameState s)) = Some p →
  isHost p = true →
  ∃ s', hostResetGame sid s = Some ((), s', [gameUpdate (gameState s')]) ∧
    state (gameState s') = LOBBY ∧
    currentQuestionIndex (gameState s') = 0 ∧
    (questions (gameState s'), timer (gameState s'))
      = (questions (gameState s), timer (gameState s)) ∧
    (playerFirstAnswers s', timerInterval s', intervals s', nextHandle s')
      = (playerFirstAnswers s, timerInterval s, intervals s, nextHandle s) ∧
    (players (gameState s')).*1 = (players (gameState s)).*1 ∧
    ∀ k q, obj_get k (players (gameState s)) = Some q →
      obj_get k (players (gameState s')) = Some (cleared_for_game q).
Proof.
  intros Hp Hhost. eexists. split.
  { unfold hostResetGame, get. unfold mbind at 1, M_bind. cbn beta iota.
    rewrite Hp. unfold notHost. rewrite Hhost. reflexivity. }
  simpl. split_and!; try reflexivity.
  - apply obj_keys_forEach.
  - intros k q Hk. by rewrite obj_get_forEach, Hk.
Qed.

Lemma hostResetGame_host_witness :
  ∃ s', hostResetGame "h" whileAnswering = Some ((), s', [gameUpdate (gameState s')]) ∧
    state (gameState s') = LOBBY ∧
    timer (gameState s') = 8 ∧
    intervals s' = {[1%nat := endQuestion]} ∧
    playerFirstAnswers s' = playerFirstAnswers whileAnswering ∧
    obj_get "b" (players (gameState s'))
    = Some (mkPlayer "b" "b" None 0 0 None false (Some 1700000000200) false).
Proof.
  destruct (hostResetGame_host whileAnswering "h" (joined "h" "Host" true None)
              eq_refl eq_refl)
    as (s' & Hrun & Hst & _ & Hg & Hsrv & _ & Hps).
  injection Hg as _ Htm. injection Hsrv as Hfa _ Hiv _.
  exists s'. split_and!; [exact Hrun|exact Hst|exact Htm|exact Hiv|exact Hfa|].
  exact (Hps "b" (answered "b" 0 0 (Some 0) true (Some 1700000000200)) eq_refl).
Defined.

Lemma obj_get_delete {V} k k' (o : list (string * V)) :
  obj_get k (obj_delete k' o) = if decide (k' = k) then None else obj_get k o.
Proof.
  induction o as [|[k0 v0] o IH]; simpl; [by case_decide|].
  repeat (case_decide; simplify_eq/=); done.
Qed.

Lemma obj_delete_filter {V} k (o : list (string * V)) :
  obj_delete k o = filter (λ e, e.1 ≠ k) o.
Proof.
  induction o as [|[k0 v0] o IH]; simpl; [done|].
  rewrite filter_cons. simpl. rewrite IH.
  destruct (decide (k0 = k)) as [->|Hne].
  - by rewrite decide_False by (by intros []).
  - by rewrite decide_True.
Qed.

(** X11: [disconnect] removes the caller's record and first-answer entry
    and broadcasts once; the other records, their order, the other first
    answers and the rest of the server stay as they were. *)
Theorem disconnect_spec (s : Server) (sid : string) :
  ∃ s', disconnect sid s = Some ((), s', [gameUpdate (gameState s')]) ∧
    obj_get sid (players (gameState s')) = None ∧
    playerFirstAnswers s' !! sid = None ∧
    players (gameState s') = filter (λ e, e.1 ≠ sid) (players (gameState s)) ∧
    (∀ k, k ≠ sid →
       obj_get k (players (gameState s')) = obj_get k (players (gameState s)) ∧
       playerFirstAnswers s' !! k = playerFirstAnswers s !! k) ∧
    (state (gameState s'), currentQuestionIndex (gameState s'),
     questions (gameState s'), timer (gameState s'))
      = (state (gameState s), currentQuestionIndex (gameState s),
         questions (gameState s), timer (gameState s)) ∧
    (timerInterval s', intervals s', nextHandle s')
      = (timerInterval s, intervals s, nextHandle s).
Proof.
  eexists (mkServer _ _ _ _ _). split; [apply disconnect_run|].
  simpl. split_and!; try reflexivity.
  - by rewrite obj_get_delete, decide_True.
  - apply lookup_delete_eq.
  - apply obj_delete_filter.
  - intros k Hk. rewrite obj_get_delete, decide_False by done.
    by rewrite lookup_delete_ne.
Qed.

Lemma obj_delete_set_fresh {V} k (v : V) (o : list (string * V)) :
  obj_get k o = None → obj_delete k (obj_set k v o) = o.
Proof.
  induction o as [|[k0 v0] o IH]; simpl.
  - by rewrite decide_True.
  - case_decide; [done|]. intros Hget. simpl.
    rewrite decide_False by done. by rewrite IH.
Qed.

(** X12: a connection that was not in the session, joins and disconnects
    leaves the server exactly as it was; the two commands send two
    broadcasts, the first with the new participant last in the players
    object. *)
Theorem join_disconnect_restores (s : Server) (sid name : string) (isHost : bool)
    (avatar : option string) :
  obj_get sid (players (gameState s)) = None →
  playerFirstAnswers s !! sid = None →
  run [ev_join sid name isHost avatar; ev_disconnect sid] s
  = Some ((), s,
          [gameUpdate
             (set_players
                (players (gameState s)
                 ++ [(sid, mkPlayer sid name avatar 0 0 None false None isHost)])
                (gameState s));
           gameUpdate (gameState s)]).
Proof.
  intros Hget Hfirst.
  assert (obj_set sid (mkPlayer sid name avatar 0 0 None false None isHost)
            (players (gameState s))
          = players (gameState s)
            ++ [(sid, mkPlayer sid name avatar 0 0 None false None isHost)])
    as Hset.
  { clear Hfirst. induction (players (gameState s)) as [|[k0 v0] o IH];
      simpl in *; [done|].
    case_decide; [done|]. by rewrite IH. }
  cbn [run handle]. unfold join, broadcastUpdate, get, modify, emit.
  unfold mbind, mret, M_bind, M_ret. cbn beta iota.
  rewrite disconnect_run. simpl.
  rewrite obj_delete_set_fresh by done.
  rewrite delete_id by done. rewrite Hset.
  by destruct s as [[] ? ? ? ?].
Qed.

Lemma join_disconnect_restores_witness :
  run [ev_join "z" "late" false None; ev_disconnect "z"] whileAnswering
  = Some ((), whileAnswering,
          [gameUpdate
             (set_players
                (players (gameState whileAnswering)
                 ++ [("z", mkPlayer "z" "late" None 0 0 None false None false)])
                (gameState whileAnswering));
           gameUpdate (gameState whileAnswering)]).
Proof.
  apply (join_disconnect_restores whileAnswering "z" "late" false None);
    reflexivity.
Defined.


Lemma obj_get_None {V} k (o : list (string * V)) :
  obj_get k o = None ↔ k ∉ o.*1.
Proof.
  induction o as [|[k0 v0] o IH]; csimpl.
  - split; [intros _; apply not_elem_of_nil|done].
  - rewrite not_elem_of_cons. case_decide; simplify_eq.
    + split; [done|]. by intros [? _].
    + rewrite IH. split; [by split|by intros [_ ?]].
Qed.

(** X13: a participant who disconnects before the scoring pass is not
    scored: the pass sends no feedback to its room and creates no record
    for it. *)
Theorem disconnected_not_scored (s : Server) (sid : string) (q : Question) :
  own_ids s →
  question_at (currentQuestionIndex (gameState s)) = Some q →
  ∃ s1 out1 s2 out2,
    disconnect sid s = Some ((), s1, out1) ∧
    calculateScores s1 = Some ((), s2, out2) ∧
    feedbackTo sid out2 = [] ∧
    obj_get sid (players (gameState s2)) = None.
Proof.
  intros Hids Hq. eexists _, _, _, _.
  split; [apply disconnect_run|].
  split; [by apply calculateScores_run|].
  cbn [gameState players set_gameState set_players playerFirstAnswers timer].
  split.
  - apply feedbackTo_none. intros [k p] [_ Hin]%scoringOrder_elem_of.
    cbn [players set_players] in Hin. rewrite obj_delete_filter in Hin.
    apply list_elem_of_filter in Hin as [Hne Hin].
    unfold own_ids in Hids. rewrite Forall_forall in Hids.
    specialize (Hids _ Hin). simpl in *. congruence.
  - apply obj_get_None. rewrite loopPlayers_keys.
    apply obj_get_None. by rewrite obj_get_delete, decide_True.
Qed.

Lemma disconnected_not_scored_witness :
  ∃ s1 out1 s2 out2,
    disconnect "b" atBoundary = Some ((), s1, out1) ∧
    calculateScores s1 = Some ((), s2, out2) ∧
    feedbackTo "b" out2 = [] ∧
    obj_get "b" (players (gameState s2)) = None.
Proof.
  apply (disconnected_not_scored atBoundary "b"
           (mkQuestion 1 "เจ้าบ่าวและเจ้าสาวเจอกันครั้งแรกที่ไหน?"
              ["มหาวิทยาลัย"; "ที่ทำงาน"; "ร้านกาแฟ"; "งานแต่งเพื่อน"] 0)).
  - unfold own_ids. by repeat constructor.
  - reflexivity.
Defined.

(** X14: [join] keeps the order of the players object: a connection that
    is already in it keeps its place, a new one goes last; no other key is
    added or dropped. *)
Theorem join_order (s : Server) (sid name : string) (isHost : bool)
    (avatar : option string) :
  ∃ s', join sid name isHost avatar s = Some ((), s', [gameUpdate (gameState s')]) ∧
    (players (gameState s')).*1
    = (if decide (sid ∈ (players (gameState s)).*1)
       then (players (gameState s)).*1
       else (players (gameState s)).*1 ++ [sid]) ∧
    (timerInterval s', intervals s', nextHandle s')
      = (timerInterval s, intervals s, nextHandle s) ∧
    (state (gameState s'), currentQuestionIndex (gameState s'), timer (gameState s'))
      = (state (gameState s), currentQuestionIndex (gameState s), timer (gameState s)).
Proof.
  eexists (mkServer _ _ _ _ _). split; [reflexivity|].
  simpl. split; [apply obj_keys_set|done].
Qed.

(** ** The countdown of [startTimer] *)

Lemma run_app (es1 es2 : list Event) (s1 : Server) :
  ∀ s out1, run es1 s = Some ((), s1, out1) →
  run (es1 ++ es2) s
  = match run es2 s1 with
    | Some ((), s2, out2) => Some ((), s2, out1 ++ out2)
    | None => None
    end.
Proof.
  induction es1 as [|e es1 IH]; intros s out1.
  - intros [= -> <-]. simpl. by destruct (run es2 s1) as [[[[] ?] ?]|].
  - cbn [app run]. unfold mbind, M_bind.
    destruct (handle e s) as [[[[] s0] out0]|]; [|done].
    destruct (run es1 s0) as [[[[] s1'] out1']|] eqn:Hrun; [|done].
    intros [= -> <-]. rewrite (IH _ _ Hrun).
    destruct (run es2 s1) as [[[[] s2] out2]|]; [|done].
    by rewrite app_assoc.
Qed.

Lemma run_cons (e : Event) (es : list Event) (s s1 : Server) (out1 : list Emit) :
  handle e s = Some ((), s1, out1) →
  run (e :: es) s
  = match run es s1 with
    | Some ((), s2, out2) => Some ((), s2, out1 ++ out2)
    | None => None
    end.
Proof.
  intros He. cbn [run]. unfold mbind at 1, M_bind. rewrite He.
  by destruct (run es s1) as [[[[] s2] out2]|].
Qed.

(** The first [n] firings of a countdown that stands above [n]. *)
Lemma countdown_run (n : nat) (s : Server) (h : nat) (cb : Callback) :
  intervals s !! h = Some cb →
  Z.of_nat n < timer (gameState s) →
  run (replicate n (ev_tick h)) s
  = Some ((), set_gameState (set_timer (timer (gameState s) - Z.of_nat n)) s,
          (λ i : nat, gameUpdate (set_timer (timer (gameState s) - Z.of_nat i)
                                   (gameState s))) <$> seq 1 n).
Proof.
  revert s. induction n as [|n IH]; intros s Hh Ht.
  - simpl. rewrite Z.sub_0_r. by destruct s as [[] ? ? ? ?].
  - cbn [replicate]. erewrite run_cons; last first.
    { cbn [handle]. apply (tick_countdown s h cb Hh). lia. }
    rewrite IH; [|done|simpl; lia].
    f_equal. f_equal; [f_equal|].
    + destruct s as [[] ? ? ? ?]. unfold set_gameState, set_timer. simpl.
      do 2 f_equal. lia.
    + cbn [seq fmap list_fmap app]. f_equal.
      rewrite <- (fmap_S_seq 1 n), <- list_fmap_compose.
      apply list_fmap_ext. intros _ i _. simpl.
      destruct s as [[] ? ? ? ?]. unfold set_timer. simpl. do 2 f_equal. lia.
Qed.


Lemma one_timer_idle (s : Server) : intervals s = ∅ → one_timer s.
Proof. intros He h cb. by rewrite He, lookup_empty. Qed.

(** A countdown that is left alone runs to its completion callback. *)
Lemma countdown_complete (s : Server) (h : nat) (cb : Callback) :
  one_timer s →
  intervals s !! h = Some cb →
  1 ≤ timer (gameState s) →
  run (replicate (Z.to_nat (timer (gameState s))) (ev_tick h)) s
  = match runCallback cb (completionState s) with
    | Some ((), s2, out2) => Some ((), s2, countdownUpdates s ++ out2)
    | None => None
    end.
Proof.
  intros Hone Hh Ht.
  replace (Z.to_nat (timer (gameState s)))
    with (Z.to_nat (timer (gameState s)) - 1 + 1)%nat by lia.
  rewrite replicate_add.
  erewrite run_app; last first.
  { apply (countdown_run _ s h cb Hh). lia. }
  set (s1 := set_gameState
               (set_timer (timer (gameState s)
                           - Z.of_nat (Z.to_nat (timer (gameState s)) - 1))) s).
  assert (tick h s1 = runCallback cb (completionState s)) as Htick.
  { rewrite (tick_complete s1 h cb); [|exact Hone|exact Hh|simpl; lia].
    unfold completionState, s1. simpl. f_equal. f_equal.
    destruct (gameState s). unfold set_timer. simpl in *. f_equal. lia. }
  cbn [replicate run handle]. unfold mbind, M_bind. rewrite Htick.
  unfold countdownUpdates.
  destruct (runCallback cb (completionState s)) as [[[[] s2] out2]|]; [|done].
  unfold mret, M_ret. by rewrite app_nil_r.
Qed.

Lemma runCallback_endReading_run (s : Server) :
  one_timer s →
  runCallback endReading s
  = Some ((),
          mkServer (set_timer 15 (set_state QUESTION (gameState s)))
            (playerFirstAnswers s) (Some (nextHandle s))
            {[nextHandle s := endQuestion]} (S (nextHandle s)),
          [gameUpdate (set_timer 15 (set_state QUESTION (gameState s)))]).
Proof.
  intros Hone. unfold runCallback. unfold mbind at 1, M_bind, modify.
  by rewrite startTimer_run.
Qed.

Lemma runCallback_endQuestion_run (s : Server) (q : Question) :
  one_timer s →
  question_at (currentQuestionIndex (gameState s)) = Some q →
  let ps := loopPlayers q (playerFirstAnswers s) (timer (gameState s)) 0
              (scoringOrder (gameState s)) (players (gameState s)) in
  runCallback endQuestion s
  = Some ((),
          mkServer (set_timer 5 (set_state REVEAL (set_players ps (gameState s))))
            (playerFirstAnswers s) (Some (nextHandle s))
            {[nextHandle s := endReveal]} (S (nextHandle s)),
          loopEmits q (playerFirstAnswers s) (timer (gameState s)) 0
            (scoringOrder (gameState s))
          ++ [gameUpdate (set_state REVEAL (set_players ps (gameState s)));
              gameUpdate (set_timer 5 (set_state REVEAL (set_players ps (gameState s))))]).
Proof.
  intros Hone Hq ps. unfold runCallback. unfold mbind at 1, M_bind.
  rewrite (calculateScores_run s q Hq). fold ps.
  unfold mbind at 1, M_bind, modify.
  unfold mbind at 1, M_bind, broadcastUpdate, get, emit.
  unfold mbind at 1, M_bind.
  rewrite startTimer_run by exact Hone. reflexivity.
Qed.

Lemma runCallback_endReveal_run (s : Server) :
  runCallback endReveal s
  = Some ((), set_gameState (set_state LEADERBOARD) s,
          [gameUpdate (set_state LEADERBOARD (gameState s))]).
Proof. reflexivity. Qed.

(** What a completion callback leaves when the question index is in the
    bank. *)
Lemma runCallback_phase (cb : Callback) (s : Server) :
  one_timer s →
  0 ≤ currentQuestionIndex (gameState s) < Z.of_nat (length QUESTIONS) →
  ∃ s' out, runCallback cb s = Some ((), s', out) ∧
    state (gameState s') = phaseAfter cb ∧
    currentQuestionIndex (gameState s') = currentQuestionIndex (gameState s).
Proof.
  intros Hone Hidx. destruct cb.
  - eexists _, _. split; [by apply runCallback_endReading_run|done].
  - destruct (question_at (currentQuestionIndex (gameState s))) as [q|] eqn:Hq.
    + eexists _, _. split; [by apply runCallback_endQuestion_run|done].
    + unfold question_at in Hq. case_decide; [|lia].
      apply lookup_ge_None in Hq. change (length QUESTIONS) with 5%nat in *. lia.
  - eexists _, _. split; [apply runCallback_endReveal_run|done].
Qed.


(** X15: the countdown that [startTimer] starts.  It shows [duration] at
    once; each of the first firings takes one off and broadcasts; the
    firing that reaches 0 broadcasts nothing itself, clears the interval
    and runs the completion callback on a server with countdown 0; and
    firings of any other handle do nothing. *)
Theorem startTimer_countdown (s : Server) (d : Z) (cb : Callback) :
  one_timer s →
  1 ≤ d →
  ∃ s1, startTimer d cb s = Some ((), s1, [gameUpdate (gameState s1)]) ∧
    timer (gameState s1) = d ∧
    (∀ n : nat, Z.of_nat n < d →
       run (replicate n (ev_tick (nextHandle s))) s1
       = Some ((), set_gameState (set_timer (d - Z.of_nat n)) s1,
               (λ i : nat, gameUpdate (set_timer (d - Z.of_nat i) (gameState s1)))
                 <$> seq 1 n)) ∧
    run (replicate (Z.to_nat d) (ev_tick (nextHandle s))) s1
    = match runCallback cb (completionState s1) with
      | Some ((), s2, out2) => Some ((), s2, countdownUpdates s1 ++ out2)
      | None => None
      end ∧
    timer (gameState (completionState s1)) = 0 ∧
    intervals (completionState s1) = ∅ ∧
    ∀ h, h ≠ nextHandle s → tick h s1 = Some ((), s1, []).
Proof.
  intros Hone Hd.
  set (s1 := mkServer (set_timer d (gameState s)) (playerFirstAnswers s)
               (Some (nextHandle s)) {[nextHandle s := cb]} (S (nextHandle s))).
  assert (intervals s1 !! nextHandle s = Some cb) as Hh
    by apply lookup_singleton_eq.
  assert (one_timer s1) as Hone1.
  { intros h cb' Hl. unfold s1 in Hl. cbn [intervals] in Hl.
    by apply lookup_singleton_Some in Hl as [<- _]. }
  exists s1. split; [by apply startTimer_run|]. split; [done|]. split_and!.
  - intros n Hn. by apply (countdown_run n s1 _ cb).
  - by apply (countdown_complete s1 _ cb).
  - done.
  - done.
  - intros h Hne. apply tick_idle. by apply lookup_singleton_ne.
Qed.

Lemma startTimer_countdown_witness :
  ∃ s1, startTimer 5 endReveal initialState = Some ((), s1, [gameUpdate (gameState s1)]) ∧
    run (replicate 3 (ev_tick 0%nat)) s1
    = Some ((), set_gameState (set_timer 2) s1,
            [gameUpdate (set_timer 4 (gameState s1));
             gameUpdate (set_timer 3 (gameState s1));
             gameUpdate (set_timer 2 (gameState s1))]) ∧
    tick 7%nat s1 = Some ((), s1, []).
Proof.
  destruct (startTimer_countdown initialState 5 endReveal)
    as (s1 & Hrun & _ & Hcount & _ & _ & _ & Hidle).
  - by apply one_timer_idle.
  - lia.
  - exists s1. split; [exact Hrun|]. split.
    + apply (Hcount 3%nat). lia.
    + by apply Hidle.
Defined.

Lemma hostResetGame_run (s : Server) (sid : string) (p : Player) :
  obj_get sid (players (gameState s)) = Some p →
  isHost p = true →
  let g := set_players
             (obj_forEach (λ p, set_hasChangedAnswer false
                (set_currentAnswer None (set_lastScoreChange 0 (set_score 0 p))))
                (players (gameState s)))
             (set_currentQuestionIndex 0 (set_state LOBBY (gameState s))) in
  hostResetGame sid s
  = Some ((), mkServer g (playerFirstAnswers s) (timerInterval s) (intervals s)
                (nextHandle s),
          [gameUpdate g]).
Proof.
  intros Hp Hhost. unfold hostResetGame, get. unfold mbind at 1, M_bind.
  cbn beta iota. rewrite Hp. unfold notHost. rewrite Hhost. reflexivity.
Qed.

(** X16: [hostResetGame] does not stop a running countdown.  When the
    host resets while the interval [h] is counting, the firings of [h]
    go on in the lobby, and the one that reaches 0 runs the completion
    callback of the phase that was reset: the session leaves the lobby
    for the phase after it, at question 0. *)
Theorem reset_keeps_countdown (s : Server) (sid : string) (p : Player)
    (h : nat) (cb : Callback) :
  one_timer s →
  obj_get sid (players (gameState s)) = Some p →
  isHost p = true →
  intervals s !! h = Some cb →
  1 ≤ timer (gameState s) →
  ∃ s1 out1 s' out,
    hostResetGame sid s = Some ((), s1, out1) ∧
    state (gameState s1) = LOBBY ∧
    run (replicate (Z.to_nat (timer (gameState s))) (ev_tick h)) s1
      = Some ((), s', out) ∧
    state (gameState s') = phaseAfter cb ∧
    currentQuestionIndex (gameState s') = 0.
Proof.
  intros Hone Hp Hhost Hh Ht.
  pose proof (hostResetGame_run s sid p Hp Hhost) as Hreset.
  cbv zeta in Hreset.
  set (s1 := mkServer _ _ _ _ _) in Hreset.
  destruct (runCallback_phase cb (completionState s1)) as (s' & out & Hcb & Hst & Hidx).
  { by apply one_timer_idle. }
  { simpl. change (length QUESTIONS) with 5%nat. lia. }
  eexists s1, _, s', (countdownUpdates s1 ++ out).
  split; [exact Hreset|]. split; [done|]. split; [|by split].
  change (timer (gameState s)) with (timer (gameState s1)).
  rewrite (countdown_complete s1 h cb); [by rewrite Hcb|exact Hone|exact Hh|exact Ht].
Qed.

Lemma reset_keeps_countdown_witness :
  ∃ s1 out1 s' out,
    hostResetGame "h" whileAnswering = Some ((), s1, out1) ∧
    state (gameState s1) = LOBBY ∧
    run (replicate 8 (ev_tick 1%nat)) s1 = Some ((), s', out) ∧
    state (gameState s') = REVEAL ∧
    currentQuestionIndex (gameState s') = 0.
Proof.
  apply (reset_keeps_countdown whileAnswering "h" (joined "h" "Host" true None)
           1%nat endQuestion).
  - intros h cb Hl. cbn [intervals whileAnswering] in Hl. unfold whileAnswering in Hl.
    cbn [intervals] in Hl.
    apply lookup_singleton_Some in Hl as [<- _]. reflexivity.
  - reflexivity.
  - reflexivity.
  - reflexivity.
  - simpl. lia.
Defined.


Lemma hostStartGame_run (s : Server) (sid : string) (p : Player) :
  one_timer s →
  obj_get sid (players (gameState s)) = Some p →
  isHost p = true →
  let s1 := set_gameState (λ g, set_players
              (obj_forEach (λ p, set_lastScoreChange 0 (set_score 0 p)) (players g)) g)
              (set_gameState (set_currentQuestionIndex 0) s) in
  hostStartGame sid s
  = Some ((), readingState s1, [gameUpdate (gameState (readingState s1))]).
Proof.
  intros Hone Hp Hhost s1.
  unfold hostStartGame, get. unfold mbind at 1, M_bind. cbn beta iota.
  rewrite Hp. simpl. rewrite Hhost. simpl.
  unfold mbind at 1 2, M_bind, modify. fold s1.
  by rewrite (startReadingPhase_run s1 Hone).
Qed.

Lemma broadcasts_app (out1 out2 : list Emit) :
  broadcasts (out1 ++ out2) = (broadcasts out1 + broadcasts out2)%nat.
Proof. unfold broadcasts. by rewrite filter_app, length_app. Qed.

Lemma broadcasts_countdownUpdates (s : Server) :
  broadcasts (countdownUpdates s) = (Z.to_nat (timer (gameState s)) - 1)%nat.
Proof.
  unfold countdownUpdates. generalize (Z.to_nat (timer (gameState s)) - 1)%nat.
  intros n. generalize 1%nat. induction n as [|n IH]; intros k; [done|].
  cbn [seq fmap list_fmap]. unfold broadcasts in *. rewrite filter_cons_True by done.
  simpl. f_equal. apply IH.
Qed.

Lemma noPoints_countdownUpdates (s : Server) : Forall noPoints (countdownUpdates s).
Proof.
  unfold countdownUpdates. apply Forall_fmap, Forall_forall. by intros.
Qed.

Section Unanswered.
Variables (q : Question) (fa : gmap string Z) (t : Z).

Lemma award_unanswered (c : Z) (p : Player) :
  currentAnswer p = None → award q fa t c p = (0, reason_wrong, c).
Proof. intros Hp. unfold award. by rewrite Hp. Qed.

Lemma loopEmits_unanswered (c : Z) (l : list (string * Player)) :
  Forall (λ e : string * Player, currentAnswer e.2 = None) l →
  Forall noPoints (loopEmits q fa t c l) ∧ broadcasts (loopEmits q fa t c l) = 0%nat.
Proof.
  induction 1 as [|e l He _ [IH1 IH2]]; [by split|].
  simpl in He. cbn [loopEmits]. cbv zeta. rewrite (award_unanswered c e.2 He).
  cbn [fst snd]. split.
  - constructor; [|done]. simpl. by rewrite He.
  - unfold broadcasts in *. by rewrite filter_cons_False by done.
Qed.

Lemma obj_alter_id {V} (f : V → V) k (o : list (string * V)) :
  Forall (λ e : string * V, f e.2 = e.2) o → obj_alter f k o = o.
Proof.
  induction 1 as [|[k0 v0] o Hf _ IH]; [done|].
  simpl in *. case_decide; by rewrite ?Hf, IH.
Qed.

Lemma loopPlayers_unanswered (c : Z) (l ps : list (string * Player)) :
  Forall (λ e : string * Player, currentAnswer e.2 = None) l →
  Forall (λ e : string * Player, lastScoreChange e.2 = 0) ps →
  loopPlayers q fa t c l ps = ps.
Proof.
  intros Hl Hps. induction Hl as [|e l He _ IH]; [done|].
  simpl in He. cbn [loopPlayers]. cbv zeta. rewrite (award_unanswered c e.2 He).
  cbn [fst snd].
  rewrite obj_alter_id; [done|].
  eapply Forall_impl; [exact Hps|]. intros [k [] ] Hz. simpl in *.
  unfold credit, set_score, set_lastScoreChange. simpl. subst. f_equal. lia.
Qed.
End Unanswered.

(** X17: a question that nobody answers.  After [hostStartGame] from a
    host, the 5 firings of the reading countdown, the 15 of the answering
    countdown and the 5 of the reveal countdown end on the leaderboard of
    question 0 with the countdown at 0 and no interval left; every record
    has score 0 and no answer; the scoring pass gave nobody points; and 27
    broadcasts were sent. *)
Theorem unanswered_question_cycle (s : Server) (sid : string) (p : Player) :
  one_timer s →
  obj_get sid (players (gameState s)) = Some p →
  isHost p = true →
  ∃ s' out,
    run (ev_hostStartGame sid :: questionCycle (nextHandle s)) s = Some ((), s', out) ∧
    state (gameState s') = LEADERBOARD ∧
    currentQuestionIndex (gameState s') = 0 ∧
    timer (gameState s') = 0 ∧
    intervals s' = ∅ ∧
    (∀ k r, obj_get k (players (gameState s)) = Some r →
       obj_get k (players (gameState s')) = Some (cleared_for_game r)) ∧
    Forall noPoints out ∧
    broadcasts out = 27%nat.
Proof.
  intros Hone Hp Hhost.
  pose proof (hostStartGame_run s sid p Hone Hp Hhost) as Hstart.
  cbv zeta in Hstart.
  set (s0 := set_gameState _ (set_gameState (set_currentQuestionIndex 0) s)) in Hstart.
  set (h := nextHandle s).
  (* the reading countdown *)
  set (sQ := mkServer (set_timer 15 (set_state QUESTION
                 (gameState (completionState (readingState s0)))))
               ∅ (Some (S h)) {[S h := endQuestion]} (S (S h))).
  assert (run (replicate 5 (ev_tick h)) (readingState s0)
          = Some ((), sQ, countdownUpdates (readingState s0)
                          ++ [gameUpdate (gameState sQ)])) as H1.
  { change 5%nat with (Z.to_nat (timer (gameState (readingState s0)))).
    rewrite (countdown_complete _ h endReading).
    - rewrite runCallback_endReading_run by (by apply one_timer_idle). done.
    - intros h' cb Hl. unfold readingState in Hl. cbn [intervals] in Hl.
      by apply lookup_singleton_Some in Hl as [<- _].
    - apply lookup_singleton_eq.
    - simpl. lia. }
  (* the answering countdown *)
  assert (one_timer sQ) as HoneQ.
  { intros h' cb Hl. unfold sQ in Hl. cbn [intervals] in Hl.
    by apply lookup_singleton_Some in Hl as [<- _]. }
  pose proof (runCallback_endQuestion_run (completionState sQ)
                (mkQuestion 1 "เจ้าบ่าวและเจ้าสาวเจอกันครั้งแรกที่ไหน?"
                   ["มหาวิทยาลัย"; "ที่ทำงาน"; "ร้านกาแฟ"; "งานแต่งเพื่อน"] 0)
                (one_timer_idle (completionState sQ) eq_refl) eq_refl) as HcbQ.
  cbv zeta in HcbQ.
  set (q0 := mkQuestion _ _ _ _) in HcbQ.
  set (order := scoringOrder (gameState (completionState sQ))) in HcbQ.
  set (ps := readingPlayers (players (gameState s0))).
  assert (players (gameState (completionState sQ)) = ps) as Hps by reflexivity.
  assert (Forall (λ e : string * Player,
                    currentAnswer e.2 = None ∧ lastScoreChange e.2 = 0) ps)
    as Hcleared.
  { unfold ps, readingPlayers.
    apply (Forall_obj_forEach (λ _, True)); [|done].
    apply Forall_forall. by intros. }
  assert (Forall (λ e : string * Player, currentAnswer e.2 = None) order) as Horder.
  { apply Forall_forall. intros e [_ Hin]%scoringOrder_elem_of.
    rewrite Hps in Hin. rewrite Forall_forall in Hcleared.
    by apply Hcleared. }
  rewrite Hps in HcbQ.
  rewrite (loopPlayers_unanswered q0 _ _ _ order ps) in HcbQ;
    [|exact Horder|by eapply Forall_impl; [exact Hcleared|]; intros ? []].
  destruct (loopEmits_unanswered q0 (playerFirstAnswers (completionState sQ))
              (timer (gameState (completionState sQ))) 0 order Horder)
    as [Hnone Hzero].
  set (fb := loopEmits _ _ _ _ _) in HcbQ, Hnone, Hzero.
  set (sR := mkServer _ _ _ _ _) in HcbQ.
  assert (run (replicate 15 (ev_tick (S h))) sQ
          = Some ((), sR, countdownUpdates sQ ++ fb
                     ++ [gameUpdate (set_state REVEAL
                           (set_players ps (gameState (completionState sQ))));
                         gameUpdate (gameState sR)])) as H2.
  { change 15%nat with (Z.to_nat (timer (gameState sQ))).
    rewrite (countdown_complete _ (S h) endQuestion).
    - by rewrite HcbQ.
    - exact HoneQ.
    - apply lookup_singleton_eq.
    - simpl. lia. }
  (* the reveal countdown *)
  assert (run (replicate 5 (ev_tick (S (S h)))) sR
          = Some ((), set_gameState (set_state LEADERBOARD) (completionState sR),
                  countdownUpdates sR
                  ++ [gameUpdate (set_state LEADERBOARD
                                    (gameState (completionState sR)))])) as H3.
  { change 5%nat with (Z.to_nat (timer (gameState sR))).
    rewrite (countdown_complete _ (S (S h)) endReveal).
    - by rewrite runCallback_endReveal_run.
    - intros h' cb Hl. unfold sR in Hl. cbn [intervals] in Hl.
      by apply lookup_singleton_Some in Hl as [<- _].
    - apply lookup_singleton_eq.
    - simpl. lia. }
  eexists _, _. split.
  { erewrite run_cons by (cbn [handle]; exact Hstart).
    unfold questionCycle. fold h.
    erewrite run_app by exact H1.
    erewrite run_app by exact H2.
    rewrite H3. reflexivity. }
  split; [done|]. split; [done|]. split; [done|]. split; [done|]. split_and!.
  - intros k r Hk. cbn [gameState set_gameState completionState set_state
                        set_timer players sR set_players].
    unfold sR. cbn [gameState set_gameState completionState set_state
                        set_timer players set_players].
    unfold ps, readingPlayers, s0. simpl.
    by rewrite !obj_get_forEach, Hk.
  - repeat first [apply Forall_app; split | apply Forall_cons; split
                 | apply Forall_nil | apply noPoints_countdownUpdates
                 | exact Hnone | exact I ].
  - rewrite !broadcasts_app, !broadcasts_countdownUpdates, Hzero. reflexivity.
Qed.

Lemma unanswered_question_cycle_witness :
  ∃ s' out,
    run (ev_hostStartGame "h" :: questionCycle 3) onLeaderboard = Some ((), s', out) ∧
    state (gameState s') = LEADERBOARD ∧
    timer (gameState s') = 0 ∧
    intervals s' = ∅ ∧
    broadcasts out = 27%nat.
Proof.
  destruct (unanswered_question_cycle onLeaderboard "h" (joined "h" "Host" true None))
    as (s' & out & Hrun & Hst & _ & Ht & Hiv & _ & _ & Hb).
  - by apply one_timer_idle.
  - reflexivity.
  - reflexivity.
  - exists s', out. repeat split; assumption.
Defined.


(** ** The ranks of the leaderboard *)

Lemma byScore_opp (a b : Player) : byScore a b = CompOpp (byScore b a).
Proof. unfold byScore. apply Z.compare_antisym. Qed.

Lemma byScore_trans (a b c : Player) :
  byScore a b ≠ Gt → byScore b c ≠ Gt → byScore a c ≠ Gt.
Proof. unfold byScore. rewrite !Z.compare_gt_iff. lia. Qed.

Lemma goes_before_ranksAbove (a b : nat * Player) :
  goes_before byScore a b ↔ ranksAbove a b.
Proof.
  unfold goes_before, ranksAbove, byScore.
  rewrite Z.compare_lt_iff, Z.compare_eq_iff. intuition lia.
Qed.

(** The sorted list with the positions that its entries had in the
    players object. *)
Lemma ranking_decorated (g : GameData) :
  ∃ dl : list (nat * Player),
    ranking g = dl.*2 ∧
    dl ≡ₚ filter (λ je : nat * Player, isHost je.2 = false) (indexed (players g).*2) ∧
    StronglySorted (goes_before byScore) dl.
Proof.
  set (nh := filter (λ je : nat * Player, isHost je.2 = false)
               (indexed (players g).*2)).
  exists (Array_sort (λ a b : nat * Player, byScore a.2 b.2) nh). split_and!.
  - unfold nh, ranking, indexed.
    rewrite (Array_sort_fmap byScore snd). f_equal.
    rewrite <- (indexedFrom_snd 0 (players g).*2) at 1.
    symmetry.
    exact (filter_snd (λ p : Player, isHost p = false)
             (λ p, decide_rel (=) (isHost p) false)
             (indexedFrom 0 (players g).*2)).
  - apply Array_sort_perm.
  - apply Array_sort_stable.
    + intros x y. apply byScore_opp.
    + intros x y z. apply byScore_trans.
    + apply StronglySorted_filter, indexedFrom_sorted.
Qed.

Lemma findIndexFrom_None {A} (f : A → bool) (i : Z) (l : list A) :
  Forall (λ x, f x = false) l → findIndexFrom f i l = -1.
Proof.
  intros Hl. revert i. induction Hl as [|x l Hx _ IH]; intros i; simpl; [done|].
  by rewrite Hx.
Qed.

Lemma findIndexFrom_bounds {A} (f : A → bool) (i : Z) (l : list A) :
  0 ≤ i → findIndexFrom f i l = -1 ∨ i ≤ findIndexFrom f i l.
Proof.
  revert i. induction l as [|x l IH]; intros i Hi; simpl; [by left|].
  destruct (f x); [right; lia|]. destruct (IH (i + 1)); [lia|by left|right; lia].
Qed.

Lemma findIndexFrom_first {A} (f : A → bool) (i : Z) (l1 l2 : list A) (x : A) :
  Forall (λ y, f y = false) l1 → f x = true →
  findIndexFrom f i (l1 ++ x :: l2) = i + Z.of_nat (length l1).
Proof.
  intros Hl Hx. revert i. induction Hl as [|y l1 Hy _ IH]; intros i; simpl.
  - rewrite Hx. lia.
  - rewrite Hy, IH. lia.
Qed.

(** X18: the rank that [LeaderboardView] shows a non-host participant is
    one more than the number of non-host participants with a higher score
    or with the same score and an earlier place in the players object. *)
Theorem myRank_position (g : GameData) (i : nat) (sid : string) (p : Player) :
  NoDup (players g).*1 →
  Forall (λ e : string * Player, id e.2 = e.1) (players g) →
  players g !! i = Some (sid, p) →
  isHost p = false →
  myRank sid g
  = 1 + Z.of_nat (length (filter (λ je : nat * Player,
                                    isHost je.2 = false ∧ ranksAbove je (i, p))
                            (indexed (players g).*2))).
Proof.
  intros Hnd Hids Hi Hhost.
  destruct (ranking_decorated g) as (dl & Hdl & Hperm & Hsorted).
  assert ((players g).*2 !! i = Some p) as Hi2
    by (by rewrite list_lookup_fmap, Hi).
  assert ((i, p) ∈ dl) as Hin.
  { rewrite Hperm. apply list_elem_of_filter. split; [done|].
    by apply elem_of_indexed. }
  apply list_elem_of_split in Hin as (d1 & d2 & ->).
  assert (Forall (λ y : Player, bool_decide (id y = sid) = false) d1.*2) as Hfront.
  { apply Forall_fmap, Forall_forall. intros [j r] Hj. simpl.
    apply bool_decide_eq_false. intros Hid.
    assert ((j, r) ∈ filter (λ je : nat * Player, isHost je.2 = false)
                       (indexed (players g).*2)) as Hjr.
    { rewrite <- Hperm. apply elem_of_app. by left. }
    apply list_elem_of_filter in Hjr as [_ Hjr]. apply elem_of_indexed in Hjr.
    rewrite list_lookup_fmap in Hjr.
    destruct (players g !! j) as [[k r']|] eqn:Hj'; [|done].
    simpl in Hjr. injection Hjr as ->.
    rewrite Forall_forall in Hids.
    assert (id r = k) as Hk.
    { apply (Hids (k, r)), list_elem_of_lookup. by exists j. }
    assert (j = i) as ->.
    { eapply NoDup_lookup; [exact Hnd| |].
      - by rewrite list_lookup_fmap, Hj'.
      - rewrite list_lookup_fmap, Hi. simpl. congruence. }
    apply StronglySorted_app in Hsorted as (H12 & _ & _).
    apply (goes_before_irrefl byScore byScore_opp (i, p)).
    rewrite Hi in Hj'. injection Hj' as _ <-. apply H12; [done|by left]. }
  unfold myRank, findIndex. rewrite Hdl, fmap_app, fmap_cons.
  rewrite findIndexFrom_first; [|exact Hfront|].
  2:{ simpl. apply bool_decide_eq_true. rewrite Forall_forall in Hids.
      apply (Hids (sid, p)), list_elem_of_lookup. by exists i. }
  rewrite length_fmap.
  assert (filter (λ _ : nat * Player, True) d1 = d1) as Hall.
  { clear. induction d1 as [|x d1 IH]; [done|]. by rewrite filter_cons_True, IH. }
  rewrite <- Hall at 1.
  rewrite <- (sorted_front byScore byScore_opp (λ _, True) d1 (i, p) d2)
    by exact Hsorted.
  rewrite Hperm, list_filter_filter.
  assert (∀ l : list (nat * Player),
            length (filter (λ je, (True ∧ goes_before byScore je (i, p))
                                  ∧ isHost je.2 = false) l)
            = length (filter (λ je, isHost je.2 = false ∧ ranksAbove je (i, p)) l))
    as Hsame.
  { intros l. f_equal. apply list_filter_iff. intros je.
    rewrite goes_before_ranksAbove. tauto. }
  rewrite Hsame. lia.
Qed.

Lemma myRank_position_witness :
  myRank "b" (gameState onLeaderboard) = 2.
Proof.
  apply (myRank_position (gameState onLeaderboard) 2 "b"
           (answered "b" 5 5 (Some 0) true (Some 1700000000200))).
  - by apply (bool_decide_unpack _).
  - by repeat constructor.
  - reflexivity.
  - reflexivity.
Defined.

Lemma findIndexFrom_found {A} (f : A → bool) (i : Z) (l : list A) (x : A) :
  x ∈ l → f x = true → i ≤ findIndexFrom f i l.
Proof.
  intros Hin Hx. revert i. induction Hin as [x l|x y l _ IH]; intros i; simpl.
  - by rewrite Hx.
  - destruct (f y); [done|]. specialize (IH Hx (i + 1)). lia.
Qed.

(** X19: [LeaderboardView] shows rank 0 exactly to a viewer who has no
    non-host record: a host, or a connection that has not joined. *)
Theorem myRank_unranked (g : GameData) (sid : string) :
  myRank sid g = 0 ↔
  ¬ ∃ p, p ∈ (players g).*2 ∧ isHost p = false ∧ id p = sid.
Proof.
  unfold myRank, findIndex, ranking. split.
  - intros Hrank (p & Hin & Hhost & Hid).
    assert (p ∈ Array_sort byScore (filter (λ p, isHost p = false) (players g).*2))
      as Hp by (rewrite Array_sort_perm; by apply list_elem_of_filter).
    pose proof (findIndexFrom_found (λ p, bool_decide (id p = sid)) 0 _ p Hp
                  (bool_decide_eq_true_2 _ Hid)).
    lia.
  - intros Hnone. rewrite findIndexFrom_None; [done|].
    apply Forall_forall. intros p Hp. apply bool_decide_eq_false. intros Hid.
    rewrite Array_sort_perm in Hp. apply list_elem_of_filter in Hp as [Hhost Hin].
    apply Hnone. by exists p.
Qed.

(** X20: the list of [LeaderboardView] and [FinalResultsView] holds the
    non-host participants, each once, by descending score; so nobody
    outside the three [winners], or outside the [top10], has a higher score
    than somebody inside. *)
Theorem ranking_sorted (g : GameData) :
  ranking g ≡ₚ filter (λ p, isHost p = false) (players g).*2 ∧
  StronglySorted (λ a b, score b ≤ score a) (ranking g) ∧
  (∀ w r, w ∈ winners g → r ∈ drop 3 (ranking g) → score r ≤ score w) ∧
  (∀ w r, w ∈ top10 g → r ∈ drop 10 (ranking g) → score r ≤ score w).
Proof.
  assert (StronglySorted (λ a b, score b ≤ score a) (ranking g)) as Hsorted.
  { destruct (ranking_decorated g) as (dl & -> & _ & Hs).
    eapply StronglySorted_fmap; [|exact Hs].
    intros a b [Hlt|[Heq _]]%goes_before_ranksAbove; lia. }
  assert (∀ n w r, w ∈ take n (ranking g) → r ∈ drop n (ranking g) →
                   score r ≤ score w) as Hsplit.
  { intros n w r Hw Hr. rewrite <- (take_drop n (ranking g)) in Hsorted.
    by apply (StronglySorted_app_1_elem_of _ _ _ w r) in Hsorted. }
  split_and!; [apply Array_sort_perm|exact Hsorted|apply Hsplit..].
Qed.

